(** * computer_use_demo/tools/computer.py: display registry, coordinate
      scaling and action dispatch of [ComputerTool]

    A shallow embedding of [get_screen_details], [ComputerTool.scale_coordinates]
    and [ComputerTool.__call__], and the properties of the specification
    settled against it; then of [ComputerTool.options], the region and the
    padding of [screenshot_from_monitor] and [chunks], with further
    properties of the code.

    Python [int] is [Z].  Python [float] (IEEE 754 binary64) is modelled by
    its exact rational value in [Q]: every float operation of the source is
    the exact rational operation followed by rounding to the nearest
    binary64 value, ties to even ([fl_round]).  A [str] is a [string] whose
    characters are the code points below 256, on which [str.isspace] and
    [str.lower] are modelled in full. *)

From Stdlib Require Import ZArith QArith Qabs Qround Qpower Lia Lqa Bool List String Ascii.
From Stdlib Require Import SpecFloat DecimalString.
From Stdlib Require Import Sorted Permutation.
Import ListNotations.

Local Open Scope Z_scope.

(** ** Python exceptions and fallible results *)

(** The exceptions the modelled code raises itself ([ToolError],
    [RuntimeError], [IndexError]), those of the Python arithmetic and name
    lookup it runs into, and [BackendError] for whatever an external
    collaborator ([pyautogui], [adbutils], the screen capture) raises,
    tagged with the call that raised. *)
Inductive exn : Type :=
| ToolError (message : string)
| ZeroDivisionError
| OverflowError
| KeyError (key : string)
| UnboundLocalError (variable : string)
| RuntimeError (message : string)
| IndexError (message : string)
| BackendError (call : string).

Inductive result (A : Type) : Type :=
| Ok (a : A)
| Raise (e : exn).
Arguments Ok {A} a.
Arguments Raise {A} e.

Definition bind {A B} (r : result A) (k : A -> result B) : result B :=
  match r with
  | Ok a => k a
  | Raise e => Raise e
  end.

Notation "x <- r ;; k" := (bind r (fun x => k))
  (at level 61, r at next level, right associativity).
Notation "' p <- r ;; k" := (bind r (fun p => k))
  (at level 61, p pattern, r at next level, right associativity).

(** ** Binary64 arithmetic on exact rational values *)

Module Float.

Local Open Scope Q_scope.

(** [2^e] for an integer exponent of either sign. *)
Definition pow2 (e : Z) : Q := 2 ^ e.

(** Python's [round(f)] on the exact value of a float: the nearest integer,
    ties to the even one. *)
Definition round_half_even (q : Q) : Z :=
  let k := Qfloor q in
  match Qcompare (q - inject_Z k) (1 # 2) with
  | Lt => k
  | Gt => (k + 1)%Z
  | Eq => if Z.even k then k else (k + 1)%Z
  end.

(** [floor (log2 q)] for [q > 0]. *)
Definition ilog2 (q : Q) : Z :=
  let e0 := (Z.log2 (Qnum q) - Z.log2 (Z.pos (Qden q)))%Z in
  if Qle_bool (pow2 e0) q then e0 else (e0 - 1)%Z.

(** Exponent of the unit in the last place of the binary64 grid around [q]:
    53 significant bits, and the subnormal grid [2^-1074] at the bottom. *)
Definition ulp_exp (q : Q) : Z := Z.max (ilog2 (Qabs q) - 52) (-1074).

(** Round to nearest, ties to even, on the binary64 grid, with the
    exponent unbounded above (overflow is decided by the caller). *)
Definition fl_round (q : Q) : Q :=
  if Qeq_bool q 0 then 0
  else
    let ex := ulp_exp q in
    inject_Z (round_half_even (q * pow2 (- ex))) * pow2 ex.

(** Largest finite binary64 value, [(2^53 - 1) * 2^971]. *)
Definition fl_max : Q := inject_Z ((2 ^ 53 - 1) * 2 ^ 971).

(** A Python float value: finite, or an infinity with its sign.  [nan]
    cannot arise from the operations of the source. *)
Inductive float : Type :=
| Fin (q : Q)
| Inf (negative : bool).

(** The binary64 result of an operation whose exact value is [q]. *)
Definition fl (q : Q) : float :=
  let r := fl_round q in
  if Qle_bool (Qabs r) fl_max then Fin r else Inf (negb (Qle_bool 0 q)).

(** A decimal literal such as [0.02]. *)
Definition float_lit (q : Q) : Q := fl_round q.

(** [a / b] on two [int]s: the correctly rounded quotient. *)
Definition int_truediv (a b : Z) : result Q :=
  if (b =? 0)%Z then Raise ZeroDivisionError
  else match fl (inject_Z a / inject_Z b) with
       | Fin r => Ok r
       | Inf _ => Raise OverflowError
       end.

(** Implicit conversion of an [int] operand of a mixed operation. *)
Definition float_of_int (n : Z) : result Q :=
  match fl (inject_Z n) with
  | Fin r => Ok r
  | Inf _ => Raise OverflowError
  end.

Definition float_sub (a b : Q) : float := fl (a - b).

Definition float_abs (f : float) : float :=
  match f with
  | Fin q => Fin (Qabs q)
  | Inf _ => Inf false
  end.

Definition float_lt (f : float) (c : Q) : bool :=
  match f with
  | Fin q => negb (Qle_bool c q)
  | Inf negative => negative
  end.

(** [n * f] and [n / f] for an [int] [n] and a finite float [f]. *)
Definition int_mul_float (n : Z) (f : Q) : result float :=
  x <- float_of_int n ;;
  Ok (fl (x * f)).

Definition int_div_float (n : Z) (f : Q) : result float :=
  x <- float_of_int n ;;
  if Qeq_bool f 0 then Raise ZeroDivisionError else Ok (fl (x / f)).

(** [round(f)] with one argument: an [int], or [OverflowError] on an
    infinity. *)
Definition py_round (f : float) : result Z :=
  match f with
  | Fin q => Ok (round_half_even q)
  | Inf _ => Raise OverflowError
  end.

(** The relative and the absolute error of one rounding: half an ulp of a
    normal number, and half the spacing of the subnormal ones. *)
Definition eps : Q := pow2 (-53).
Definition eta : Q := pow2 (-1075).

(** A bound on the error of one rounding of a value below [2^14]. *)
Definition tau : Q := 1 # 274877906944.

(** [2^64], [2^66] and [2^-66]. *)
Definition two64 : Q := 18446744073709551616.
Definition two66 : Q := 73786976294838206464.
Definition inv66 : Q := 1 # 73786976294838206464.

(** The exact value of a finite number of the Standard Library's
    specification of IEEE 754 arithmetic, against which the operations
    above are checked on sample values. *)
Definition spec_value (f : spec_float) : Q :=
  match f with
  | S754_finite s m e => (if s then -1 else 1) * inject_Z (Z.pos m) * pow2 e
  | _ => 0
  end.

Definition b64 (n : positive) : spec_float := S754_finite false n 0.

End Float.

(** ** Strings *)

Local Open Scope string_scope.

(** [str(n)] for an [int]. *)
Definition str_int (n : Z) : string := NilZero.string_of_int (Z.to_int n).

(** [sep.join(l)]. *)
Fixpoint join (sep : string) (l : list string) : string :=
  match l with
  | [] => EmptyString
  | [s] => s
  | s :: rest => s ++ sep ++ join sep rest
  end.

(** [repr] of a list of [int]s, as in [f"{coordinate}"]. *)
Definition repr_list (l : list Z) : string :=
  "[" ++ join ", " (map str_int l) ++ "]".

(** [s.split(c)] for a one-character separator: never empty, one more
    piece than there are separators. *)
Fixpoint split (c : ascii) (s : string) : list string :=
  match s with
  | EmptyString => [EmptyString]
  | String a rest =>
      if Ascii.eqb a c then EmptyString :: split c rest
      else match split c rest with
           | [] => [String a EmptyString]
           | piece :: pieces => String a piece :: pieces
           end
  end.

(** [str.isspace] on one character: the white space below U+0100 is
    U+0009 to U+000D, U+001C to U+0020, U+0085 and U+00A0. *)
Definition is_space (a : ascii) : bool :=
  let n := N_of_ascii a in
  ((9 <=? n) && (n <=? 13) || (28 <=? n) && (n <=? 32)
   || (n =? 133) || (n =? 160))%N.

Fixpoint lstrip (s : string) : string :=
  match s with
  | String a rest => if is_space a then lstrip rest else s
  | EmptyString => EmptyString
  end.

Fixpoint rstrip (s : string) : string :=
  match s with
  | EmptyString => EmptyString
  | String a rest =>
      match rstrip rest with
      | EmptyString => if is_space a then EmptyString else String a EmptyString
      | rest' => String a rest'
      end
  end.

Definition strip (s : string) : string := rstrip (lstrip s).

(** [str.lower] on one character: the upper-case letters below U+0100 are
    A to Z and U+00C0 to U+00DE without the sign U+00D7, each 32 below its
    lower-case letter. *)
Definition lower_char (a : ascii) : ascii :=
  let n := N_of_ascii a in
  if ((65 <=? n) && (n <=? 90)
      || (192 <=? n) && (n <=? 222) && negb (n =? 215))%N
  then ascii_of_N (n + 32) else a.

Fixpoint lower (s : string) : string :=
  match s with
  | EmptyString => EmptyString
  | String a rest => String (lower_char a) (lower rest)
  end.

(** [d.get(k, default)] on a dict written as an association list. *)
Fixpoint dict_get (d : list (string * string)) (k default : string) : string :=
  match d with
  | [] => default
  | (k', v) :: rest => if String.eqb k k' then v else dict_get rest k default
  end.

Local Open Scope Z_scope.

(** ** Data model *)

Record Resolution : Type := mkResolution {
  width : Z;
  height : Z
}.

Inductive ScreenType : Type := MONITOR | ADB.

Record Screen : Type := mkScreen {
  index : Z;
  name : option string;
  type_ : ScreenType;
  size : Resolution;
  layout : option string;
  position : option string
}.

(** The dict [MAX_SCALING_TARGETS], in insertion order (the order in which
    [.items()] yields it). *)
Definition MAX_SCALING_TARGETS : list (string * Resolution) :=
  [ ("XGA", mkResolution 1024 768);
    ("WXGA", mkResolution 1280 800);
    ("FWXGA", mkResolution 1366 768) ].

(** [MAX_SCALING_TARGETS[key]]. *)
Fixpoint targets_get (d : list (string * Resolution)) (key : string)
  : result Resolution :=
  match d with
  | [] => Raise (KeyError key)
  | (k, v) :: rest => if String.eqb key k then Ok v else targets_get rest key
  end.

Inductive ScalingSource : Type := COMPUTER | API.

(** Modelled from the spec: [ToolResult] of tools/base.py, which is not
    among the sources; the ActionResult of the specification, with an
    optional textual output, an optional error text and an optional encoded
    image. *)
Record ToolResult : Type := mkToolResult {
  output : option string;
  error : option string;
  base64_image : option string
}.

(** The attributes of a [ComputerTool] instance that the modelled methods
    read or write.  [target_dimension] is [None] until it is first set
    ([hasattr(self, 'target_dimension')] is false); [_adb_device] holds the
    serial number of the bound device. *)
Record ComputerTool : Type := mkComputerTool {
  self_width : Z;
  self_height : Z;
  offset_x : Z;
  offset_y : Z;
  selected_screen : Screen;
  _scaling_enabled : bool;
  _adb_device : option string;
  _adb_mouse : Z * Z;
  target_dimension : option Resolution
}.

Definition set_target_dimension (self : ComputerTool) (d : Resolution) : ComputerTool :=
  mkComputerTool (self_width self) (self_height self) (offset_x self) (offset_y self)
    (selected_screen self) (_scaling_enabled self) (_adb_device self)
    (_adb_mouse self) (Some d).

Definition set_adb_mouse (self : ComputerTool) (p : Z * Z) : ComputerTool :=
  mkComputerTool (self_width self) (self_height self) (offset_x self) (offset_y self)
    (selected_screen self) (_scaling_enabled self) (_adb_device self)
    p (target_dimension self).

Definition set_offset (self : ComputerTool) (p : Z * Z) : ComputerTool :=
  mkComputerTool (self_width self) (self_height self) (fst p) (snd p)
    (selected_screen self) (_scaling_enabled self) (_adb_device self)
    (_adb_mouse self) (target_dimension self).

(** ** Display registry: [get_screen_details] *)

(** A monitor as [screeninfo.get_monitors] reports it. *)
Record Monitor : Type := mkMonitor {
  m_x : Z;
  m_y : Z;
  m_width : Z;
  m_height : Z;
  is_primary : bool
}.

(** A device as [adbutils] lists it: [info['serialno']] and the outcome of
    [window_size()]. *)
Record AdbDevice : Type := mkAdbDevice {
  serialno : string;
  window_size : result (Z * Z)
}.

(** [sorted(screens, key=lambda s: s.x)]: a stable sort. *)
Fixpoint insert_by_x (m : Monitor) (l : list Monitor) : list Monitor :=
  match l with
  | [] => [m]
  | m' :: rest =>
      if m_x m <=? m_x m' then m :: l else m' :: insert_by_x m rest
  end.

Fixpoint sorted_by_x (l : list Monitor) : list Monitor :=
  match l with
  | [] => []
  | m :: rest => insert_by_x m (sorted_by_x rest)
  end.

(** The loop over [enumerate(sorted_screens)], from index [i] with [n] the
    length of the whole list; returns the screens appended and the value of
    [primary_index] at the end. *)
Fixpoint monitor_screens (n i primary_index : Z) (l : list Monitor)
  : list Screen * Z :=
  match l with
  | [] => ([], primary_index)
  | screen :: rest =>
      let layout :=
        if i =? 0 then "Left"
        else if i =? n - 1 then "Right"
        else "Center" in
      let position := if is_primary screen then "Primary" else "Secondary" in
      let primary_index := if is_primary screen then i else primary_index in
      let screen_info :=
        mkScreen i None MONITOR (mkResolution (m_width screen) (m_height screen))
          (Some layout) (Some position) in
      let (more, primary_index) := monitor_screens n (i + 1) primary_index rest in
      (screen_info :: more, primary_index)
  end.

(** The loop over [adb.device_list()]. *)
Fixpoint adb_screens (l : list AdbDevice) : result (list Screen) :=
  match l with
  | [] => Ok []
  | device :: rest =>
      ' (w, h) <- window_size device ;;
      more <- adb_screens rest ;;
      Ok (mkScreen 0 (Some (serialno device)) ADB (mkResolution w h) None None
            :: more)
  end.

(** [get_screen_details()], given the outcome of [get_monitors()] and of
    [adb.device_list()]. *)
Definition get_screen_details (get_monitors : result (list Monitor))
    (device_list : result (list AdbDevice)) : result (list Screen * Z) :=
  screens <- get_monitors ;;
  let sorted_screens := sorted_by_x screens in
  let (screen_details, primary_index) :=
    monitor_screens (Z.of_nat (List.length sorted_screens)) 0 0 sorted_screens in
  devices <- device_list ;;
  remote <- adb_screens devices ;;
  Ok ((screen_details ++ remote)%list, primary_index).

(** The [Screen] built for the monitor at index [i]. *)
Definition monitor_screen (i : Z) (m : Monitor) (layout : string) : Screen :=
  mkScreen i None MONITOR (mkResolution (m_width m) (m_height m)) (Some layout)
    (Some (if is_primary m then "Primary" else "Secondary")).

(** The remote part of the catalogue, appended to the native part. *)
Definition with_remote (native : list Screen) (primary_index : Z)
    (device_list : result (list AdbDevice)) : result (list Screen * Z) :=
  devices <- device_list ;;
  remote <- adb_screens devices ;;
  Ok ((native ++ remote)%list, primary_index).

(** ** Coordinate scaler: [ComputerTool.scale_coordinates] *)

(** [abs(r - ratio) < 0.02], in floats. *)
Definition within_tolerance (r ratio : Q) : bool :=
  Float.float_lt (Float.float_abs (Float.float_sub r ratio))
    (Float.float_lit (2 # 100)).

(** The loop over [MAX_SCALING_TARGETS.items()]: [Some dimension] when
    [target_dimension] was assigned, [None] when the loop ended (by [break]
    or by exhaustion) without assigning it. *)
Fixpoint scan_targets (self_width : Z) (ratio : Q)
    (targets : list (string * Resolution)) : result (option Resolution) :=
  match targets with
  | [] => Ok None
  | (_, dimension) :: rest =>
      r <- Float.int_truediv (width dimension) (height dimension) ;;
      if within_tolerance r ratio
      then
        if width dimension <? self_width then Ok (Some dimension)
        else Ok None
      else scan_targets self_width ratio rest
  end.

(** The test of the loop for one table entry and a native resolution
    [w] x [h]: the entry's aspect ratio is within the tolerance of the
    native one. *)
Definition entry_matches (dimension : Resolution) (w h : Z) : bool :=
  match Float.int_truediv w h,
        Float.int_truediv (width dimension) (height dimension) with
  | Ok ratio, Ok r => within_tolerance r ratio
  | _, _ => false
  end.

(** The target the method settles on, with the fall-back to WXGA. *)
Definition select_target (w h : Z) : result Resolution :=
  ratio <- Float.int_truediv w h ;;
  found <- scan_targets w ratio MAX_SCALING_TARGETS ;;
  match found with
  | Some dimension => Ok dimension
  | None => targets_get MAX_SCALING_TARGETS "WXGA"
  end.

Definition out_of_bounds_message (x y : Z) : string :=
  "Coordinates " ++ str_int x ++ ", " ++ str_int y ++ " are out of bounds".

(** The arithmetic after the target is chosen. *)
Definition scale_with (target_dimension : Resolution) (w h : Z)
    (source : ScalingSource) (x y : Z) : result (Z * Z) :=
  x_scaling_factor <- Float.int_truediv (width target_dimension) w ;;
  y_scaling_factor <- Float.int_truediv (height target_dimension) h ;;
  match source with
  | API =>
      if (x >? w) || (y >? h) then Raise (ToolError (out_of_bounds_message x y))
      else
        fx <- Float.int_div_float x x_scaling_factor ;;
        rx <- Float.py_round fx ;;
        fy <- Float.int_div_float y y_scaling_factor ;;
        ry <- Float.py_round fy ;;
        Ok (rx, ry)
  | COMPUTER =>
      fx <- Float.int_mul_float x x_scaling_factor ;;
      rx <- Float.py_round fx ;;
      fy <- Float.int_mul_float y y_scaling_factor ;;
      ry <- Float.py_round fy ;;
      Ok (rx, ry)
  end.

(** [scale_coordinates(source, x, y)]: the value returned or the exception
    raised, and the instance afterwards ([self.target_dimension] is
    assigned as soon as the target is chosen, also when the call then
    raises). *)
Definition scale_coordinates (self : ComputerTool) (source : ScalingSource)
    (x y : Z) : result (Z * Z) * ComputerTool :=
  if negb (_scaling_enabled self) then (Ok (x, y), self)
  else
    match select_target (self_width self) (self_height self) with
    | Raise e => (Raise e, self)
    | Ok target =>
        (scale_with target (self_width self) (self_height self) source x y,
         set_target_dimension self target)
    end.

(** The three table entries and their aspect ratios as floats. *)
Definition XGA : Resolution := mkResolution 1024 768.
Definition WXGA : Resolution := mkResolution 1280 800.
Definition FWXGA : Resolution := mkResolution 1366 768.

Definition r_XGA : Q := Eval vm_compute in Float.fl_round (1024 # 768).
Definition r_WXGA : Q := Eval vm_compute in Float.fl_round (1280 # 800).
Definition r_FWXGA : Q := Eval vm_compute in Float.fl_round (1366 # 768).

(** ** Backends and the state of a session *)

(** The calls the tool makes on its collaborators: [pyautogui] on the
    native backend, the [adbutils] device on the remote one, and the
    platform capture behind [screenshot_from_monitor]. *)
Inductive Call : Type :=
| MoveTo (x y : Z)
| DragTo (x y : Z)
| KeyDown (key : string)
| KeyUp (key : string)
| Click
| Typewrite (text : string)
| Position
| GrabScreen
| AdbSwipe (start_x start_y x y : Z)
| AdbShell (command : string)
| AdbSendKeys (text : string)
| AdbScreenshot.

(** [platform.system()]: ["Windows"], ["Darwin"], or anything else. *)
Inductive System : Type := Windows | Darwin | Linux.

(** What the tool does not decide: which calls raise, the platform, the
    monitors that the platform reports when a capture is taken
    ([screeninfo] on Windows, Quartz on macOS), the outcome of the [xrandr]
    pipeline and of parsing its output on the other systems, and what the
    capture leaves on disk. *)
Record Env : Type := mkEnv {
  call_fails : Call -> bool;
  platform_system : System;
  platform_monitors : result (list Monitor);
  xrandr_resolution : result (Z * Z);
  screenshot_path : string;
  path_exists : bool;
  image_base64 : string
}.

(** The collaborators' side: the calls that went through, oldest first, and
    the OS cursor ([pyautogui.position()]). *)
Record World : Type := mkWorld {
  trace : list Call;
  cursor : Z * Z
}.

Record St : Type := mkSt {
  tool : ComputerTool;
  world : World
}.

(** Computations that read and write the session state and may raise; the
    state reached is kept when they raise. *)
Definition M (A : Type) : Type := St -> result A * St.

Definition ret {A} (a : A) : M A := fun st => (Ok a, st).

Definition raise {A} (e : exn) : M A := fun st => (Raise e, st).

Definition mbind {A B} (m : M A) (k : A -> M B) : M B :=
  fun st =>
    match m st with
    | (Ok a, st') => k a st'
    | (Raise e, st') => (Raise e, st')
    end.

Declare Scope m_scope.
Delimit Scope m_scope with M.
Notation "x <~ m ;; k" := (mbind m (fun x => k))
  (at level 61, m at next level, right associativity) : m_scope.
Notation "' p <~ m ;; k" := (mbind m (fun p => k))
  (at level 61, p pattern, m at next level, right associativity) : m_scope.
Notation "m ;;; k" := (mbind m (fun _ => k))
  (at level 61, right associativity) : m_scope.

Definition get_self : M ComputerTool := fun st => (Ok (tool st), st).

Definition put_self (self : ComputerTool) : M unit :=
  fun st => (Ok tt, mkSt self (world st)).


Definition call_name (c : Call) : string :=
  match c with
  | MoveTo _ _ => "pyautogui.moveTo"
  | DragTo _ _ => "pyautogui.dragTo"
  | KeyDown _ => "pyautogui.keyDown"
  | KeyUp _ => "pyautogui.keyUp"
  | Click => "pyautogui.click"
  | Typewrite _ => "pyautogui.typewrite"
  | Position => "pyautogui.position"
  | GrabScreen => "ImageGrab.grab"
  | AdbSwipe _ _ _ _ => "device.swipe"
  | AdbShell _ => "device.shell"
  | AdbSendKeys _ => "device.send_keys"
  | AdbScreenshot => "device.screenshot"
  end.

Definition perform (c : Call) (w : World) : World :=
  mkWorld (trace w ++ [c])
    match c with
    | MoveTo x y | DragTo x y => (x, y)
    | _ => cursor w
    end.

(** One call on a collaborator: it raises and changes nothing, or goes
    through and is recorded. *)
Definition backend (env : Env) (c : Call) : M unit :=
  fun st =>
    if call_fails env c then (Raise (BackendError (call_name c)), st)
    else (Ok tt, mkSt (tool st) (perform c (world st))).

(** [pyautogui.position()]. *)
Definition position_query (env : Env) : M (Z * Z) :=
  fun st =>
    match backend env Position st with
    | (Ok _, st') => (Ok (cursor (world st')), st')
    | (Raise e, st') => (Raise e, st')
    end.

(** The keys held down after a sequence of calls. *)
Fixpoint remove_key (k : string) (l : list string) : list string :=
  match l with
  | [] => []
  | k' :: rest =>
      if String.eqb k k' then remove_key k rest else k' :: remove_key k rest
  end.

Definition held_after (held : list string) (c : Call) : list string :=
  match c with
  | KeyDown k => (remove_key k held ++ [k])%list
  | KeyUp k => remove_key k held
  | _ => held
  end.

Definition held_keys (t : list Call) : list string := fold_left held_after t [].

(** [scale_coordinates] as a step of a session. *)
Definition scale (source : ScalingSource) (x y : Z) : M (Z * Z) :=
  fun st =>
    let (r, self) := scale_coordinates (tool st) source x y in
    (r, mkSt self (world st)).

(** ** [ComputerTool.screenshot_from_monitor]: the region captured *)

(** The outcome of the choice of the region: the bounding box and the
    monitor it was taken from (the local [screen], which the branch of the
    other systems leaves unbound), or the exception raised: the
    [IndexError] of the index test or that of a collaborator. *)
Inductive region_result : Type :=
| Region (bbox : Z * Z * Z * Z) (screen : option Monitor)
| RegionRaise (e : exn).

(** [screenshot_from_monitor], up to the bounding box.  [get_monitors] is
    the outcome of the enumeration of the platform ([screeninfo] on
    Windows, Quartz on macOS) and [primary_resolution] the outcome of the
    [xrandr] pipeline and of parsing its output. *)
Definition capture_region (system : System)
    (get_monitors : result (list Monitor)) (primary_resolution : result (Z * Z))
    (self : ComputerTool) : region_result :=
  match system with
  | Windows | Darwin =>
      match get_monitors with
      | Raise e => RegionRaise e
      | Ok screens =>
          let sorted_screens := sorted_by_x screens in
          let i := index (selected_screen self) in
          if (i <? 0) || (i >=? Z.of_nat (List.length screens))
          then RegionRaise (IndexError "Invalid screen index.")
          else
            match nth_error sorted_screens (Z.to_nat i) with
            | Some screen =>
                Region (m_x screen, m_y screen,
                        m_x screen + m_width screen, m_y screen + m_height screen)
                  (Some screen)
            | None => RegionRaise (IndexError "list index out of range")
            end
      end
  | Linux =>
      match primary_resolution with
      | Raise e => RegionRaise e
      | Ok (width, height) => Region (0, 0, width, height) None
      end
  end.

(** [self.offset_x = screen.x] and [self.offset_y = screen.y] after the
    capture: the origin of the monitor, when [screen] is bound. *)
Definition capture_offsets (screen : option Monitor) : result (Z * Z) :=
  match screen with
  | Some screen => Ok (m_x screen, m_y screen)
  | None => Raise (UnboundLocalError "screen")
  end.

(** ** [ComputerTool.screenshot] *)

(** [screenshot_from_monitor]: the region by platform, the capture, the
    offsets from the local [screen] and, on the first capture, the padded
    WXGA target. *)
Definition screenshot_from_monitor (env : Env) : M unit :=
  (self <~ get_self ;;
   match capture_region (platform_system env) (platform_monitors env)
           (xrandr_resolution env) self with
   | RegionRaise e => raise e
   | Region bbox screen =>
       backend env GrabScreen ;;;
       match capture_offsets screen with
       | Raise e => raise e
       | Ok offsets =>
           put_self (set_offset self offsets) ;;;
           self <~ get_self ;;
           match target_dimension self with
           | Some _ => ret tt
           | None =>
               fun st =>
                 match targets_get MAX_SCALING_TARGETS "WXGA" with
                 | Ok d => put_self (set_target_dimension self d) st
                 | Raise e => (Raise e, st)
                 end
           end
       end
   end)%M.

Definition screenshot (env : Env) : M ToolResult :=
  (self <~ get_self ;;
   match type_ (selected_screen self) with
   | ADB => backend env AdbScreenshot
   | MONITOR => screenshot_from_monitor env
   end ;;;
   if path_exists env
   then ret (mkToolResult None None (Some (image_base64 env)))
   else raise (ToolError ("Failed to take screenshot: " ++ screenshot_path env
                            ++ " does not exist.")))%M.

(** ** Action dispatcher: [ComputerTool.__call__] *)

(** [action in (...)]. *)
Definition action_in (action : string) (l : list string) : bool :=
  existsb (String.eqb action) l.

Definition key_conversion : list (string * string) :=
  [ ("Page_Down", "pagedown"); ("Page_Up", "pageup"); ("Super_L", "win") ].

(** The key name passed to [keyDown] and [keyUp]. *)
Definition convert_key (key : string) : string :=
  lower (dict_get key_conversion (strip key) (strip key)).

(** [for key in keys: <call on key>]. *)
Fixpoint for_each {A} (l : list A) (body : A -> M unit) : M unit :=
  match l with
  | [] => ret tt
  | a :: rest => (body a ;;; for_each rest body)%M
  end.

Definition coordinate_branch (env : Env) (action : string)
    (text : option string) (coordinate : option (list Z)) : M ToolResult :=
  match coordinate with
  | None => raise (ToolError ("coordinate is required for " ++ action))
  | Some c =>
      match text with
      | Some _ => raise (ToolError ("text is not accepted for " ++ action))
      | None =>
          match c with
          | [c0; c1] =>
              if negb (forallb (fun i => 0 <=? i) c)
              then raise (ToolError (repr_list c
                                       ++ " must be a tuple of non-negative ints"))
              else
                (' (x, y) <~ scale API c0 c1 ;;
                 self <~ get_self ;;
                 let x := x + offset_x self in
                 let y := y + offset_y self in
                 if String.eqb action "mouse_move" then
                   match _adb_device self with
                   | Some _ => put_self (set_adb_mouse self (x, y))
                   | None => backend env (MoveTo x y)
                   end ;;;
                   ret (mkToolResult
                          (Some ("Moved mouse to (" ++ str_int x ++ ", "
                                   ++ str_int y ++ ")")) None None)
                 else
                   (* action == "left_click_drag" *)
                   match _adb_device self with
                   | Some _ =>
                       let (start_x, start_y) := _adb_mouse self in
                       backend env (AdbSwipe start_x start_y x y) ;;;
                       put_self (set_adb_mouse self (x, y)) ;;;
                       (* current_x is bound on the other branch only *)
                       raise (UnboundLocalError "current_x")
                   | None =>
                       ' (current_x, current_y) <~ position_query env ;;
                       backend env (DragTo x y) ;;;
                       ret (mkToolResult
                              (Some ("Dragged mouse from (" ++ str_int current_x
                                       ++ ", " ++ str_int current_y ++ ") to ("
                                       ++ str_int x ++ ", " ++ str_int y ++ ")"))
                              None None)
                   end)%M
          | _ => raise (ToolError (repr_list c ++ " must be a tuple of length 2"))
          end
      end
  end.

Definition text_branch (env : Env) (action : string)
    (text : option string) (coordinate : option (list Z)) : M ToolResult :=
  match text with
  | None => raise (ToolError ("text is required for " ++ action))
  | Some text =>
      match coordinate with
      | Some _ => raise (ToolError ("coordinate is not accepted for " ++ action))
      | None =>
          (self <~ get_self ;;
           if String.eqb action "key" then
             let keys := split "+" text in
             match _adb_device self with
             | Some _ =>
                 for_each keys (fun _ =>
                   backend env (AdbShell ("input keyevent " ++ join " " keys)))
             | None =>
                 for_each keys (fun key => backend env (KeyDown (convert_key key))) ;;;
                 for_each (rev keys) (fun key => backend env (KeyUp (convert_key key)))
             end ;;;
             ret (mkToolResult (Some ("Pressed keys: " ++ text)) None None)
           else
             (* action == "type" *)
             match _adb_device self with
             | Some _ => backend env (AdbSendKeys text)
             | None => backend env (Typewrite text)
             end ;;;
             shot <~ screenshot env ;;
             ret (mkToolResult (Some text) None (base64_image shot)))%M
      end
  end.

Definition click_branch (env : Env) (action : string)
    (text : option string) (coordinate : option (list Z)) : M ToolResult :=
  match text with
  | Some _ => raise (ToolError ("text is not accepted for " ++ action))
  | None =>
      match coordinate with
      | Some _ => raise (ToolError ("coordinate is not accepted for " ++ action))
      | None =>
          if String.eqb action "screenshot" then screenshot env
          else if String.eqb action "cursor_position" then
            (self <~ get_self ;;
             ' (x, y) <~ match _adb_device self with
                         | Some _ => ret (_adb_mouse self)
                         | None => position_query env
                         end ;;
             ' (x, y) <~ scale COMPUTER x y ;;
             ret (mkToolResult (Some ("X=" ++ str_int x ++ ",Y=" ++ str_int y))
                    None None))%M
          else
            (self <~ get_self ;;
             (if String.eqb action "left_click" then
                match _adb_device self with
                | Some _ =>
                    let (x, y) := _adb_mouse self in
                    backend env (AdbShell ("input tap " ++ str_int x ++ " "
                                             ++ str_int y))
                | None => backend env Click
                end
              else if String.eqb action "right_click" then
                raise (ToolError "right_click not supported for ADB devices")
              else if String.eqb action "middle_click" then
                raise (ToolError "middle_click not supported for ADB devices")
              else if String.eqb action "double_click" then
                raise (ToolError "double_click not supported for ADB devices")
              else ret tt) ;;;
             ret (mkToolResult (Some ("Performed " ++ action)) None None))%M
      end
  end.

(** [await tool(action=..., text=..., coordinate=...)].  [text] is a [str]
    and [coordinate] a sequence of [int]s when present, so the two
    [isinstance] tests of the source always pass. *)
Definition call (env : Env) (action : string) (text : option string)
    (coordinate : option (list Z)) : M ToolResult :=
  if action_in action ["mouse_move"; "left_click_drag"]
  then coordinate_branch env action text coordinate
  else if action_in action ["key"; "type"]
  then text_branch env action text coordinate
  else if action_in action ["left_click"; "right_click"; "double_click";
                            "middle_click"; "screenshot"; "cursor_position"]
  then click_branch env action text coordinate
  else raise (ToolError ("Invalid action: " ++ action)).

(** ** [ComputerTool.__init__] *)

Definition init (selected_screen : Screen)
    (device_list : result (list AdbDevice)) : result ComputerTool :=
  let resolution := size selected_screen in
  let self device :=
    mkComputerTool (width resolution) (height resolution) 0 0 selected_screen
      true device (0, 0) None in
  match type_ selected_screen with
  | MONITOR => Ok (self None)
  | ADB =>
      devices <- device_list ;;
      match devices with
      | [] => Raise (RuntimeError "No Android devices found via ADB")
      | _ =>
          match name selected_screen with
          | None => Raise (RuntimeError "No Android device found with serial number None")
          | Some device_name =>
              match find (fun d => String.eqb (serialno d) device_name) devices with
              | Some d => Ok (self (Some (serialno d)))
              | None => Raise (RuntimeError ("No Android device found with serial number "
                                               ++ device_name))
              end
          end
      end
  end.

(** ** The argument contract of the specification *)

(** The per-action contract as the specification tabulates it: the two
    coordinate actions take a coordinate of two non-negative integers and
    no text, [key] and [type] take a text and no coordinate, the click
    variants, [screenshot] and [cursor_position] take neither, and any other
    action name is rejected. *)
Definition request_valid (action : string) (text : option string)
    (coordinate : option (list Z)) : bool :=
  if action_in action ["mouse_move"; "left_click_drag"] then
    match text, coordinate with
    | None, Some [x; y] => (0 <=? x) && (0 <=? y)
    | _, _ => false
    end
  else if action_in action ["key"; "type"] then
    match text, coordinate with
    | Some _, None => true
    | _, _ => false
    end
  else if action_in action ["left_click"; "right_click"; "double_click";
                            "middle_click"; "screenshot"; "cursor_position"] then
    match text, coordinate with
    | None, None => true
    | _, _ => false
    end
  else false.

(** ** Sessions used as examples *)

(** A tool bound to a native monitor of the given size, and one bound to
    an ADB device, as [init] builds them. *)
Definition native_screen (w h : Z) : Screen :=
  mkScreen 0 None MONITOR (mkResolution w h) (Some "Left") (Some "Primary").

Definition native_tool (w h : Z) : ComputerTool :=
  mkComputerTool w h 0 0 (native_screen w h) true None (0, 0) None.

Definition adb_screen (w h : Z) (serial : string) : Screen :=
  mkScreen 0 (Some serial) ADB (mkResolution w h) None None.

Definition adb_tool (w h : Z) (serial : string) : ComputerTool :=
  mkComputerTool w h 0 0 (adb_screen w h serial) true (Some serial) (0, 0) None.

(** A session that has made no call yet. *)
Definition start (self : ComputerTool) : St := mkSt self (mkWorld [] (0, 0)).

(** An environment in which every call goes through, and one in which
    pressing [shift] raises. *)
Definition quiet_env : Env :=
  mkEnv (fun _ => false) Windows (Ok [mkMonitor 0 0 1920 1080 true])
    (Ok (1920, 1080)) "./tmp/outputs/screenshot.png" true "iVBORw0KGgo=".

Definition shift_fails : Env :=
  mkEnv (fun c => match c with KeyDown "shift" => true | _ => false end)
    Windows (Ok [mkMonitor 0 0 1920 1080 true]) (Ok (1920, 1080))
    "./tmp/outputs/screenshot.png" true "iVBORw0KGgo=".

(** The two calls of the native [key] branch. *)
Definition key_down (key : string) : Call := KeyDown (convert_key key).
Definition key_up (key : string) : Call := KeyUp (convert_key key).

(** [k] is none of the keys [l]. *)
Definition not_among (l : list string) (k : string) : bool :=
  negb (existsb (String.eqb k) l).

(** ** The display registry, entry by entry *)

(** The layout role that the loop of [get_screen_details] gives to the
    entry at index [i] of [n] monitors. *)
Definition layout_at (n i : Z) : string :=
  if i =? 0 then "Left" else if i =? n - 1 then "Right" else "Center".

(** The order of [sorted(screens, key=lambda s: s.x)]. *)
Definition x_le (a b : Monitor) : Prop := m_x a <= m_x b.

Definition monitor_size (m : Monitor) : Resolution :=
  mkResolution (m_width m) (m_height m).

(** The registry entry of a remote device. *)
Definition adb_screen_of (d : AdbDevice) (s : Screen) : Prop :=
  exists w h,
    window_size d = Ok (w, h) /\
    s = mkScreen 0 (Some (serialno d)) ADB (mkResolution w h) None None.

(** ** Exact aspect ratios *)

(** The aspect ratio of a resolution as an exact rational, and the margin
    around the 0.02 tolerance within which the float test and the exact
    test may differ. *)
Definition aspect (w h : Z) : Q := (inject_Z w / inject_Z h)%Q.

Definition delta : Q := (1 # 1000000000000)%Q.

(** A bound on the error of one rounding of a value below [2^33]. *)
Definition tau2 : Q := (1 # 524288)%Q.

(** ** [ComputerTool.options] *)

(** The logical display size reported to the model,
    [scale_coordinates(ScalingSource.COMPUTER, self.width, self.height)],
    and the instance afterwards. *)
Definition options (self : ComputerTool) : result (Z * Z) * ComputerTool :=
  scale_coordinates self COMPUTER (self_width self) (self_height self).

(** The size of the image that [screenshot_from_monitor] saves: the
    capture is resized to [self.target_dimension], which is WXGA when the
    attribute was not yet set. *)
Definition saved_size (self : ComputerTool) : Resolution :=
  match target_dimension self with
  | Some d => d
  | None => WXGA
  end.

(** ** What a call may do to a session *)

(** The calls made on the [adbutils] device. *)
Definition is_adb_call (c : Call) : bool :=
  match c with
  | AdbSwipe _ _ _ _ | AdbShell _ | AdbSendKeys _ | AdbScreenshot => true
  | _ => false
  end.

(** [self._adb_device is not None]. *)
Definition is_remote (self : ComputerTool) : bool :=
  match _adb_device self with Some _ => true | None => false end.

(** The two tests of the backend agree: [selected_screen.type_ ==
    ScreenType.ADB], which [screenshot] uses, and [_adb_device is not
    None], which [__call__] uses. *)
Definition backends_agree (self : ComputerTool) : bool :=
  match type_ (selected_screen self) with
  | ADB => is_remote self
  | MONITOR => negb (is_remote self)
  end.

(** The attributes that bind an instance to its display. *)
Definition same_binding (a b : ComputerTool) : Prop :=
  self_width b = self_width a /\
  self_height b = self_height a /\
  selected_screen b = selected_screen a /\
  _adb_device b = _adb_device a /\
  _scaling_enabled b = _scaling_enabled a.

(** [target_dimension] is as before or has become an entry of the table. *)
Definition target_kept_or_entry (a b : ComputerTool) : Prop :=
  target_dimension b = target_dimension a \/
  exists d, target_dimension b = Some d /\ In d (map snd MAX_SCALING_TARGETS).

(** What a stretch of a session may do to its state: the binding stays,
    the target stays or becomes a table entry, the trace grows at its end,
    and when the two backend tests agree the new calls all go to the
    backend of the instance. *)
Definition extends (st st' : St) : Prop :=
  same_binding (tool st) (tool st') /\
  target_kept_or_entry (tool st) (tool st') /\
  exists new,
    trace (world st') = (trace (world st) ++ new)%list /\
    (backends_agree (tool st) = true ->
     Forall (fun c => is_adb_call c = is_remote (tool st)) new).

(** A computation all of whose runs from a state reached from [st0] end
    in a state reached from [st0]. *)
Definition keeps {A} (st0 : St) (m : M A) : Prop :=
  forall st, extends st0 st -> extends st0 (snd (m st)).

(** ** [ComputerTool.padding_image] *)

(** An image as [PIL] holds it: a size and a colour at each position
    within it. *)
Record Image : Type := mkImage {
  im_width : Z;
  im_height : Z;
  im_pixel : Z -> Z -> Z * Z * Z
}.

(** [Image.new("RGB", (w, h), color)]. *)
Definition Image_new (w h : Z) (color : Z * Z * Z) : Image :=
  mkImage w h (fun _ _ => color).

(** [canvas.paste(im, (left, upper))]: the pixels of [im] that fall on the
    canvas replace those of the canvas. *)
Definition paste (canvas im : Image) (box : Z * Z) : Image :=
  let (left, upper) := box in
  mkImage (im_width canvas) (im_height canvas)
    (fun x y =>
       if (left <=? x) && (x <? left + im_width im)
          && (upper <=? y) && (y <? upper + im_height im)
       then im_pixel im (x - left) (y - upper)
       else im_pixel canvas x y).

Definition padding_image (screenshot : Image) : Image :=
  let height := im_height screenshot in
  let new_width := height * 16 / 10 in
  let padding_image := Image_new new_width height (255, 255, 255) in
  paste padding_image screenshot (0, 0).

(** ** [chunks] *)

(** [count] elements of a [range] from [start] by [step]. *)
Fixpoint range_up (count : nat) (start step : Z) : list Z :=
  match count with
  | O => []
  | S count => start :: range_up count (start + step) step
  end.

(** [range(0, stop, step)]; [None] is the [ValueError] of a zero step. *)
Definition range0 (stop step : Z) : option (list Z) :=
  if step =? 0 then None
  else if step <? 0
       then Some (range_up (Z.to_nat ((- stop - step - 1) / (- step))) 0 step)
       else Some (range_up (Z.to_nat ((stop + step - 1) / step)) 0 step).

(** [s[a:b]], with the clamping of the indices of a slice. *)
Definition slice_index (len i : Z) : Z :=
  if i <? 0 then Z.max 0 (i + len) else Z.min i len.

Definition slice (s : string) (a b : Z) : string :=
  let len := Z.of_nat (String.length s) in
  let a := slice_index len a in
  let b := slice_index len b in
  substring (Z.to_nat a) (Z.to_nat (b - a)) s.

(** [chunks(s, chunk_size)]; [None] is the [ValueError] that [range]
    raises. *)
Definition chunks (s : string) (chunk_size : Z) : option (list string) :=
  match range0 (Z.of_nat (String.length s)) chunk_size with
  | None => None
  | Some starts => Some (map (fun i => slice s i (i + chunk_size)) starts)
  end.

(** * Properties *)

(** ** Facts on the binary64 rounding *)

Module FloatFacts.
Import Float.
Local Open Scope Q_scope.

Lemma pow2_pos e : 0 < pow2 e.
Proof. apply Qpower_0_lt. reflexivity. Qed.

Lemma pow2_add a b : pow2 (a + b) == pow2 a * pow2 b.
Proof. apply Qpower_plus. discriminate. Qed.

Lemma pow2_inv e : pow2 e * pow2 (- e) == 1.
Proof.
  rewrite <- pow2_add. replace (e + - e)%Z with 0%Z by lia. reflexivity.
Qed.

Lemma pow2_inject e : (0 <= e)%Z -> pow2 e == inject_Z (2 ^ e).
Proof. intros H. unfold pow2. rewrite Zpower_Qpower by assumption. reflexivity. Qed.

(** Rounding to an integer moves a value by at most one half. *)
Lemma round_half_even_err q :
  Qabs (inject_Z (round_half_even q) - q) <= 1 # 2.
Proof.
  unfold round_half_even.
  pose proof (Qfloor_le q) as Hlo.
  pose proof (Qlt_floor q) as Hhi.
  rewrite inject_Z_plus in Hhi. change (inject_Z 1) with 1 in Hhi.
  set (k := Qfloor q) in *.
  destruct (Qcompare_spec (q - inject_Z k) (1 # 2)) as [He | Hl | Hg].
  - destruct (Z.even k); [| rewrite inject_Z_plus; change (inject_Z 1) with 1];
      apply Qabs_case; intros; lra.
  - apply Qabs_case; intros; lra.
  - rewrite inject_Z_plus. change (inject_Z 1) with 1.
    apply Qabs_case; intros; lra.
Qed.

(** [ilog2] is the binade of its argument. *)
Lemma ilog2_le q : 0 < q -> pow2 (ilog2 q) <= q.
Proof.
  intros Hq. unfold ilog2.
  destruct (Qle_bool _ q) eqn:E.
  - now apply Qle_bool_iff.
  - clear E. destruct q as [n d]. cbn [Qnum Qden].
    assert (Hn : (0 < n)%Z).
    { unfold Qlt in Hq. cbn in Hq. lia. }
    pose proof (Z.log2_spec n Hn) as [Hn1 _].
    pose proof (Z.log2_spec (Z.pos d) (Pos2Z.is_pos d)) as [_ Hd2].
    pose proof (Z.log2_nonneg n) as Hln.
    pose proof (Z.log2_nonneg (Z.pos d)) as Hld.
    set (ln := Z.log2 n) in *. set (ld := Z.log2 (Z.pos d)) in *.
    replace (ln - ld - 1)%Z with (ln - (ld + 1))%Z by lia.
    unfold pow2. rewrite Qpower_minus by discriminate.
    fold (pow2 ln). fold (pow2 (ld + 1)).
    rewrite !pow2_inject by lia.
    replace (Z.succ ld) with (ld + 1)%Z in Hd2 by lia.
    assert (HB : (0 < 2 ^ (ld + 1))%Z) by (apply Z.pow_pos_nonneg; lia).
    set (A := (2 ^ ln)%Z) in *. set (B := (2 ^ (ld + 1))%Z) in *.
    apply Qle_shift_div_r.
    + replace 0 with (inject_Z 0) by reflexivity. rewrite <- Zlt_Qlt. exact HB.
    + unfold Qle, Qmult, inject_Z. cbn. nia.
Qed.

Lemma ilog2_lt q : 0 < q -> q < pow2 (ilog2 q + 1).
Proof.
  intros Hq. unfold ilog2.
  destruct (Qle_bool _ q) eqn:E.
  - clear E. destruct q as [n d]. cbn [Qnum Qden].
    assert (Hn : (0 < n)%Z).
    { unfold Qlt in Hq. cbn in Hq. lia. }
    pose proof (Z.log2_spec n Hn) as [_ Hn2].
    pose proof (Z.log2_spec (Z.pos d) (Pos2Z.is_pos d)) as [Hd1 _].
    pose proof (Z.log2_nonneg n) as Hln.
    pose proof (Z.log2_nonneg (Z.pos d)) as Hld.
    set (ln := Z.log2 n) in *. set (ld := Z.log2 (Z.pos d)) in *.
    replace (ln - ld + 1)%Z with (ln + 1 - ld)%Z by lia.
    unfold pow2. rewrite Qpower_minus by discriminate.
    fold (pow2 (ln + 1)). fold (pow2 ld).
    rewrite !pow2_inject by lia.
    replace (Z.succ ln) with (ln + 1)%Z in Hn2 by lia.
    assert (HB : (0 < 2 ^ ld)%Z) by (apply Z.pow_pos_nonneg; lia).
    set (A := (2 ^ (ln + 1))%Z) in *. set (B := (2 ^ ld)%Z) in *.
    apply Qlt_shift_div_l.
    + replace 0 with (inject_Z 0) by reflexivity. rewrite <- Zlt_Qlt. exact HB.
    + unfold Qlt, Qmult, inject_Z. cbn. nia.
  - match goal with |- q < pow2 (?e - 1 + 1) => replace (e - 1 + 1)%Z with e by lia end.
    apply Qnot_le_lt. intros H. apply Qle_bool_iff in H. congruence.
Qed.

(** The grid spacing around [q]. *)
Lemma ulp_le q : ~ q == 0 -> pow2 (ulp_exp q) <= Qabs q * (2 * eps) + 2 * eta.
Proof.
  intros Hq. unfold ulp_exp.
  assert (Ha : 0 < Qabs q).
  { apply Qabs_case; intros H; destruct (Qlt_le_dec 0 q); try lra;
      destruct (Qlt_le_dec q 0); try lra; exfalso; apply Hq; lra. }
  pose proof (ilog2_le _ Ha) as Hl.
  pose proof (pow2_pos (-1075)) as He. fold eta in He.
  pose proof (pow2_pos (-53)) as He'. fold eps in He'.
  destruct (Z.max_spec (ilog2 (Qabs q) - 52) (-1074)) as [[_ ->] | [_ ->]].
  - change (-1074)%Z with (1 + -1075)%Z. rewrite pow2_add. fold eta.
    change (pow2 1) with 2. nra.
  - replace (ilog2 (Qabs q) - 52)%Z with (ilog2 (Qabs q) + (1 + -53))%Z by lia.
    rewrite !pow2_add. fold eps. change (pow2 1) with 2. nra.
Qed.

(** The error of one rounding: relative [2^-53], or half the subnormal
    spacing. *)
Lemma fl_round_err q : Qabs (fl_round q - q) <= Qabs q * eps + eta.
Proof.
  unfold fl_round.
  pose proof (pow2_pos (-1075)) as He. fold eta in He.
  pose proof (pow2_pos (-53)) as He'. fold eps in He'.
  pose proof (Qabs_nonneg q) as Hq0.
  destruct (Qeq_bool q 0) eqn:E.
  - apply Qeq_bool_iff in E. rewrite E. cbn [Qabs].
    setoid_replace (0 - 0) with 0 by ring. change (Qabs 0) with 0. nra.
  - assert (Hq : ~ q == 0).
    { intros H. apply Qeq_bool_iff in H. congruence. }
    pose proof (ulp_le q Hq) as Hu.
    set (ex := ulp_exp q) in *.
    pose proof (round_half_even_err (q * pow2 (- ex))) as Hr.
    set (m := inject_Z (round_half_even (q * pow2 (- ex)))) in *.
    pose proof (pow2_pos ex) as Hp.
    pose proof (pow2_inv ex) as Hi.
    assert (Hd : m * pow2 ex - q == (m - q * pow2 (- ex)) * pow2 ex).
    { setoid_replace q with (q * (pow2 ex * pow2 (- ex))) at 1
        by (rewrite Hi; ring). ring. }
    rewrite Hd, Qabs_Qmult, (Qabs_pos (pow2 ex)) by lra.
    pose proof (Qabs_nonneg (m - q * pow2 (- ex))).
    nra.
Qed.

(** Numeric values of the two error terms. *)
Lemma eps_val : eps == 1 # 9007199254740992.
Proof. vm_compute. reflexivity. Qed.

Lemma eta_le : eta <= 1 # (2 ^ 1000).
Proof. apply Qle_bool_iff. vm_compute. reflexivity. Qed.

Lemma eta_pos : 0 < eta.
Proof. apply pow2_pos. Qed.

(** Below [2^1000] nothing overflows. *)
Lemma fl_finite q :
  Qabs q <= inject_Z (2 ^ 1000) -> fl q = Fin (fl_round q).
Proof.
  intros Hq. unfold fl.
  replace (Qle_bool (Qabs (fl_round q)) fl_max) with true; [reflexivity |].
  symmetry. apply Qle_bool_iff.
  pose proof (fl_round_err q) as He.
  pose proof eps_val as Hv. pose proof eta_le as Ht.
  pose proof (Qabs_nonneg q) as Hn.
  assert (Hm : inject_Z (2 ^ 1000) * 2 + 1 <= fl_max).
  { apply Qle_bool_iff. vm_compute. reflexivity. }
  assert (Hb : Qabs q * eps <= Qabs q).
  { rewrite Hv. generalize dependent (Qabs q). intros A _ _ HA. lra. }
  assert (Ht' : eta <= 1).
  { eapply Qle_trans; [exact Ht |]. apply Qle_bool_iff. reflexivity. }
  apply Qabs_Qle_condition in He.
  apply Qabs_Qle_condition.
  pose proof (Qle_Qabs q) as Hq1.
  pose proof (Qle_Qabs (- q)) as Hq2. rewrite Qabs_opp in Hq2.
  set (B := inject_Z (2 ^ 1000)) in *. set (A := Qabs q) in *.
  set (E := A * eps) in *.
  split; lra.
Qed.

Lemma fl_round_near q :
  Qabs q <= inject_Z (2 ^ 14) -> Qabs (fl_round q - q) <= tau.
Proof.
  intros Hq. pose proof (fl_round_err q) as He.
  pose proof eps_val as Hv. pose proof eta_le as Ht.
  pose proof (Qabs_nonneg q) as Hn.
  eapply Qle_trans; [exact He |]. rewrite Hv.
  assert (H2 : 16384 * (1 # 9007199254740992) + (1 # 2 ^ 1000) <= tau).
  { apply Qle_bool_iff. vm_compute. reflexivity. }
  change (inject_Z (2 ^ 14)) with 16384 in Hq.
  set (C := 1 # 2 ^ 1000) in *. set (A := Qabs q) in *.
  set (T := tau) in *.
  lra.
Qed.

(** One rounding of a value below [2^14]. *)
Lemma fl_small q :
  - (16384) <= q <= 16384 ->
  fl q = Fin (fl_round q) /\ q - tau <= fl_round q <= q + tau.
Proof.
  intros Hq. split.
  - apply fl_finite. apply Qabs_Qle_condition.
    assert (H : 16384 <= inject_Z (2 ^ 1000)).
    { apply Qle_bool_iff. vm_compute. reflexivity. }
    set (B := inject_Z (2 ^ 1000)) in *. split; lra.
  - assert (H : Qabs q <= inject_Z (2 ^ 14)).
    { apply Qabs_Qle_condition. change (inject_Z (2 ^ 14)) with 16384. lra. }
    apply fl_round_near in H. apply Qabs_Qle_condition in H.
    unfold tau in *. lra.
Qed.

Lemma Q_of_Z_lt a b : inject_Z a < inject_Z b + 1 -> (a <= b)%Z.
Proof.
  intros H. change 1 with (inject_Z 1) in H. rewrite <- inject_Z_plus in H.
  rewrite <- Zlt_Qlt in H. lia.
Qed.

(** Order facts on injected integers, by unfolding to [Z]. *)
Ltac q2z :=
  unfold Qle, Qlt, Qminus, Qplus, Qmult, Qopp, inject_Z; cbn [Qnum Qden]; lia.

Lemma eps_half : eps <= 1 # 2.
Proof. rewrite eps_val. apply Qle_bool_iff. reflexivity. Qed.

(** Relative accuracy on the non-negative range without overflow. *)
Lemma fl_nonneg q :
  0 <= q <= inject_Z (2 ^ 1000) ->
  fl q = Fin (fl_round q) /\ q * (1 # 2) - eta <= fl_round q <= q * 2 + eta.
Proof.
  intros Hq. split.
  - apply fl_finite. destruct Hq as [Hq0 Hq1]. rewrite Qabs_pos; assumption.
  - pose proof (fl_round_err q) as He.
    rewrite (Qabs_pos q) in He by (destruct Hq; assumption).
    apply Qabs_Qle_condition in He. pose proof eps_half as Hh.
    pose proof (pow2_pos (-53)) as Hp. fold eps in Hp.
    destruct Hq as [Hq _].
    generalize dependent eps. generalize eta (fl_round q).
    intros et r e He Hh Hp.
    assert (Hm : 0 <= q * ((1 # 2) - e)) by (apply Qmult_le_0_compat; lra).
    assert (Hm' : 0 <= q * e) by (apply Qmult_le_0_compat; lra).
    split; lra.
Qed.

(** Quotients of integers between 1 and [2^64]. *)
Lemma int_truediv_bounds (a b : Z) :
  (0 < a <= 2 ^ 64)%Z -> (0 < b <= 2 ^ 64)%Z ->
  exists r, int_truediv a b = Ok r /\ inv66 <= r <= two66.
Proof.
  intros Ha Hb.
  set (aq := inject_Z a). set (bq := inject_Z b).
  assert (Haq : 1 <= aq <= two64) by (unfold aq, two64; split; q2z).
  assert (Hbq : 1 <= bq <= two64) by (unfold bq, two64; split; q2z).
  set (q := aq / bq).
  assert (Hq : q * bq == aq) by (unfold q; field; lra).
  assert (Hq0 : 0 <= q).
  { unfold q. apply Qle_shift_div_l; lra. }
  assert (Hqb : (1 # 18446744073709551616) <= q <= two64).
  { assert (H1 : 0 <= q * (bq - 1)) by (apply Qmult_le_0_compat; lra).
    assert (H2 : 0 <= q * (two64 - bq)) by (apply Qmult_le_0_compat; lra).
    unfold two64 in *. split; lra. }
  assert (HB : two64 <= inject_Z (2 ^ 1000)).
  { apply Qle_bool_iff. vm_compute. reflexivity. }
  destruct (fl_nonneg q) as [E Hr].
  { set (B := inject_Z (2 ^ 1000)) in *. lra. }
  exists (fl_round q). split.
  - unfold int_truediv.
    replace (b =? 0)%Z with false by (symmetry; apply Z.eqb_neq; lia).
    fold aq bq. fold q. rewrite E. reflexivity.
  - pose proof eta_le as Ht. pose proof eta_pos as Ht0.
    assert (Ht1 : (1 # 2 ^ 1000) <= inv66).
    { apply Qle_bool_iff. vm_compute. reflexivity. }
    set (C := 1 # 2 ^ 1000) in *. clearbody C.
    set (B := inject_Z (2 ^ 1000)) in *. clearbody B.
    unfold two64, two66, inv66 in *. split; lra.
Qed.

(** [x / s] for [x] up to [2^64] and a factor [s] not below [2^-66]. *)
Lemma int_div_float_ok (x : Z) (s : Q) :
  (0 <= x <= 2 ^ 64)%Z -> inv66 <= s ->
  exists q, int_div_float x s = Ok (Fin q).
Proof.
  intros Hx Hs.
  set (xq := inject_Z x).
  assert (Hxq : 0 <= xq <= two64) by (unfold xq, two64; split; q2z).
  assert (HB : two64 <= inject_Z (2 ^ 1000)).
  { apply Qle_bool_iff. vm_compute. reflexivity. }
  destruct (fl_nonneg xq) as [Ex Hfx].
  { set (B := inject_Z (2 ^ 1000)) in *. lra. }
  set (fx := fl_round xq) in *.
  assert (Hsnz : Qeq_bool s 0 = false).
  { destruct (Qeq_bool s 0) eqn:E; [| reflexivity].
    apply Qeq_bool_iff in E. unfold inv66 in *. lra. }
  set (Q0 := fx / s).
  assert (HQ0 : Q0 * s == fx) by (unfold Q0; field; unfold inv66 in *; lra).
  pose proof eta_le as Ht. pose proof eta_pos as Ht0.
  assert (Ht1 : (1 # 2 ^ 1000) <= 1).
  { apply Qle_bool_iff. vm_compute. reflexivity. }
  assert (Hfxb : -1 <= fx <= two66).
  { unfold two64, two66 in *. set (C := 1 # 2 ^ 1000) in *. clearbody C.
    split; lra. }
  assert (HQb : - (two66 * two66) <= Q0 <= two66 * two66).
  { destruct (Qlt_le_dec Q0 0) as [Hneg | Hpos].
    - assert (H1 : 0 <= (- Q0) * (s - inv66)) by (apply Qmult_le_0_compat; lra).
      unfold two66, inv66 in *. split; lra.
    - assert (H1 : 0 <= Q0 * (s - inv66)) by (apply Qmult_le_0_compat; lra).
      unfold two66, inv66 in *. split; lra. }
  assert (HBB : two66 * two66 <= inject_Z (2 ^ 1000)).
  { apply Qle_bool_iff. vm_compute. reflexivity. }
  exists (fl_round Q0). unfold int_div_float, float_of_int.
  fold xq. rewrite Ex. cbn [bind]. fold fx. rewrite Hsnz. fold Q0.
  rewrite fl_finite; [reflexivity |].
  apply Qabs_Qle_condition. set (B := inject_Z (2 ^ 1000)) in *. clearbody B.
  set (T := two66 * two66) in *. clearbody T. split; lra.
Qed.

(** No arithmetic step raises a [ToolError]. *)
Lemma int_truediv_not_tool a b m : int_truediv a b <> Raise (ToolError m).
Proof.
  unfold int_truediv. destruct (b =? 0)%Z; [discriminate |].
  destruct (fl _); discriminate.
Qed.

Lemma float_of_int_not_tool n m : float_of_int n <> Raise (ToolError m).
Proof. unfold float_of_int. destruct (fl _); discriminate. Qed.

Lemma int_div_float_not_tool n f m : int_div_float n f <> Raise (ToolError m).
Proof.
  unfold int_div_float. pose proof (float_of_int_not_tool n m).
  destruct (float_of_int n); cbn [bind]; [| congruence].
  destruct (Qeq_bool f 0); discriminate.
Qed.

Lemma int_mul_float_not_tool n f m : int_mul_float n f <> Raise (ToolError m).
Proof.
  unfold int_mul_float. pose proof (float_of_int_not_tool n m).
  destruct (float_of_int n); cbn [bind]; [discriminate | congruence].
Qed.

Lemma py_round_not_tool f m : py_round f <> Raise (ToolError m).
Proof. destruct f; discriminate. Qed.

(** The model agrees with the Standard Library's specification of binary64
    division, multiplication and subtraction on sample operands, normal,
    subnormal and beyond 53 bits. *)
Example div_agrees :
  spec_value (SFdiv 53 1024 (b64 1366) (b64 1920)) == fl_round (1366 # 1920) /\
  spec_value (SFdiv 53 1024 (b64 1024) (b64 768)) == fl_round (1024 # 768) /\
  spec_value (SFdiv 53 1024 (b64 768) (b64 2880)) == fl_round (768 # 2880) /\
  spec_value (SFdiv 53 1024 (b64 1) (b64 50)) == fl_round (1 # 50) /\
  spec_value (SFdiv 53 1024 (b64 1) (b64 (2 ^ 1070))) == fl_round (1 # (2 ^ 1070)) /\
  spec_value (SFdiv 53 1024 (b64 3) (b64 (2 ^ 1073))) == fl_round (3 # (2 ^ 1073)) /\
  spec_value (SFdiv 53 1024 (b64 (2 ^ 80 + 1)) (b64 3)) == fl_round (Z.pos (2 ^ 80 + 1) # 3).
Proof. repeat split; vm_compute; reflexivity. Qed.

Example mul_sub_agree :
  let s := SFdiv 53 1024 (b64 1366) (b64 1920) in
  let r := SFdiv 53 1024 (b64 1024) (b64 768) in
  spec_value (SFmul 53 1024 (b64 13) s) == fl_round (13 * spec_value s) /\
  spec_value (SFdiv 53 1024 (b64 683) s) == fl_round (683 / spec_value s) /\
  spec_value (SFsub 53 1024 r s) == fl_round (spec_value r - spec_value s).
Proof. cbv zeta. repeat split; vm_compute; reflexivity. Qed.

End FloatFacts.

(** ** The coordinate scaler *)

Module ScalerFacts.
Import Float FloatFacts.
Local Open Scope Q_scope.

(** The entries' ratios, as the loop computes them. *)
Lemma truediv_XGA : int_truediv 1024 768 = Ok r_XGA.
Proof. vm_compute. reflexivity. Qed.

Lemma truediv_WXGA : int_truediv 1280 800 = Ok r_WXGA.
Proof. vm_compute. reflexivity. Qed.

Lemma truediv_FWXGA : int_truediv 1366 768 = Ok r_FWXGA.
Proof. vm_compute. reflexivity. Qed.

(** A ratio that passes the float test is really close to the entry's. *)
Lemma tolerance_window r ratio :
  within_tolerance r ratio = true -> Qabs (r - ratio) <= 3 # 100.
Proof.
  unfold within_tolerance, float_sub, fl.
  pose proof (fl_round_err (r - ratio)) as He.
  destruct (Qle_bool (Qabs (fl_round (r - ratio))) fl_max);
    unfold float_abs, float_lt; [| discriminate].
  intros H. apply negb_true_iff in H.
  assert (Hlt : Qabs (fl_round (r - ratio)) < float_lit (2 # 100)).
  { apply Qnot_le_lt. intros Hle. apply Qle_bool_iff in Hle. congruence. }
  assert (Hc : float_lit (2 # 100) <= 21 # 1000).
  { apply Qle_bool_iff. vm_compute. reflexivity. }
  pose proof eps_val as Hv. pose proof eta_le as Ht.
  assert (Ht' : (1 # 2 ^ 1000) <= 1 # 1000).
  { apply Qle_bool_iff. vm_compute. reflexivity. }
  pose proof (Qabs_triangle_reverse (r - ratio) (r - ratio - fl_round (r - ratio))) as Htr.
  setoid_replace (r - ratio - (r - ratio - fl_round (r - ratio)))
    with (fl_round (r - ratio)) in Htr by ring.
  rewrite (Qabs_Qminus (r - ratio)) in Htr.
  rewrite Hv in He.
  set (c := float_lit (2 # 100)) in *. set (C := 1 # 2 ^ 1000) in *.
  set (D := Qabs (r - ratio)) in *.
  set (F := Qabs (fl_round (r - ratio))) in *.
  set (G := Qabs (fl_round (r - ratio) - (r - ratio))) in *.
  lra.
Qed.

(** The three tolerance windows are pairwise disjoint. *)
Lemma windows_disjoint r r' ratio :
  6 # 100 < Qabs (r - r') ->
  within_tolerance r ratio = true -> within_tolerance r' ratio = false.
Proof.
  intros Hgap H. destruct (within_tolerance r' ratio) eqn:H'; [| reflexivity].
  apply tolerance_window in H, H'.
  exfalso. apply Qabs_Qle_condition in H, H'.
  revert Hgap. apply Qabs_case; intros; lra.
Qed.

Lemma gap_XGA_WXGA : 6 # 100 < Qabs (r_XGA - r_WXGA).
Proof. vm_compute. reflexivity. Qed.

Lemma gap_XGA_FWXGA : 6 # 100 < Qabs (r_XGA - r_FWXGA).
Proof. vm_compute. reflexivity. Qed.

Lemma gap_WXGA_FWXGA : 6 # 100 < Qabs (r_WXGA - r_FWXGA).
Proof. vm_compute. reflexivity. Qed.

Lemma gap_sym a b : 6 # 100 < Qabs (a - b) -> 6 # 100 < Qabs (b - a).
Proof. now rewrite (Qabs_Qminus b a). Qed.

(** The loop and the fall-back, unrolled over the table. *)
Lemma select_target_unrolled w h ratio :
  int_truediv w h = Ok ratio ->
  select_target w h =
    if within_tolerance r_XGA ratio then
      if (1024 <? w)%Z then Ok XGA else Ok WXGA
    else if within_tolerance r_WXGA ratio then Ok WXGA
    else if within_tolerance r_FWXGA ratio then
      if (1366 <? w)%Z then Ok FWXGA else Ok WXGA
    else Ok WXGA.
Proof.
  intros Hr. unfold select_target, MAX_SCALING_TARGETS. rewrite Hr.
  cbn [bind scan_targets width height].
  rewrite truediv_XGA, truediv_WXGA, truediv_FWXGA. cbn [bind].
  destruct (within_tolerance r_XGA ratio).
  { destruct (1024 <? w)%Z; reflexivity. }
  destruct (within_tolerance r_WXGA ratio).
  { destruct (1280 <? w)%Z; reflexivity. }
  destruct (within_tolerance r_FWXGA ratio).
  { destruct (1366 <? w)%Z; reflexivity. }
  reflexivity.
Qed.

Lemma entry_matches_XGA w h ratio :
  int_truediv w h = Ok ratio ->
  entry_matches XGA w h = within_tolerance r_XGA ratio.
Proof. intros H. unfold entry_matches. rewrite H. reflexivity. Qed.

Lemma entry_matches_WXGA w h ratio :
  int_truediv w h = Ok ratio ->
  entry_matches WXGA w h = within_tolerance r_WXGA ratio.
Proof. intros H. unfold entry_matches. rewrite H. reflexivity. Qed.

Lemma entry_matches_FWXGA w h ratio :
  int_truediv w h = Ok ratio ->
  entry_matches FWXGA w h = within_tolerance r_FWXGA ratio.
Proof. intros H. unfold entry_matches. rewrite H. reflexivity. Qed.

(** C1, as stated, fails: at 1024x768 the XGA entry has the native aspect
    ratio and the native width is not below its width, yet the loop breaks
    without assigning it and the fall-back WXGA is selected. *)
Lemma select_target_equal_width_counterexample :
  entry_matches XGA 1024 768 = true /\
  (1024 >= width XGA)%Z /\
  In ("XGA"%string, XGA) MAX_SCALING_TARGETS /\
  select_target 1024 768 = Ok WXGA /\
  select_target 1024 768 <> Ok XGA.
Proof.
  assert (H : select_target 1024 768 = Ok WXGA) by (vm_compute; reflexivity).
  split; [vm_compute; reflexivity |].
  split; [cbn; lia |].
  split; [left; reflexivity |].
  split; [exact H |].
  rewrite H. discriminate.
Qed.

(** C1, amended: for every native resolution [w] x [h] whose aspect ratio
    is within the tolerance of a table entry's and whose width is strictly
    greater than that entry's width, the scan selects that entry (the
    tolerance windows of the three entries are disjoint, so it is the first
    and only match); for every resolution for which no entry passes both
    tests, WXGA is selected. *)
Theorem select_target_strict_width w h ratio :
  int_truediv w h = Ok ratio ->
  (forall entry_name dimension,
      In (entry_name, dimension) MAX_SCALING_TARGETS ->
      entry_matches dimension w h = true ->
      (width dimension < w)%Z ->
      select_target w h = Ok dimension) /\
  ((forall entry_name dimension,
       In (entry_name, dimension) MAX_SCALING_TARGETS ->
       entry_matches dimension w h = true ->
       (w <= width dimension)%Z) ->
   select_target w h = Ok WXGA).
Proof.
  intros Hr. rewrite (select_target_unrolled w h ratio Hr). split.
  - intros entry_name dimension Hin Hm Hw.
    destruct Hin as [E | [E | [E | []]]]; injection E as _ <-.
    + fold XGA in Hm. rewrite (entry_matches_XGA _ _ _ Hr) in Hm. rewrite Hm.
      cbn [width] in Hw. apply Z.ltb_lt in Hw. rewrite Hw. reflexivity.
    + fold WXGA in Hm. rewrite (entry_matches_WXGA _ _ _ Hr) in Hm.
      rewrite (windows_disjoint _ _ _ (gap_sym _ _ gap_XGA_WXGA) Hm), Hm.
      reflexivity.
    + fold FWXGA in Hm. rewrite (entry_matches_FWXGA _ _ _ Hr) in Hm.
      rewrite (windows_disjoint _ _ _ (gap_sym _ _ gap_XGA_FWXGA) Hm).
      rewrite (windows_disjoint _ _ _ (gap_sym _ _ gap_WXGA_FWXGA) Hm), Hm.
      cbn [width] in Hw. apply Z.ltb_lt in Hw. rewrite Hw. reflexivity.
  - intros Hno.
    destruct (within_tolerance r_XGA ratio) eqn:H1.
    { rewrite <- (entry_matches_XGA _ _ _ Hr) in H1.
      apply (Hno "XGA"%string) in H1; [| left; reflexivity].
      cbn [width XGA] in H1. apply Z.ltb_ge in H1. rewrite H1. reflexivity. }
    destruct (within_tolerance r_WXGA ratio) eqn:H2; [reflexivity |].
    destruct (within_tolerance r_FWXGA ratio) eqn:H3; [| reflexivity].
    rewrite <- (entry_matches_FWXGA _ _ _ Hr) in H3.
    apply (Hno "FWXGA"%string) in H3; [| right; right; left; reflexivity].
    cbn [width FWXGA] in H3. apply Z.ltb_ge in H3. rewrite H3. reflexivity.
Qed.

(** C1, amended, at 1920x1080 (FWXGA is selected) and at 800x600 (no
    entry passes both tests). *)
Lemma select_target_strict_width_witness :
  int_truediv 1920 1080 = Ok (fl_round (1920 # 1080)) /\
  select_target 1920 1080 = Ok FWXGA /\
  select_target 800 600 = Ok WXGA.
Proof.
  assert (H1 : int_truediv 1920 1080 = Ok (fl_round (1920 # 1080)))
    by (vm_compute; reflexivity).
  assert (H2 : int_truediv 800 600 = Ok (fl_round (800 # 600)))
    by (vm_compute; reflexivity).
  split; [exact H1 |]. split.
  - apply (proj1 (select_target_strict_width 1920 1080 _ H1) "FWXGA"%string).
    + right; right; left; reflexivity.
    + vm_compute. reflexivity.
    + cbn. lia.
  - apply (proj2 (select_target_strict_width 800 600 _ H2)).
    intros entry_name dimension Hin Hm.
    destruct Hin as [E | [E | [E | []]]]; injection E as _ <-;
      try (cbn; lia); exfalso; revert Hm; vm_compute; discriminate.
Defined.

(** One axis, there and back: target size [t], native size [n] with
    [t <= n < 3 t], native coordinate [x].  The logical coordinate stays
    within [t], and the native coordinate is recovered within one unit:
    the first rounding moves [x * t / n] by at most 1/2, which the inverse
    factor [n / t < 3] turns into less than 3/2, and the second rounding
    adds at most 1/2. *)
Lemma axis_roundtrip (t n x : Z) :
  (0 < t <= 1366)%Z -> (t <= n <= 3 * t - 1)%Z -> (0 <= x <= n)%Z ->
  exists s p q,
    int_truediv t n = Ok s /\
    int_mul_float x s = Ok (Fin p) /\
    (0 <= round_half_even p <= t)%Z /\
    int_div_float (round_half_even p) s = Ok (Fin q) /\
    (Z.abs (round_half_even q - x) <= 1)%Z.
Proof.
  intros Ht Hn Hx.
  set (tq := inject_Z t). set (nq := inject_Z n). set (xq := inject_Z x).
  assert (Htq : 0 < tq <= 1366).
  { unfold tq. split; q2z. }
  assert (Hnq : tq <= nq <= 3 * tq - 1).
  { unfold tq, nq. split; q2z. }
  assert (Hxq : 0 <= xq <= nq).
  { unfold xq, nq. split; q2z. }
  set (s0 := tq / nq).
  assert (Hs0 : s0 * nq == tq).
  { unfold s0. field. lra. }
  assert (Hs0b : 4099 # 12294 <= s0 <= 1).
  { split; nra. }
  destruct (fl_small s0) as [Es Hs]; [lra |].
  set (s := fl_round s0) in *.
  assert (Etd : int_truediv t n = Ok s).
  { unfold int_truediv. replace (n =? 0)%Z with false by (symmetry; apply Z.eqb_neq; lia).
    fold tq nq. fold s0. rewrite Es. reflexivity. }
  (* int -> float of x *)
  destruct (fl_small xq) as [Ex Hfx]; [lra |].
  set (fx := fl_round xq) in *.
  assert (Efx : float_of_int x = Ok fx).
  { unfold float_of_int. fold xq. rewrite Ex. reflexivity. }
  (* the product *)
  assert (HP : - tau * 4100 <= fx * s - xq * s0 <= tau * 4100).
  { unfold tau in *. split; nra. }
  assert (Hxs0 : 0 <= xq * s0 <= tq).
  { split; nra. }
  destruct (fl_small (fx * s)) as [Ep Hp]; [unfold tau in *; lra |].
  set (p := fl_round (fx * s)) in *.
  assert (Emul : int_mul_float x s = Ok (Fin p)).
  { unfold int_mul_float. rewrite Efx. cbn [bind]. rewrite Ep. reflexivity. }
  pose proof (round_half_even_err p) as HX. apply Qabs_Qle_condition in HX.
  set (X := round_half_even p) in *. set (Xq := inject_Z X) in *.
  assert (HXZ : (0 <= X <= t)%Z).
  { split.
    - assert (H : inject_Z (-1) < Xq) by (change (inject_Z (-1)) with (-1); unfold tau in *; lra).
      unfold Xq in H. rewrite <- Zlt_Qlt in H. lia.
    - apply Q_of_Z_lt. fold Xq tq. unfold tau in *. lra. }
  assert (HXq : 0 <= Xq <= tq).
  { unfold Xq, tq. split; q2z. }
  (* back *)
  destruct (fl_small Xq) as [EX HfX]; [lra |].
  set (fX := fl_round Xq) in *.
  assert (EfX : float_of_int X = Ok fX).
  { unfold float_of_int. fold Xq. rewrite EX. reflexivity. }
  assert (Hspos : 1 # 4 <= s) by (unfold tau in *; lra).
  assert (Hsnz : Qeq_bool s 0 = false).
  { destruct (Qeq_bool s 0) eqn:E; [| reflexivity].
    apply Qeq_bool_iff in E. lra. }
  set (Q0 := fX / s).
  assert (HQ0 : Q0 * s == fX).
  { unfold Q0. field. lra. }
  assert (HQ0x : - ((1 # 2) + 4101 * tau) <= (Q0 - xq) * s <= (1 # 2) + 4101 * tau).
  { unfold tau in *. split; nra. }
  assert (HQ0b : - ((3 # 2) - (1 # 10000)) <= Q0 - xq <= (3 # 2) - (1 # 10000)).
  { unfold tau in *. split; nra. }
  destruct (fl_small Q0) as [Eq Hq]; [lra |].
  set (q := fl_round Q0) in *.
  assert (Ediv : int_div_float X s = Ok (Fin q)).
  { unfold int_div_float. rewrite EfX. cbn [bind]. rewrite Hsnz.
    change (fX / s) with Q0. rewrite Eq. reflexivity. }
  pose proof (round_half_even_err q) as Hx'. apply Qabs_Qle_condition in Hx'.
  exists s, p, q. repeat (split; [assumption |]).
  fold X. set (x' := round_half_even q) in *.
  assert (H1 : inject_Z (x' - x) < inject_Z 2).
  { unfold Z.sub. rewrite inject_Z_plus, inject_Z_opp. fold xq. change (inject_Z 2) with 2.
    unfold tau in *. lra. }
  assert (H2 : inject_Z (-2) < inject_Z (x' - x)).
  { unfold Z.sub. rewrite inject_Z_plus, inject_Z_opp. fold xq. change (inject_Z (-2)) with (-2).
    unfold tau in *. lra. }
  rewrite <- Zlt_Qlt in H1, H2. lia.
Qed.

Local Open Scope Z_scope.

(** The two cases of the first test of [scale_coordinates]. *)
Lemma scale_coordinates_disabled self source x y :
  _scaling_enabled self = false ->
  scale_coordinates self source x y = (Ok (x, y), self).
Proof. intros H. unfold scale_coordinates. rewrite H. reflexivity. Qed.

Lemma scale_coordinates_enabled self source x y target :
  _scaling_enabled self = true ->
  select_target (self_width self) (self_height self) = Ok target ->
  scale_coordinates self source x y =
    (scale_with target (self_width self) (self_height self) source x y,
     set_target_dimension self target).
Proof. intros H Ht. unfold scale_coordinates. rewrite H, Ht. reflexivity. Qed.

(** The target is always one of the three entries. *)
Lemma select_target_in_table w h target :
  select_target w h = Ok target ->
  target = XGA \/ target = WXGA \/ target = FWXGA.
Proof.
  intros H. destruct (int_truediv w h) as [ratio |] eqn:Hr.
  - rewrite (select_target_unrolled w h ratio Hr) in H.
    repeat match type of H with
           | (if ?b then _ else _) = _ => destruct b
           end; injection H as <-; auto.
  - unfold select_target in H. rewrite Hr in H. discriminate.
Qed.

(** C3, as stated, fails.  On a 5120x2880 display (target FWXGA, factor
    about 0.267) the in-bounds native coordinate (13, 13) becomes the
    logical (3, 3), which converts back to (11, 11): two units off on each
    axis.  On an 800x600 display (fall-back WXGA, wider than the display)
    the in-bounds native coordinate (799, 0) becomes the logical (1278, 0),
    which the way back rejects as out of bounds. *)
Lemma roundtrip_counterexample :
  let self := native_tool 5120 2880 in
  let self' := set_target_dimension self FWXGA in
  let small := native_tool 800 600 in
  let small' := set_target_dimension small WXGA in
  (0 <= 13 < self_width self) /\ (0 <= 13 < self_height self) /\
  scale_coordinates self COMPUTER 13 13 = (Ok (3, 3), self') /\
  scale_coordinates self' API 3 3 = (Ok (11, 11), self') /\
  Z.abs (11 - 13) > 1 /\
  (0 <= 799 < self_width small) /\ (0 <= 0 < self_height small) /\
  scale_coordinates small COMPUTER 799 0 = (Ok (1278, 0), small') /\
  scale_coordinates small' API 1278 0
    = (Raise (ToolError (out_of_bounds_message 1278 0)), small').
Proof.
  cbv zeta. split; [cbn; lia |]. split; [cbn; lia |].
  split; [vm_compute; reflexivity |].
  split; [vm_compute; reflexivity |].
  split; [reflexivity |].
  split; [cbn; lia |]. split; [cbn; lia |].
  split; vm_compute; reflexivity.
Qed.

(** There and back on both axes, under the hypotheses on the sizes. *)
Lemma roundtrip_scaled self x y target :
  select_target (self_width self) (self_height self) = Ok target ->
  width target <= self_width self < 3 * width target ->
  height target <= self_height self < 3 * height target ->
  0 <= x < self_width self ->
  0 <= y < self_height self ->
  exists lx ly self' x' y' self'',
    scale_coordinates self COMPUTER x y = (Ok (lx, ly), self') /\
    scale_coordinates self' API lx ly = (Ok (x', y'), self'') /\
    Z.abs (x' - x) <= 1 /\ Z.abs (y' - y) <= 1.
Proof.
  intros Ht Hw Hh Hx Hy.
  destruct (_scaling_enabled self) eqn:En.
  2:{ exists x, y, self, x, y, self.
      rewrite !scale_coordinates_disabled by assumption.
      repeat split; lia. }
  assert (Hdim : 0 < width target <= 1366 /\ 0 < height target <= 1366).
  { destruct (select_target_in_table _ _ _ Ht) as [-> | [-> | ->]]; cbn; lia. }
  destruct Hdim as [Hdw Hdh].
  destruct (axis_roundtrip (width target) (self_width self) x)
    as (sx & px & qx & Esx & Emx & HX & Edx & Hrx); [lia | lia | lia |].
  destruct (axis_roundtrip (height target) (self_height self) y)
    as (sy & py & qy & Esy & Emy & HY & Edy & Hry); [lia | lia | lia |].
  set (self' := set_target_dimension self target).
  exists (round_half_even px), (round_half_even py), self',
    (round_half_even qx), (round_half_even qy), self'.
  split; [| split; [| split; assumption]].
  - rewrite (scale_coordinates_enabled self _ _ _ target En Ht).
    unfold scale_with. rewrite Esx, Esy. cbn [bind].
    rewrite Emx, Emy. reflexivity.
  - rewrite (scale_coordinates_enabled self' _ _ _ target En Ht).
    cbn [self' set_target_dimension self_width self_height].
    unfold scale_with. rewrite Esx, Esy. cbn [bind].
    replace (round_half_even px >? self_width self) with false
      by (symmetry; rewrite Z.gtb_ltb; apply Z.ltb_ge; lia).
    replace (round_half_even py >? self_height self) with false
      by (symmetry; rewrite Z.gtb_ltb; apply Z.ltb_ge; lia).
    cbn [orb]. rewrite Edx, Edy. reflexivity.
Qed.

(** C3, amended: when the selected target is no larger than the display
    and the display is less than three times the target on each axis,
    every in-bounds native coordinate converted to logical space and back
    is recovered within one unit on each axis; and with scaling disabled,
    on any display and for any coordinate, both conversions return the
    coordinate as it is, so that the round trip is exact. *)
Theorem roundtrip_within_one self x y target :
  (select_target (self_width self) (self_height self) = Ok target ->
   width target <= self_width self < 3 * width target ->
   height target <= self_height self < 3 * height target ->
   0 <= x < self_width self ->
   0 <= y < self_height self ->
   exists lx ly self' x' y' self'',
     scale_coordinates self COMPUTER x y = (Ok (lx, ly), self') /\
     scale_coordinates self' API lx ly = (Ok (x', y'), self'') /\
     Z.abs (x' - x) <= 1 /\ Z.abs (y' - y) <= 1) /\
  (_scaling_enabled self = false ->
   exists lx ly self' self'',
     scale_coordinates self COMPUTER x y = (Ok (lx, ly), self') /\
     scale_coordinates self' API lx ly = (Ok (x, y), self'')).
Proof.
  split; [apply roundtrip_scaled |].
  intros En. exists x, y, self, self.
  now rewrite !scale_coordinates_disabled by assumption.
Qed.

(** C3, amended, on a 1920x1080 display at the native coordinate
    (100, 200), and on an 800x600 display with scaling disabled at
    (799, 0). *)
Lemma roundtrip_within_one_witness :
  (exists lx ly self' x' y' self'',
     scale_coordinates (native_tool 1920 1080) COMPUTER 100 200
       = (Ok (lx, ly), self') /\
     scale_coordinates self' API lx ly = (Ok (x', y'), self'') /\
     Z.abs (x' - 100) <= 1 /\ Z.abs (y' - 200) <= 1) /\
  (exists lx ly self' self'',
     scale_coordinates
       (mkComputerTool 800 600 0 0 (native_screen 800 600) false None (0, 0) None)
       COMPUTER 799 0 = (Ok (lx, ly), self') /\
     scale_coordinates self' API lx ly = (Ok (799, 0), self'')).
Proof.
  assert (Ht : select_target (self_width (native_tool 1920 1080))
                 (self_height (native_tool 1920 1080)) = Ok FWXGA)
    by (vm_compute; reflexivity).
  split.
  - apply (proj1 (roundtrip_within_one (native_tool 1920 1080) 100 200 FWXGA) Ht);
      cbn [self_width self_height native_tool width height FWXGA]; lia.
  - exact (proj2 (roundtrip_within_one
                    (mkComputerTool 800 600 0 0 (native_screen 800 600) false
                       None (0, 0) None) 799 0 WXGA) eq_refl).
Defined.

Local Open Scope Z_scope.

(** On a display whose sides are between 1 and [2^64] the selection and
    the two factors are computed without an arithmetic error. *)
Lemma select_target_ok w h :
  0 < w <= 2 ^ 64 -> 0 < h <= 2 ^ 64 ->
  exists target,
    select_target w h = Ok target /\
    (target = XGA \/ target = WXGA \/ target = FWXGA).
Proof.
  intros Hw Hh.
  destruct (int_truediv_bounds w h Hw Hh) as (ratio & Hr & _).
  destruct (select_target w h) as [target | e] eqn:E.
  - exists target. split; [reflexivity |].
    now apply (select_target_in_table w h).
  - exfalso. rewrite (select_target_unrolled w h ratio Hr) in E.
    repeat match type of E with
           | (if ?b then _ else _) = _ => destruct b
           end; discriminate.
Qed.

Lemma table_dims target :
  target = XGA \/ target = WXGA \/ target = FWXGA ->
  0 < width target <= 2 ^ 64 /\ 0 < height target <= 2 ^ 64.
Proof. intros [-> | [-> | ->]]; cbn; lia. Qed.

Lemma scaling_factors target w h :
  target = XGA \/ target = WXGA \/ target = FWXGA ->
  0 < w <= 2 ^ 64 -> 0 < h <= 2 ^ 64 ->
  exists sx sy,
    int_truediv (width target) w = Ok sx /\
    int_truediv (height target) h = Ok sy /\
    (inv66 <= sx)%Q /\ (inv66 <= sy)%Q.
Proof.
  intros Ht Hw Hh. destruct (table_dims target Ht) as [Htw Hth].
  destruct (int_truediv_bounds _ _ Htw Hw) as (sx & Ex & Hsx & _).
  destruct (int_truediv_bounds _ _ Hth Hh) as (sy & Ey & Hsy & _).
  exists sx, sy. auto.
Qed.

(** The two outcomes of the bounds test of the [API] direction. *)
Lemma scale_with_out_of_bounds target w h x y :
  target = XGA \/ target = WXGA \/ target = FWXGA ->
  0 < w <= 2 ^ 64 -> 0 < h <= 2 ^ 64 ->
  x > w \/ y > h ->
  scale_with target w h API x y = Raise (ToolError (out_of_bounds_message x y)).
Proof.
  intros Ht Hw Hh Hxy.
  destruct (scaling_factors target w h Ht Hw Hh) as (sx & sy & Ex & Ey & _).
  unfold scale_with. rewrite Ex, Ey. cbn [bind].
  replace ((x >? w) || (y >? h))%bool with true; [reflexivity |].
  symmetry. apply orb_true_iff. rewrite !Z.gtb_ltb, !Z.ltb_lt. lia.
Qed.

Lemma scale_with_in_bounds target w h x y :
  target = XGA \/ target = WXGA \/ target = FWXGA ->
  0 < w <= 2 ^ 64 -> 0 < h <= 2 ^ 64 ->
  0 <= x <= w -> 0 <= y <= h ->
  exists x' y', scale_with target w h API x y = Ok (x', y').
Proof.
  intros Ht Hw Hh Hx Hy.
  destruct (scaling_factors target w h Ht Hw Hh)
    as (sx & sy & Ex & Ey & Hsx & Hsy).
  destruct (int_div_float_ok x sx) as (qx & Eqx); [lia | assumption |].
  destruct (int_div_float_ok y sy) as (qy & Eqy); [lia | assumption |].
  exists (round_half_even qx), (round_half_even qy).
  unfold scale_with. rewrite Ex, Ey. cbn [bind].
  replace ((x >? w) || (y >? h))%bool with false.
  - rewrite Eqx, Eqy. reflexivity.
  - symmetry. apply orb_false_iff. rewrite !Z.gtb_ltb, !Z.ltb_ge. lia.
Qed.

(** A [ToolError] can only come from the bounds test. *)
Lemma select_target_not_tool w h m : select_target w h <> Raise (ToolError m).
Proof.
  destruct (int_truediv w h) as [ratio |] eqn:Hr.
  - rewrite (select_target_unrolled w h ratio Hr).
    repeat match goal with
           | |- (if ?b then _ else _) <> _ => destruct b
           end; discriminate.
  - unfold select_target. rewrite Hr. cbn [bind].
    intros H. injection H as ->. exact (int_truediv_not_tool _ _ _ Hr).
Qed.

Ltac step_not_tool :=
  match goal with
  | |- context [bind ?r _] =>
      let H := fresh in
      let E := fresh "E" in
      destruct r eqn:E; cbn [bind];
      [| intros H; injection H as ->; exfalso;
         first [ exact (int_truediv_not_tool _ _ _ E)
               | exact (int_div_float_not_tool _ _ _ E)
               | exact (int_mul_float_not_tool _ _ _ E)
               | exact (py_round_not_tool _ _ E) ] ]
  end.

Lemma scale_with_tool_error target w h source x y m :
  scale_with target w h source x y = Raise (ToolError m) ->
  source = API /\ (x > w \/ y > h) /\ m = out_of_bounds_message x y.
Proof.
  unfold scale_with.
  step_not_tool. step_not_tool.
  destruct source.
  - repeat step_not_tool. discriminate.
  - destruct ((x >? w) || (y >? h))%bool eqn:Hc.
    + intros H. injection H as <-. split; [reflexivity |]. split; [| reflexivity].
      apply orb_true_iff in Hc. rewrite !Z.gtb_ltb, !Z.ltb_lt in Hc. lia.
    + repeat step_not_tool. discriminate.
Qed.

(** C5, as stated, fails: on a 1920x1080 display (target FWXGA) the
    logical coordinate (1500, 0) passes the check, which compares it with
    the native bounds, and is converted to the native coordinate (2108, 0),
    beyond the native width; no error is raised. *)
Lemma out_of_bounds_on_result_counterexample :
  let self := native_tool 1920 1080 in
  scale_coordinates self API 1500 0
    = (Ok (2108, 0), set_target_dimension self FWXGA) /\
  2108 > self_width self.
Proof. cbv zeta. split; [vm_compute; reflexivity | cbn; lia]. Qed.

(** C5, amended: with scaling enabled, on a display whose sides are
    positive and at most 2^64, the conversion of a non-negative logical
    coordinate to native space fails with the out-of-bounds error exactly
    when the logical coordinate itself exceeds the native width or height
    (the test is on the input, before the inversion); otherwise it
    succeeds, whatever the resulting native coordinate is; in particular
    it succeeds at (native width - 1, native height - 1). *)
Theorem api_bounds_checked_on_input self x y :
  _scaling_enabled self = true ->
  0 < self_width self <= 2 ^ 64 ->
  0 < self_height self <= 2 ^ 64 ->
  0 <= x -> 0 <= y ->
  (x > self_width self \/ y > self_height self ->
   fst (scale_coordinates self API x y)
     = Raise (ToolError (out_of_bounds_message x y))) /\
  (x <= self_width self -> y <= self_height self ->
   exists x' y', fst (scale_coordinates self API x y) = Ok (x', y')) /\
  (exists x' y',
     fst (scale_coordinates self API (self_width self - 1) (self_height self - 1))
       = Ok (x', y')).
Proof.
  intros En Hw Hh Hx Hy.
  destruct (select_target_ok _ _ Hw Hh) as (target & Et & Hin).
  split; [| split].
  - intros Hout. rewrite (scale_coordinates_enabled self _ _ _ target En Et).
    cbn [fst]. now apply scale_with_out_of_bounds.
  - intros Hxw Hyh. rewrite (scale_coordinates_enabled self _ _ _ target En Et).
    cbn [fst]. apply scale_with_in_bounds; auto; lia.
  - rewrite (scale_coordinates_enabled self _ _ _ target En Et).
    cbn [fst]. apply scale_with_in_bounds; auto; lia.
Qed.

(** C5, amended, on a 1920x1080 display: (1921, 0) is rejected and the
    boundary coordinate (1919, 1079) is converted. *)
Lemma api_bounds_checked_on_input_witness :
  fst (scale_coordinates (native_tool 1920 1080) API 1921 0)
    = Raise (ToolError (out_of_bounds_message 1921 0)) /\
  exists x' y',
    fst (scale_coordinates (native_tool 1920 1080) API (1920 - 1) (1080 - 1))
      = Ok (x', y').
Proof.
  assert (Hw : 0 < self_width (native_tool 1920 1080) <= 2 ^ 64)
    by (cbn; lia).
  assert (Hh : 0 < self_height (native_tool 1920 1080) <= 2 ^ 64)
    by (cbn; lia).
  destruct (api_bounds_checked_on_input (native_tool 1920 1080) 1921 0
              eq_refl Hw Hh ltac:(lia) ltac:(lia)) as (H1 & _ & H3).
  split; [apply H1; left; cbn [self_width native_tool]; lia | exact H3].
Defined.

(** C10: with scaling disabled the coordinates are returned unchanged for
    both directions, whatever they are; and, on a display whose sides are
    positive and at most 2^64, the call raises a [ToolError] (the
    out-of-bounds error) exactly when scaling is enabled, the source is
    [API], and [x] exceeds the native width or [y] the native height. *)
Theorem out_of_bounds_iff self source x y :
  (_scaling_enabled self = false ->
   scale_coordinates self source x y = (Ok (x, y), self)) /\
  (0 < self_width self <= 2 ^ 64 ->
   0 < self_height self <= 2 ^ 64 ->
   ((exists message,
       fst (scale_coordinates self source x y) = Raise (ToolError message))
    <->
    (_scaling_enabled self = true /\ source = API /\
     (x > self_width self \/ y > self_height self)))).
Proof.
  split; [apply scale_coordinates_disabled |].
  intros Hw Hh. split.
  - intros [message H]. unfold scale_coordinates in H.
    destruct (_scaling_enabled self); cbn [negb] in H; [| discriminate].
    split; [reflexivity |].
    destruct (select_target (self_width self) (self_height self)) eqn:Et;
      cbn [fst] in H.
    + apply scale_with_tool_error in H. tauto.
    + injection H as ->. destruct (select_target_not_tool _ _ _ Et).
  - intros (En & -> & Hout).
    destruct (select_target_ok _ _ Hw Hh) as (target & Et & Hin).
    exists (out_of_bounds_message x y).
    rewrite (scale_coordinates_enabled self _ _ _ target En Et).
    cbn [fst]. now apply scale_with_out_of_bounds.
Qed.

(** C10 on a 1920x1080 display with the logical coordinate (2000, 0). *)
Lemma out_of_bounds_iff_witness :
  (exists message,
      fst (scale_coordinates (native_tool 1920 1080) API 2000 0)
        = Raise (ToolError message)) <->
  (_scaling_enabled (native_tool 1920 1080) = true /\ API = API /\
   (2000 > self_width (native_tool 1920 1080)
    \/ 0 > self_height (native_tool 1920 1080))).
Proof.
  apply (proj2 (out_of_bounds_iff (native_tool 1920 1080) API 2000 0));
    cbn [self_width self_height native_tool]; lia.
Defined.

End ScalerFacts.

(** ** The action dispatcher *)

Module DispatcherFacts.
Import Float.
Local Open Scope string_scope.
Local Open Scope Z_scope.

(** The fixtures are what [init] builds: no device and scaling enabled for
    a monitor, the device found by its serial number and the pointer at
    (0, 0) for an ADB screen. *)
Example init_native_tool w h devices :
  init (native_screen w h) devices = Ok (native_tool w h).
Proof. reflexivity. Qed.

Example init_adb_tool w h :
  init (adb_screen w h "emulator-5554")
    (Ok [mkAdbDevice "emulator-5554" (Ok (w, h))])
    = Ok (adb_tool w h "emulator-5554").
Proof. reflexivity. Qed.

(** The sibling branch [left_click] does look at the backend: a click on
    the native one, a tap at the tracked pointer on the remote one. *)
Example left_click_by_backend :
  call quiet_env "left_click" None None (start (native_tool 1920 1080))
    = (Ok (mkToolResult (Some "Performed left_click") None None),
       mkSt (native_tool 1920 1080) (mkWorld [Click] (0, 0))) /\
  call quiet_env "left_click" None None (start (adb_tool 1080 1920 "emulator-5554"))
    = (Ok (mkToolResult (Some "Performed left_click") None None),
       mkSt (adb_tool 1080 1920 "emulator-5554")
         (mkWorld [AdbShell "input tap 0 0"] (0, 0))).
Proof. split; reflexivity. Qed.

(** C2: the code at [right_click], [middle_click] and [double_click] with
    neither text nor coordinate.  The three branches raise the
    not-supported-for-ADB error without looking at the backend, so the call
    fails in every state, the native backend included, and leaves the state
    as it was. *)
Theorem click_variants_raise_on_every_backend env st :
  call env "right_click" None None st
    = (Raise (ToolError "right_click not supported for ADB devices"), st) /\
  call env "middle_click" None None st
    = (Raise (ToolError "middle_click not supported for ADB devices"), st) /\
  call env "double_click" None None st
    = (Raise (ToolError "double_click not supported for ADB devices"), st) /\
  _adb_device (native_tool 1920 1080) = None /\
  fst (call env "right_click" None None (start (native_tool 1920 1080)))
    = Raise (ToolError "right_click not supported for ADB devices").
Proof. repeat split. Qed.

(** A request outside the contract is rejected with a [ToolError] before
    anything is called or written. *)
Lemma invalid_request_rejected env action text coordinate st :
  request_valid action text coordinate = false ->
  exists message,
    call env action text coordinate st = (Raise (ToolError message), st).
Proof.
  unfold request_valid, call. intros H.
  destruct (action_in action ["mouse_move"; "left_click_drag"]).
  { unfold coordinate_branch.
    destruct coordinate as [c |]; [| eexists; reflexivity].
    destruct text; [eexists; reflexivity |].
    destruct c as [| c0 [| c1 [| c2 c]]]; try (eexists; reflexivity).
    cbn [forallb]. rewrite andb_true_r, H. eexists; reflexivity. }
  destruct (action_in action ["key"; "type"]).
  { unfold text_branch.
    destruct text; [| eexists; reflexivity].
    destruct coordinate; [eexists; reflexivity | discriminate]. }
  destruct (action_in action _).
  { unfold click_branch.
    destruct text; [eexists; reflexivity |].
    destruct coordinate; [eexists; reflexivity | discriminate]. }
  eexists; reflexivity.
Qed.

(** The [key] action on the native backend: all the key-downs, then the
    key-ups in reverse order, then the confirmation. *)
Lemma call_key_native env text st :
  _adb_device (tool st) = None ->
  call env "key" (Some text) None st =
    ((for_each (split "+" text) (fun key => backend env (key_down key)) ;;;
      for_each (rev (split "+" text)) (fun key => backend env (key_up key))) ;;;
     ret (mkToolResult (Some ("Pressed keys: " ++ text)) None None))%M st.
Proof.
  intros H. change (call env "key" (Some text) None st)
    with (text_branch env "key" (Some text) None st).
  unfold text_branch, mbind at 1, get_self. rewrite H. reflexivity.
Qed.

(** A loop of calls that only extend the trace: it runs to the end when
    no call raises, and stops at the first call that does. *)
Section ForEach.

Variable env : Env.
Variable f : string -> Call.
Hypothesis f_log :
  forall a w, perform (f a) w = mkWorld (trace w ++ [f a]) (cursor w).

Lemma for_each_ok l : forall st,
  (forall a, In a l -> call_fails env (f a) = false) ->
  for_each l (fun a => backend env (f a)) st =
    (Ok tt, mkSt (tool st) (mkWorld (trace (world st) ++ map f l) (cursor (world st)))).
Proof.
  induction l as [| a l IH]; intros st Hl.
  - cbn. rewrite app_nil_r. destruct st as [t [tr c]]. reflexivity.
  - cbn [for_each]. unfold mbind, backend at 1.
    rewrite (Hl a (or_introl eq_refl)).
    rewrite IH by (intros b Hb; apply Hl; right; exact Hb).
    cbn [tool world]. rewrite f_log. cbn [trace cursor map].
    rewrite <- app_assoc. reflexivity.
Qed.

Lemma for_each_fail pre a post : forall st,
  (forall b, In b pre -> call_fails env (f b) = false) ->
  call_fails env (f a) = true ->
  for_each (pre ++ a :: post) (fun a => backend env (f a)) st =
    (Raise (BackendError (call_name (f a))),
     mkSt (tool st) (mkWorld (trace (world st) ++ map f pre) (cursor (world st)))).
Proof.
  induction pre as [| b pre IH]; intros st Hpre Ha.
  - cbn [app for_each map]. unfold mbind, backend. rewrite Ha.
    rewrite app_nil_r. destruct st as [t [tr c]]. reflexivity.
  - cbn [app for_each]. unfold mbind, backend at 1.
    rewrite (Hpre b (or_introl eq_refl)).
    rewrite IH by (try (intros b' Hb; apply Hpre; right); assumption).
    cbn [tool world]. rewrite f_log. cbn [trace cursor map].
    rewrite <- app_assoc. reflexivity.
Qed.

End ForEach.

Lemma key_down_log a w :
  perform (key_down a) w = mkWorld (trace w ++ [key_down a]) (cursor w).
Proof. reflexivity. Qed.

Lemma key_up_log a w :
  perform (key_up a) w = mkWorld (trace w ++ [key_up a]) (cursor w).
Proof. reflexivity. Qed.

(** The keys held after a trace: key-downs only add keys, and releasing in
    reverse order everything that was pressed leaves what was held
    before, minus those keys. *)
Lemma remove_key_filter k h :
  remove_key k h = filter (fun k' => negb (String.eqb k k')) h.
Proof.
  induction h as [| a h IH]; [reflexivity |].
  cbn. destruct (String.eqb k a); cbn; rewrite IH; reflexivity.
Qed.

Lemma held_keys_app t1 t2 :
  held_keys (t1 ++ t2) = fold_left held_after t2 (held_keys t1).
Proof. unfold held_keys. apply fold_left_app. Qed.

Lemma in_held_after_down k k' h :
  In k h -> In k (held_after h (KeyDown k')).
Proof.
  intros H. cbn. rewrite remove_key_filter. apply in_or_app.
  destruct (String.eqb k' k) eqn:E.
  - apply String.eqb_eq in E. subst. right. left. reflexivity.
  - left. apply filter_In. rewrite E. auto.
Qed.

Lemma downs_keep k l : forall h,
  In k h -> In k (fold_left held_after (map KeyDown l) h).
Proof.
  induction l as [| a l IH]; intros h H; [exact H |].
  cbn [map fold_left]. apply IH. now apply in_held_after_down.
Qed.

Lemma downs_hold k l : forall h,
  In k l -> In k (fold_left held_after (map KeyDown l) h).
Proof.
  induction l as [| a l IH]; intros h H; [destruct H |].
  cbn [map fold_left]. destruct H as [<- | H].
  - apply downs_keep. cbn. apply in_or_app. right. left. reflexivity.
  - now apply IH.
Qed.

Lemma release_after_scan a l h :
  remove_key a (filter (not_among l) (remove_key a h ++ [a]))
    = filter (not_among (a :: l)) h.
Proof.
  induction h as [| b h IH].
  - cbn. destruct (not_among l a); cbn; rewrite ?String.eqb_refl; reflexivity.
  - cbn [remove_key filter].
    assert (Hb : not_among (a :: l) b
                 = if String.eqb a b then false else not_among l b).
    { unfold not_among. cbn [existsb]. rewrite (String.eqb_sym b a).
      destruct (String.eqb a b); reflexivity. }
    rewrite Hb. destruct (String.eqb a b) eqn:E.
    + exact IH.
    + cbn [app filter].
      destruct (not_among l b); cbn [remove_key]; rewrite ?E, IH; reflexivity.
Qed.

Lemma balanced_releases l : forall h,
  fold_left held_after (map KeyDown l ++ map KeyUp (rev l)) h =
    filter (not_among l) h.
Proof.
  induction l as [| a l IH]; intros h.
  - cbn. induction h as [| b h IHh]; [reflexivity |]. cbn. now rewrite <- IHh.
  - cbn [map rev]. rewrite map_app. cbn [map].
    rewrite <- app_comm_cons, app_assoc. cbn [fold_left].
    rewrite fold_left_app, IH. cbn [fold_left held_after].
    apply release_after_scan.
Qed.

Lemma balanced_from_nothing l :
  fold_left held_after (map KeyDown l ++ map KeyUp (rev l)) [] = [].
Proof. rewrite balanced_releases. reflexivity. Qed.

(** C4, as stated, fails: for [ctrl+shift+t] on the native backend, when
    pressing [shift] raises after [ctrl] went down, the error is surfaced
    with no key-up issued and [ctrl] is still held. *)
Lemma key_combination_counterexample :
  let st := start (native_tool 1920 1080) in
  let st' := snd (call shift_fails "key" (Some "ctrl+shift+t") None st) in
  call_fails shift_fails (KeyDown "ctrl") = false /\
  call_fails shift_fails (KeyDown "shift") = true /\
  fst (call shift_fails "key" (Some "ctrl+shift+t") None st)
    = Raise (BackendError "pyautogui.keyDown") /\
  trace (world st') = [KeyDown "ctrl"] /\
  held_keys (trace (world st')) = ["ctrl"].
Proof. cbv zeta. repeat split. Qed.

(** C4, amended: on the native backend the keys of a combination are
    pressed in order and then released in reverse order, so that when no
    call raises and nothing was held before, nothing is held afterwards;
    when pressing a later key raises after earlier keys went down, the
    error is surfaced at once, no key is released, and every key pressed so
    far is still held. *)
Theorem key_combination_without_release env st text :
  _adb_device (tool st) = None ->
  (forall pre key post,
      split "+" text = (pre ++ key :: post)%list ->
      (forall k, In k pre -> call_fails env (key_down k) = false) ->
      call_fails env (key_down key) = true ->
      exists st',
        call env "key" (Some text) None st
          = (Raise (BackendError "pyautogui.keyDown"), st') /\
        trace (world st') = (trace (world st) ++ map key_down pre)%list /\
        (forall k, In k pre -> In (convert_key k) (held_keys (trace (world st'))))) /\
  ((forall c, call_fails env c = false) ->
   exists st',
     call env "key" (Some text) None st
       = (Ok (mkToolResult (Some ("Pressed keys: " ++ text)) None None), st') /\
     trace (world st')
       = (trace (world st) ++ map key_down (split "+" text)
            ++ map key_up (rev (split "+" text)))%list /\
     (held_keys (trace (world st)) = [] -> held_keys (trace (world st')) = [])).
Proof.
  intros Hn. split.
  - intros pre key post Hs Hpre Hkey.
    rewrite (call_key_native env text st Hn), Hs.
    unfold mbind at 1 2.
    rewrite (for_each_fail env key_down key_down_log pre key post st Hpre Hkey).
    eexists. split; [reflexivity |]. cbn [world trace]. split; [reflexivity |].
    intros k Hk. rewrite held_keys_app.
    unfold key_down. rewrite <- (map_map convert_key KeyDown).
    apply downs_hold. now apply in_map.
  - intros Hok.
    rewrite (call_key_native env text st Hn).
    unfold mbind at 1 2.
    rewrite (for_each_ok env key_down key_down_log) by (intros; apply Hok).
    rewrite (for_each_ok env key_up key_up_log) by (intros; apply Hok).
    eexists. split; [reflexivity |]. cbn [world trace tool cursor].
    rewrite <- app_assoc. split; [reflexivity |].
    intros H0. rewrite held_keys_app, H0.
    unfold key_down, key_up.
    rewrite <- (map_map convert_key KeyDown), <- (map_map convert_key KeyUp).
    rewrite map_rev. apply balanced_from_nothing.
Qed.

(** C4, amended, for [ctrl+shift+t] with [shift] failing. *)
Lemma key_combination_without_release_witness :
  exists st',
    call shift_fails "key" (Some "ctrl+shift+t") None (start (native_tool 1920 1080))
      = (Raise (BackendError "pyautogui.keyDown"), st') /\
    trace (world st') = ([] ++ map key_down ["ctrl"])%list /\
    (forall k, In k ["ctrl"] -> In (convert_key k) (held_keys (trace (world st')))).
Proof.
  apply (proj1 (key_combination_without_release shift_fails
                  (start (native_tool 1920 1080)) "ctrl+shift+t" eq_refl)
           ["ctrl"] "shift" ["t"]).
  - reflexivity.
  - intros k [<- | []]. reflexivity.
  - reflexivity.
Defined.

(** C6: the code at a valid [left_click_drag] to the logical coordinate
    (100, 200) on a 1080x1920 ADB device whose pointer is at (0, 0).  The
    swipe from (0, 0) to the scaled target (84, 480) is issued and the
    tracked pointer moves there, but the call then raises
    [UnboundLocalError]: the confirmation message reads [current_x], which
    only the native branch assigns. *)
Theorem adb_drag_raises_after_swipe :
  let st := start (adb_tool 1080 1920 "emulator-5554") in
  let r := call quiet_env "left_click_drag" None (Some [100; 200]) st in
  fst r = Raise (UnboundLocalError "current_x") /\
  trace (world (snd r)) = [AdbSwipe 0 0 84 480] /\
  _adb_mouse (tool (snd r)) = (84, 480) /\
  fst (scale_coordinates (tool st) API 100 200) = Ok (84, 480).
Proof. cbv zeta. repeat split; vm_compute; reflexivity. Qed.

(** The same for every valid drag on the remote backend. *)
Lemma adb_drag_general env st serial c0 c1 x y self' start_x start_y :
  _adb_device (tool st) = Some serial ->
  _adb_mouse (tool st) = (start_x, start_y) ->
  0 <= c0 -> 0 <= c1 ->
  scale_coordinates (tool st) API c0 c1 = (Ok (x, y), self') ->
  call_fails env
    (AdbSwipe start_x start_y (x + offset_x self') (y + offset_y self')) = false ->
  call env "left_click_drag" None (Some [c0; c1]) st
    = (Raise (UnboundLocalError "current_x"),
       mkSt (set_adb_mouse self' (x + offset_x self', y + offset_y self'))
         (mkWorld
            (trace (world st)
               ++ [AdbSwipe start_x start_y (x + offset_x self')
                     (y + offset_y self')])
            (cursor (world st)))).
Proof.
  intros Hd Hm H0 H1 Hs Hf.
  change (call env "left_click_drag" None (Some [c0; c1]) st)
    with (coordinate_branch env "left_click_drag" None (Some [c0; c1]) st).
  unfold coordinate_branch. cbn [forallb].
  apply Z.leb_le in H0, H1. rewrite H0, H1. cbn [andb negb].
  unfold mbind at 1, scale. rewrite Hs.
  assert (Hd' : _adb_device self' = Some serial /\ _adb_mouse self' = (start_x, start_y)).
  { unfold scale_coordinates in Hs.
    destruct (negb (_scaling_enabled (tool st))).
    - injection Hs as _ _ <-. auto.
    - destruct (select_target _ _); injection Hs as _ <-; auto. }
  destruct Hd' as [Hd' Hm'].
  unfold mbind at 1, get_self. cbn [tool].
  change (String.eqb "left_click_drag" "mouse_move") with false. cbv iota.
  rewrite Hd', Hm'.
  unfold mbind, backend. cbn [tool world]. rewrite Hf.
  reflexivity.
Qed.

(** C7: [mouse_move] without a coordinate and [left_click] with a
    coordinate are rejected with a [ToolError] naming the field,
    [screenshot] with neither field passes the validation and goes to the
    capture, and every request outside the contract is rejected with the
    state (tool attributes, tracked pointer, trace of backend calls)
    exactly as it was. *)
Theorem argument_validation env st :
  (forall text,
      call env "mouse_move" text None st
        = (Raise (ToolError "coordinate is required for mouse_move"), st)) /\
  (forall c,
      call env "left_click" None (Some c) st
        = (Raise (ToolError "coordinate is not accepted for left_click"), st)) /\
  (forall text c,
      call env "left_click" (Some text) (Some c) st
        = (Raise (ToolError "text is not accepted for left_click"), st)) /\
  request_valid "screenshot" None None = true /\
  call env "screenshot" None None st = screenshot env st /\
  (forall action text coordinate,
      request_valid action text coordinate = false ->
      exists message,
        call env action text coordinate st = (Raise (ToolError message), st)).
Proof.
  split; [reflexivity |].
  split; [reflexivity |].
  split; [reflexivity |].
  split; [reflexivity |].
  split; [reflexivity |].
  intros action text coordinate. apply invalid_request_rejected.
Qed.

(** C7 at a [left_click_drag] with a negative component. *)
Lemma argument_validation_witness :
  exists message,
    call quiet_env "left_click_drag" None (Some [3; -1]) (start (native_tool 1920 1080))
      = (Raise (ToolError message), start (native_tool 1920 1080)).
Proof.
  apply (proj2 (proj2 (proj2 (proj2 (proj2
           (argument_validation quiet_env (start (native_tool 1920 1080)))))))).
  reflexivity.
Defined.

End DispatcherFacts.

(** ** The display registry *)

Module RegistryFacts.
Local Open Scope string_scope.
Local Open Scope Z_scope.

(** C8, as stated, fails: a single monitor that the OS does not report as
    primary yields one Display with role Left that is marked Secondary. *)
Lemma single_monitor_secondary_counterexample :
  let m := mkMonitor 0 0 1920 1080 false in
  get_screen_details (Ok [m]) (Ok [])
    = Ok ([mkScreen 0 None MONITOR (mkResolution 1920 1080) (Some "Left")
             (Some "Secondary")], 0).
Proof. reflexivity. Qed.

(** Three monitors already in ascending order stay in that order. *)
Lemma sorted_three a b c :
  m_x a <= m_x b <= m_x c -> sorted_by_x [a; b; c] = [a; b; c].
Proof.
  intros [Hab Hbc]. cbn.
  apply Z.leb_le in Hab, Hbc. rewrite Hbc. cbn. rewrite Hab. reflexivity.
Qed.

(** C8, amended: with exactly one native monitor the native part of the
    result is exactly one Display, at index 0 with role Left, marked
    Primary when the OS reports the monitor as primary and Secondary
    otherwise, and the returned primary index is 0 in both cases; the
    remote devices, if any, follow it, so with none the result is that one
    Display.  With three monitors at ascending x-positions the Displays are
    those monitors in that order with roles Left, Center, Right. *)
Theorem layout_roles :
  (forall m device_list,
      get_screen_details (Ok [m]) device_list
        = with_remote [monitor_screen 0 m "Left"] 0 device_list) /\
  (forall m,
      get_screen_details (Ok [m]) (Ok []) = Ok ([monitor_screen 0 m "Left"], 0)) /\
  (forall a b c device_list,
      m_x a <= m_x b <= m_x c ->
      get_screen_details (Ok [a; b; c]) device_list
        = with_remote [monitor_screen 0 a "Left"; monitor_screen 1 b "Center";
                       monitor_screen 2 c "Right"]
            (if is_primary c then 2 else if is_primary b then 1 else 0)
            device_list).
Proof.
  split; [| split].
  - intros m device_list.
    unfold get_screen_details, with_remote, monitor_screen. cbn.
    destruct (is_primary m); reflexivity.
  - intros m. unfold monitor_screen. cbn. destruct (is_primary m); reflexivity.
  - intros a b c device_list H.
    unfold get_screen_details, with_remote, monitor_screen.
    cbn [bind]. rewrite (sorted_three a b c H). cbn.
    destruct (is_primary a), (is_primary b), (is_primary c); reflexivity.
Qed.

(** C8, amended, for three monitors at x = 0, 1920 and 3200. *)
Lemma layout_roles_witness :
  let a := mkMonitor 0 0 1920 1080 true in
  let b := mkMonitor 1920 0 1280 1024 false in
  let c := mkMonitor 3200 0 800 600 false in
  map layout (fst (match get_screen_details (Ok [a; b; c]) (Ok []) with
                   | Ok r => r
                   | Raise _ => ([], 0)
                   end))
    = [Some "Left"; Some "Center"; Some "Right"].
Proof.
  cbv zeta.
  rewrite (proj2 (proj2 layout_roles)
             (mkMonitor 0 0 1920 1080 true) (mkMonitor 1920 0 1280 1024 false)
             (mkMonitor 3200 0 800 600 false) (Ok [])) by (cbn; lia).
  reflexivity.
Defined.

(** C9: the code when the native enumeration succeeds and
    [adb.device_list()] raises (no ADB server reachable at 127.0.0.1:5037).
    Nothing catches the exception, so the enumeration fails with it
    whatever the monitors are. *)
Theorem unreachable_adb_fails_enumeration :
  (forall monitors e,
      get_screen_details (Ok monitors) (Raise e) = Raise e) /\
  get_screen_details (Ok [mkMonitor 0 0 1920 1080 true])
    (Raise (BackendError "adb.device_list"))
    = Raise (BackendError "adb.device_list").
Proof.
  split; [| reflexivity].
  intros monitors e. unfold get_screen_details. cbn [bind].
  destruct (monitor_screens _ _ _ _). reflexivity.
Qed.

End RegistryFacts.

(** ** The display registry in general *)

Module RegistryOrder.
Local Open Scope string_scope.
Local Open Scope Z_scope.

Lemma insert_by_x_perm m l : Permutation (m :: l) (insert_by_x m l).
Proof.
  induction l as [| a l IH]; [reflexivity |].
  cbn [insert_by_x]. destruct (m_x m <=? m_x a); [reflexivity |].
  rewrite perm_swap. now apply perm_skip.
Qed.

Lemma sorted_by_x_perm l : Permutation l (sorted_by_x l).
Proof.
  induction l as [| m l IH]; [reflexivity |].
  cbn [sorted_by_x]. rewrite <- insert_by_x_perm. now apply perm_skip.
Qed.

Lemma insert_by_x_sorted m l :
  StronglySorted x_le l -> StronglySorted x_le (insert_by_x m l).
Proof.
  induction 1 as [| a l Hs IH Ha]; cbn [insert_by_x].
  - repeat constructor.
  - destruct (m_x m <=? m_x a) eqn:E.
    + apply Z.leb_le in E. constructor; [now constructor |].
      constructor; [exact E |].
      eapply Forall_impl; [| exact Ha]. unfold x_le. intros; lia.
    + apply Z.leb_gt in E. constructor; [exact IH |].
      eapply Permutation_Forall; [apply insert_by_x_perm |].
      constructor; [unfold x_le; lia | exact Ha].
Qed.

Lemma sorted_by_x_sorted l : StronglySorted x_le (sorted_by_x l).
Proof.
  induction l as [| m l IH]; [constructor |].
  cbn [sorted_by_x]. now apply insert_by_x_sorted.
Qed.

(** Stability: the monitors at one x keep their order. *)
Lemma insert_by_x_filter v m l :
  filter (fun a => m_x a =? v) (insert_by_x m l)
    = filter (fun a => m_x a =? v) (m :: l).
Proof.
  induction l as [| a l IH]; [reflexivity |].
  cbn [insert_by_x]. destruct (m_x m <=? m_x a) eqn:E; [reflexivity |].
  apply Z.leb_gt in E. cbn [filter] in *. rewrite IH.
  destruct (m_x m =? v) eqn:Em, (m_x a =? v) eqn:Ea; try reflexivity.
  apply Z.eqb_eq in Em, Ea. lia.
Qed.

Lemma sorted_by_x_stable v l :
  filter (fun a => m_x a =? v) (sorted_by_x l) = filter (fun a => m_x a =? v) l.
Proof.
  induction l as [| m l IH]; [reflexivity |].
  cbn [sorted_by_x]. rewrite insert_by_x_filter. cbn [filter]. now rewrite IH.
Qed.

Lemma sorted_by_x_length l : List.length (sorted_by_x l) = List.length l.
Proof. symmetry. apply Permutation_length, sorted_by_x_perm. Qed.

(** The loop over the sorted monitors, entry by entry. *)
Lemma monitor_screens_length n l : forall i p,
  List.length (fst (monitor_screens n i p l)) = List.length l.
Proof.
  induction l as [| m l IH]; intros i p; [reflexivity |].
  cbn [monitor_screens].
  specialize (IH (i + 1) (if is_primary m then i else p)).
  destruct (monitor_screens n (i + 1) _ l) as [more q]. cbn in *. now rewrite IH.
Qed.

Lemma monitor_screens_nth n l : forall i p k m,
  nth_error l k = Some m ->
  nth_error (fst (monitor_screens n i p l)) k
    = Some (monitor_screen (i + Z.of_nat k) m (layout_at n (i + Z.of_nat k))).
Proof.
  induction l as [| a l IH]; intros i p k m Hk; [destruct k; discriminate |].
  cbn [monitor_screens].
  specialize (IH (i + 1) (if is_primary a then i else p)).
  destruct (monitor_screens n (i + 1) _ l) as [more q]. cbn [fst] in *.
  destruct k as [| k]; cbn [nth_error] in *.
  - injection Hk as <-. rewrite Z.add_0_r. reflexivity.
  - rewrite (IH k m Hk).
    replace (i + Z.of_nat (S k)) with (i + 1 + Z.of_nat k) by lia. reflexivity.
Qed.

(** The primary index at the end of the loop: where the last monitor
    reported as primary is, or the initial value when there is none. *)
Lemma monitor_screens_no_primary n l : forall i p,
  existsb is_primary l = false -> snd (monitor_screens n i p l) = p.
Proof.
  induction l as [| a l IH]; intros i p H; [reflexivity |].
  cbn [existsb] in H. apply orb_false_iff in H. destruct H as [Ha Hl].
  cbn [monitor_screens]. rewrite Ha.
  specialize (IH (i + 1) p Hl).
  destruct (monitor_screens n (i + 1) p l) as [more q]. exact IH.
Qed.

Lemma monitor_screens_last_primary n l : forall i p,
  existsb is_primary l = true ->
  exists k m,
    nth_error l k = Some m /\ is_primary m = true /\
    snd (monitor_screens n i p l) = i + Z.of_nat k /\
    (forall j m', (k < j)%nat -> nth_error l j = Some m' -> is_primary m' = false).
Proof.
  induction l as [| a l IH]; intros i p H; [discriminate |].
  cbn [monitor_screens].
  destruct (existsb is_primary l) eqn:Hl.
  - destruct (IH (i + 1) (if is_primary a then i else p) eq_refl)
      as (k & m & Hk & Hm & Hs & Hlast).
    destruct (monitor_screens n (i + 1) _ l) as [more q]. cbn [snd] in *.
    exists (S k), m. repeat split; try assumption; [lia |].
    intros j m' Hj Hn. destruct j as [| j]; [lia |].
    apply (Hlast j m'); [lia | exact Hn].
  - cbn [existsb] in H. rewrite Hl, orb_false_r in H.
    pose proof (monitor_screens_no_primary n l (i + 1)
                  (if is_primary a then i else p) Hl) as Hs.
    destruct (monitor_screens n (i + 1) _ l) as [more q]. cbn [snd] in *.
    exists 0%nat, a. rewrite H in Hs. repeat split; try assumption; [cbn; lia |].
    intros j m' Hj Hn. destruct j as [| j]; [lia |]. cbn [nth_error] in Hn.
    destruct (is_primary m') eqn:E; [| reflexivity].
    assert (existsb is_primary l = true); [| congruence].
    apply existsb_exists. exists m'. split; [| exact E].
    eapply nth_error_In; eassumption.
Qed.

(** [get_screen_details] when it returns: the native part and the remote
    part. *)
Lemma get_screen_details_ok ms device_list screens pi :
  get_screen_details (Ok ms) device_list = Ok (screens, pi) ->
  exists devices remote,
    device_list = Ok devices /\ adb_screens devices = Ok remote /\
    let sorted := sorted_by_x ms in
    let n := Z.of_nat (List.length sorted) in
    screens = (fst (monitor_screens n 0 0 sorted) ++ remote)%list /\
    pi = snd (monitor_screens n 0 0 sorted).
Proof.
  unfold get_screen_details. cbn [bind].
  destruct (monitor_screens _ 0 0 (sorted_by_x ms)) as [native p] eqn:E.
  destruct device_list as [devices | e]; cbn [bind]; [| discriminate].
  destruct (adb_screens devices) as [remote | e] eqn:Er; cbn [bind];
    [| discriminate].
  intros H. injection H as <- <-. exists devices, remote.
  split; [reflexivity |]. split; [exact Er |].
  cbv zeta. split; reflexivity.
Qed.


Lemma monitor_screens_sizes n l : forall i p,
  map size (fst (monitor_screens n i p l)) = map monitor_size l.
Proof.
  induction l as [| m l IH]; intros i p; [reflexivity |].
  cbn [monitor_screens].
  specialize (IH (i + 1) (if is_primary m then i else p)).
  destruct (monitor_screens n (i + 1) _ l) as [more q]. cbn in *. now rewrite IH.
Qed.

Lemma monitor_screens_indexes n l : forall i p,
  map index (fst (monitor_screens n i p l))
    = map (fun k => i + Z.of_nat k) (seq 0 (List.length l)).
Proof.
  induction l as [| m l IH]; intros i p; [reflexivity |].
  cbn [monitor_screens].
  specialize (IH (i + 1) (if is_primary m then i else p)).
  destruct (monitor_screens n (i + 1) _ l) as [more q]. cbn [fst] in *.
  cbn [List.length seq map index]. rewrite IH, <- seq_shift, map_map.
  f_equal; [lia |]. apply map_ext. intros k. lia.
Qed.

Lemma monitor_screens_native n l : forall i p,
  Forall (fun s => type_ s = MONITOR /\ name s = None)
    (fst (monitor_screens n i p l)).
Proof.
  induction l as [| m l IH]; intros i p; [constructor |].
  cbn [monitor_screens].
  specialize (IH (i + 1) (if is_primary m then i else p)).
  destruct (monitor_screens n (i + 1) _ l) as [more q]. cbn [fst] in *.
  constructor; [split; reflexivity | exact IH].
Qed.

Lemma native_part ms device_list screens pi :
  get_screen_details (Ok ms) device_list = Ok (screens, pi) ->
  firstn (List.length ms) screens
    = fst (monitor_screens (Z.of_nat (List.length (sorted_by_x ms))) 0 0
             (sorted_by_x ms)).
Proof.
  intros H. destruct (get_screen_details_ok _ _ _ _ H)
    as (devices & remote & _ & _ & Hs & _).
  cbv zeta in Hs. subst screens.
  rewrite <- (sorted_by_x_length ms) at 1.
  rewrite <- (monitor_screens_length
                (Z.of_nat (List.length (sorted_by_x ms))) (sorted_by_x ms) 0 0) at 1.
  now rewrite firstn_app, Nat.sub_diag, firstn_all, firstn_O, app_nil_r.
Qed.

(** X1: the native part of the registry is the monitors in ascending
    order of their x position, monitors at one x in the order in which the
    platform reported them; the entries are numbered from 0, carry the
    sizes of the monitors, and are monitors without a name. *)
Theorem native_displays_sorted ms device_list screens pi :
  get_screen_details (Ok ms) device_list = Ok (screens, pi) ->
  let native := firstn (List.length ms) screens in
  let sorted := sorted_by_x ms in
  Permutation ms sorted /\
  StronglySorted x_le sorted /\
  (forall v, filter (fun m => m_x m =? v) sorted = filter (fun m => m_x m =? v) ms) /\
  map size native = map monitor_size sorted /\
  map index native = map Z.of_nat (seq 0 (List.length ms)) /\
  Forall (fun s => type_ s = MONITOR /\ name s = None) native.
Proof.
  intros H. cbv zeta. rewrite (native_part _ _ _ _ H).
  split; [apply sorted_by_x_perm |]. split; [apply sorted_by_x_sorted |].
  split; [intros v; apply sorted_by_x_stable |].
  split; [apply monitor_screens_sizes |].
  split; [| apply monitor_screens_native].
  rewrite monitor_screens_indexes, sorted_by_x_length. reflexivity.
Qed.

Lemma native_displays_sorted_witness :
  let a := mkMonitor 1920 0 1280 1024 false in
  let b := mkMonitor 0 0 1920 1080 true in
  let c := mkMonitor 1920 1024 800 600 false in
  map size (firstn 3 (fst (match get_screen_details (Ok [a; b; c]) (Ok []) with
                           | Ok r => r | Raise _ => ([], 0) end)))
    = map monitor_size [b; a; c].
Proof.
  cbv zeta.
  exact (proj1 (proj2 (proj2 (proj2
    (native_displays_sorted
       [mkMonitor 1920 0 1280 1024 false; mkMonitor 0 0 1920 1080 true;
        mkMonitor 1920 1024 800 600 false] (Ok []) _ _ eq_refl))))).
Defined.

(** X2: the layout role of a native display depends on its place alone:
    the first is Left, the last of two or more is Right, every other one
    is Center. *)
Theorem layout_roles_general ms device_list screens pi k s :
  get_screen_details (Ok ms) device_list = Ok (screens, pi) ->
  (k < List.length ms)%nat ->
  nth_error screens k = Some s ->
  layout s = Some (if (k =? 0)%nat then "Left"
                   else if (k =? List.length ms - 1)%nat then "Right"
                   else "Center").
Proof.
  intros H Hk Hs.
  assert (Hn : nth_error (firstn (List.length ms) screens) k = Some s).
  { rewrite nth_error_firstn. destruct (Nat.ltb_spec k (List.length ms)); [exact Hs | lia]. }
  rewrite (native_part _ _ _ _ H) in Hn.
  destruct (nth_error (sorted_by_x ms) k) as [m |] eqn:Em.
  2:{ apply nth_error_None in Em. rewrite sorted_by_x_length in Em. lia. }
  rewrite (monitor_screens_nth _ _ 0 0 k m Em) in Hn. injection Hn as <-.
  cbn [layout monitor_screen]. unfold layout_at. rewrite sorted_by_x_length.
  f_equal. cbn [Z.add].
  destruct (Nat.eqb_spec k 0) as [-> | Hk0]; [reflexivity |].
  replace (Z.of_nat k =? 0) with false by (symmetry; apply Z.eqb_neq; lia).
  destruct (Nat.eqb_spec k (List.length ms - 1)) as [-> | Hk1].
  - replace (_ =? _) with true; [reflexivity |]. symmetry. apply Z.eqb_eq. lia.
  - replace (_ =? _) with false; [reflexivity |]. symmetry. apply Z.eqb_neq. lia.
Qed.

Lemma layout_roles_general_witness :
  exists screens pi s,
    get_screen_details
      (Ok [mkMonitor 0 0 800 600 true; mkMonitor 800 0 800 600 false;
           mkMonitor 1600 0 800 600 false; mkMonitor 2400 0 800 600 false])
      (Ok []) = Ok (screens, pi) /\
    nth_error screens 2 = Some s /\
    layout s = Some "Center".
Proof.
  eexists. eexists. eexists. split; [reflexivity |]. split; [reflexivity |].
  exact (layout_roles_general
           [mkMonitor 0 0 800 600 true; mkMonitor 800 0 800 600 false;
            mkMonitor 1600 0 800 600 false; mkMonitor 2400 0 800 600 false]
           (Ok []) _ _ 2%nat _ eq_refl ltac:(cbn; lia) eq_refl).
Defined.

Lemma existsb_sorted_by_x l :
  existsb is_primary (sorted_by_x l) = existsb is_primary l.
Proof.
  destruct (existsb is_primary l) eqn:E.
  - apply existsb_exists in E. destruct E as (m & Hin & Hm).
    apply existsb_exists. exists m. split; [| exact Hm].
    eapply Permutation_in; [apply sorted_by_x_perm | exact Hin].
  - destruct (existsb is_primary (sorted_by_x l)) eqn:E'; [| reflexivity].
    apply existsb_exists in E'. destruct E' as (m & Hin & Hm).
    assert (existsb is_primary l = true); [| congruence].
    apply existsb_exists. exists m. split; [| exact Hm].
    eapply Permutation_in; [symmetry; apply sorted_by_x_perm | exact Hin].
Qed.

Lemma primary_part ms device_list screens pi :
  get_screen_details (Ok ms) device_list = Ok (screens, pi) ->
  pi = snd (monitor_screens (Z.of_nat (List.length (sorted_by_x ms))) 0 0
              (sorted_by_x ms)).
Proof.
  intros H. destruct (get_screen_details_ok _ _ _ _ H)
    as (devices & remote & _ & _ & _ & Hp). exact Hp.
Qed.

Lemma native_nth ms device_list screens pi k :
  get_screen_details (Ok ms) device_list = Ok (screens, pi) ->
  (k < List.length ms)%nat ->
  exists m,
    nth_error (sorted_by_x ms) k = Some m /\
    nth_error screens k
      = Some (monitor_screen (Z.of_nat k) m
                (layout_at (Z.of_nat (List.length ms)) (Z.of_nat k))).
Proof.
  intros H Hk.
  destruct (nth_error (sorted_by_x ms) k) as [m |] eqn:Em.
  2:{ apply nth_error_None in Em. rewrite sorted_by_x_length in Em. lia. }
  exists m. split; [reflexivity |].
  assert (Hn : nth_error (firstn (List.length ms) screens) k = nth_error screens k).
  { rewrite nth_error_firstn. destruct (Nat.ltb_spec k (List.length ms)); [reflexivity | lia]. }
  rewrite <- Hn, (native_part _ _ _ _ H).
  rewrite (monitor_screens_nth _ _ 0 0 k m Em), sorted_by_x_length. reflexivity.
Qed.

(** X3: the primary index.  When no monitor is reported as primary the
    index is 0 and every native display is Secondary; otherwise the index
    is that of the last display marked Primary, every display after it
    being Secondary. *)
Theorem primary_index_last_primary ms device_list screens pi :
  get_screen_details (Ok ms) device_list = Ok (screens, pi) ->
  (existsb is_primary ms = false ->
   pi = 0 /\
   forall k s, (k < List.length ms)%nat -> nth_error screens k = Some s ->
               position s = Some "Secondary") /\
  (existsb is_primary ms = true ->
   0 <= pi < Z.of_nat (List.length ms) /\
   (exists s, nth_error screens (Z.to_nat pi) = Some s /\
              position s = Some "Primary") /\
   forall k s, (Z.to_nat pi < k < List.length ms)%nat ->
               nth_error screens k = Some s -> position s = Some "Secondary").
Proof.
  intros H. pose proof (primary_part _ _ _ _ H) as Hp. split.
  - intros Hnone. rewrite <- existsb_sorted_by_x in Hnone. split.
    + rewrite Hp. now apply monitor_screens_no_primary.
    + intros k s Hk Hs.
      destruct (native_nth _ _ _ _ k H Hk) as (m & Hm & Hn).
      rewrite Hn in Hs. injection Hs as <-. cbn [position monitor_screen].
      destruct (is_primary m) eqn:E; [| reflexivity].
      assert (existsb is_primary (sorted_by_x ms) = true); [| congruence].
      apply existsb_exists. exists m. split; [| exact E].
      eapply nth_error_In; eassumption.
  - intros Hsome. rewrite <- existsb_sorted_by_x in Hsome.
    destruct (monitor_screens_last_primary
                (Z.of_nat (List.length (sorted_by_x ms))) _ 0 0 Hsome)
      as (k & m & Hk & Hm & Hs & Hlast).
    rewrite <- Hp, Z.add_0_l in Hs. clear Hp. subst pi.
    assert (Hlt : (k < List.length ms)%nat).
    { rewrite <- (sorted_by_x_length ms). apply nth_error_Some. congruence. }
    split; [lia |]. rewrite Nat2Z.id. split.
    + destruct (native_nth _ _ _ _ k H Hlt) as (m0 & Hm0 & Hn).
      rewrite Hk in Hm0. injection Hm0 as <-.
      eexists. split; [exact Hn |]. cbn [position monitor_screen]. now rewrite Hm.
    + intros j s Hj Hs.
      destruct (native_nth _ _ _ _ j H (proj2 Hj)) as (m' & Hm' & Hn).
      rewrite Hn in Hs. injection Hs as <-. cbn [position monitor_screen].
      now rewrite (Hlast j m' (proj1 Hj) Hm').
Qed.

Lemma primary_index_last_primary_witness :
  let m0 := mkMonitor 0 0 1280 1024 false in
  let m1 := mkMonitor 1280 0 1920 1080 true in
  let screens := [monitor_screen 0 m0 "Left"; monitor_screen 1 m1 "Right"] in
  0 <= 1 < Z.of_nat (List.length [m1; m0]) /\
  (exists s, nth_error screens (Z.to_nat 1) = Some s /\
             position s = Some "Primary") /\
  forall k s, (Z.to_nat 1 < k < List.length [m1; m0])%nat ->
              nth_error screens k = Some s -> position s = Some "Secondary".
Proof.
  cbv zeta.
  exact (proj2 (primary_index_last_primary
                  [mkMonitor 1280 0 1920 1080 true; mkMonitor 0 0 1280 1024 false]
                  (Ok []) _ _ eq_refl) eq_refl).
Defined.

Lemma adb_screens_ok devices : forall remote,
  adb_screens devices = Ok remote -> Forall2 adb_screen_of devices remote.
Proof.
  induction devices as [| d devices IH]; intros remote H; cbn in H.
  - injection H as <-. constructor.
  - destruct (window_size d) as [[w h] |] eqn:Ew; cbn in H; [| discriminate].
    destruct (adb_screens devices) as [more |]; cbn in H; [| discriminate].
    injection H as <-. constructor; [| now apply IH].
    exists w, h. split; [exact Ew | reflexivity].
Qed.

Lemma adb_screens_raise devices d e :
  In d devices -> window_size d = Raise e ->
  exists e', adb_screens devices = Raise e'.
Proof.
  induction devices as [| a devices IH]; intros Hin He; [destruct Hin |].
  cbn [adb_screens]. destruct Hin as [-> | Hin].
  - rewrite He. eexists. reflexivity.
  - destruct (window_size a) as [[w h] |]; cbn [bind]; [| eexists; reflexivity].
    destruct (IH Hin He) as [e' ->]. eexists. reflexivity.
Qed.

(** X4: the remote part of the registry has one entry per listed device,
    in the order of the listing, each with index 0, the serial number as
    its name, the window size as its size and neither layout nor position;
    one device whose window size cannot be read fails the enumeration. *)
Theorem remote_displays ms devices :
  (forall screens pi,
      get_screen_details (Ok ms) (Ok devices) = Ok (screens, pi) ->
      Forall2 adb_screen_of devices (skipn (List.length ms) screens)) /\
  (forall d e,
      In d devices -> window_size d = Raise e ->
      exists e', get_screen_details (Ok ms) (Ok devices) = Raise e').
Proof.
  split.
  - intros screens pi H.
    destruct (get_screen_details_ok _ _ _ _ H)
      as (devices' & remote & Hd & Hr & Hs & _).
    injection Hd as <-. cbv zeta in Hs. subst screens.
    rewrite <- (sorted_by_x_length ms) at 1.
    rewrite <- (monitor_screens_length
                  (Z.of_nat (List.length (sorted_by_x ms))) (sorted_by_x ms) 0 0) at 1.
    rewrite skipn_app, Nat.sub_diag, skipn_all, skipn_O. cbn [app].
    now apply adb_screens_ok.
  - intros d e Hin He. destruct (adb_screens_raise devices d e Hin He) as [e' He'].
    exists e'. unfold get_screen_details. cbn [bind].
    destruct (monitor_screens _ _ _ _). rewrite He'. reflexivity.
Qed.

Lemma remote_displays_witness :
  exists e',
    get_screen_details (Ok [mkMonitor 0 0 1920 1080 true])
      (Ok [mkAdbDevice "emulator-5554" (Ok (1080, 1920));
           mkAdbDevice "offline" (Raise (BackendError "device.window_size"))])
      = Raise e'.
Proof.
  apply (proj2 (remote_displays [mkMonitor 0 0 1920 1080 true]
                  [mkAdbDevice "emulator-5554" (Ok (1080, 1920));
                   mkAdbDevice "offline" (Raise (BackendError "device.window_size"))])
           (mkAdbDevice "offline" (Raise (BackendError "device.window_size")))
           (BackendError "device.window_size")).
  - right. left. reflexivity.
  - reflexivity.
Defined.

End RegistryOrder.


(** ** Binding an instance to a display *)

Module Binding.
Import RegistryOrder.
Local Open Scope string_scope.
Local Open Scope Z_scope.

Lemma find_serial devices serial :
  (exists d, In d devices /\ serialno d = serial) ->
  exists d, find (fun d => String.eqb (serialno d) serial) devices = Some d /\
            serialno d = serial.
Proof.
  intros (d & Hin & Hd).
  destruct (find (fun d => String.eqb (serialno d) serial) devices) as [d' |] eqn:E.
  - exists d'. split; [reflexivity |]. apply find_some in E.
    now apply String.eqb_eq.
  - exfalso. apply (find_none _ _ E) in Hin. cbv beta in Hin.
    apply String.eqb_neq in Hin. contradiction.
Qed.

(** The constructor on a remote screen whose device is listed. *)
Lemma init_finds_device screen devices serial :
  type_ screen = ADB -> name screen = Some serial ->
  (exists d, In d devices /\ serialno d = serial) ->
  init screen (Ok devices)
    = Ok (mkComputerTool (width (size screen)) (height (size screen)) 0 0 screen
            true (Some serial) (0, 0) None).
Proof.
  intros Ht Hn Hex. unfold init. rewrite Ht, Hn. cbn [bind].
  destruct (find_serial devices serial Hex) as (d & Hf & Hd).
  destruct devices as [| a devices]; [destruct Hex as (? & [] & _) |].
  rewrite Hf, Hd. reflexivity.
Qed.

(** X5: binding to a remote screen.  When a listed device has the serial
    number of the screen the instance is bound to it, with the size of the
    screen, no offsets, scaling enabled and the pointer at (0, 0); when
    none has, the constructor raises a [RuntimeError]. *)
Theorem init_adb_binding screen devices serial :
  type_ screen = ADB -> name screen = Some serial ->
  ((exists d, In d devices /\ serialno d = serial) ->
   init screen (Ok devices)
     = Ok (mkComputerTool (width (size screen)) (height (size screen)) 0 0 screen
             true (Some serial) (0, 0) None)) /\
  ((forall d, In d devices -> serialno d <> serial) ->
   exists message, init screen (Ok devices) = Raise (RuntimeError message)).
Proof.
  intros Ht Hn. split; [now apply init_finds_device |].
  unfold init. rewrite Ht, Hn. cbn [bind].
  - intros Hno. destruct devices as [| a devices]; [eexists; reflexivity |].
    destruct (find _ (a :: devices)) as [d |] eqn:E; [| eexists; reflexivity].
    exfalso. apply find_some in E. destruct E as [Hin He].
    apply String.eqb_eq in He. exact (Hno d Hin He).
Qed.

Lemma init_adb_binding_witness :
  exists message,
    init (adb_screen 1080 1920 "emulator-5554")
      (Ok [mkAdbDevice "emulator-5556" (Ok (1080, 1920))])
      = Raise (RuntimeError message).
Proof.
  apply (proj2 (init_adb_binding (adb_screen 1080 1920 "emulator-5554")
                  [mkAdbDevice "emulator-5556" (Ok (1080, 1920))]
                  "emulator-5554" eq_refl eq_refl)).
  intros d [<- | []]. discriminate.
Defined.

(** X6: every display that the enumeration returns can be bound: with
    the same device listing the constructor succeeds on it, the instance
    has the size of the display, and it holds a device exactly when the
    display is a remote one. *)
Theorem enumerated_display_binds ms devices screens pi s :
  get_screen_details (Ok ms) (Ok devices) = Ok (screens, pi) ->
  In s screens ->
  exists self,
    init s (Ok devices) = Ok self /\
    selected_screen self = s /\
    self_width self = width (size s) /\ self_height self = height (size s) /\
    _adb_device self = match type_ s with MONITOR => None | ADB => name s end /\
    (type_ s = ADB -> _adb_device self <> None).
Proof.
  intros H Hin.
  destruct (get_screen_details_ok _ _ _ _ H)
    as (devices' & remote & Hd & Hr & Hs & _).
  injection Hd as <-. cbv zeta in Hs. subst screens.
  apply in_app_or in Hin. destruct Hin as [Hin | Hin].
  - pose proof (monitor_screens_native
                  (Z.of_nat (List.length (sorted_by_x ms))) (sorted_by_x ms) 0 0) as Hf.
    rewrite Forall_forall in Hf. destruct (Hf s Hin) as [Ht Hn].
    unfold init. rewrite Ht. eexists. repeat split. intros; discriminate.
  - apply adb_screens_ok in Hr.
    assert (Hex : exists d, In d devices /\ adb_screen_of d s).
    { clear -Hr Hin. induction Hr as [| d s' devices remote Hds Hr IH];
        [destruct Hin |].
      destruct Hin as [<- | Hin].
      - exists d. split; [left; reflexivity | exact Hds].
      - destruct (IH Hin) as (d' & Hd' & Hs'). exists d'. split; [right |]; assumption. }
    destruct Hex as (d & Hd & w & h & Hw & ->).
    rewrite (init_finds_device
               (mkScreen 0 (Some (serialno d)) ADB (mkResolution w h) None None)
               devices (serialno d) eq_refl eq_refl)
      by (exists d; split; [assumption | reflexivity]).
    eexists. repeat split. cbn. discriminate.
Qed.

Lemma enumerated_display_binds_witness :
  exists self,
    init (adb_screen 1080 1920 "emulator-5554")
      (Ok [mkAdbDevice "emulator-5554" (Ok (1080, 1920))]) = Ok self /\
    selected_screen self = adb_screen 1080 1920 "emulator-5554" /\
    self_width self = 1080 /\ self_height self = 1920 /\
    _adb_device self = Some "emulator-5554" /\
    (ADB = ADB -> _adb_device self <> None).
Proof.
  apply (enumerated_display_binds [mkMonitor 0 0 1920 1080 true]
           [mkAdbDevice "emulator-5554" (Ok (1080, 1920))]
           _ _ (adb_screen 1080 1920 "emulator-5554") eq_refl).
  right. left. reflexivity.
Defined.

End Binding.


(** ** The scaler in exact terms *)

Module ScalerExact.
Import Float FloatFacts ScalerFacts.
Local Open Scope Z_scope.
Local Open Scope Q_scope.

(** Rounding to an integer: a value within less than 1/2 of an integer
    rounds to it. *)
Lemma round_half_even_unique q z :
  Qabs (q - inject_Z z) < 1 # 2 -> round_half_even q = z.
Proof.
  intros H. pose proof (round_half_even_err q) as He.
  apply Qabs_Qlt_condition in H. apply Qabs_Qle_condition in He.
  set (r := round_half_even q) in *.
  assert (H1 : inject_Z r < inject_Z z + 1) by lra.
  assert (H2 : inject_Z z < inject_Z r + 1) by lra.
  apply Q_of_Z_lt in H1, H2. lia.
Qed.

(** One rounding of a value below [2^33]. *)
Lemma fl_mid q :
  - (8589934592) <= q <= 8589934592 ->
  fl q = Fin (fl_round q) /\ q - tau2 <= fl_round q <= q + tau2.
Proof.
  intros Hq. split.
  - apply fl_finite. apply Qabs_Qle_condition.
    assert (H : 8589934592 <= inject_Z (2 ^ 1000)).
    { apply Qle_bool_iff. vm_compute. reflexivity. }
    set (B := inject_Z (2 ^ 1000)) in *. split; lra.
  - pose proof (fl_round_err q) as He. pose proof eps_val as Hv.
    pose proof eta_le as Ht. rewrite Hv in He.
    assert (Ht' : (1 # 2 ^ 1000) <= 1 # 1048576).
    { apply Qle_bool_iff. vm_compute. reflexivity. }
    assert (Ha : Qabs q <= 8589934592) by (apply Qabs_Qle_condition; lra).
    apply Qabs_Qle_condition in He.
    set (C := 1 # 2 ^ 1000) in *. clearbody C.
    set (A := Qabs q) in *. clearbody A. unfold tau2. split; lra.
Qed.

(** The quotient of two integers between 1 and [2^64], as a float: its
    relative error. *)
Lemma int_truediv_close (a b : Z) :
  (0 < a <= 2 ^ 64)%Z -> (0 < b <= 2 ^ 64)%Z ->
  exists r,
    int_truediv a b = Ok r /\
    Qabs (r - aspect a b) <= aspect a b * eps + eta /\
    0 < aspect a b <= two64.
Proof.
  intros Ha Hb. unfold aspect.
  set (aq := inject_Z a). set (bq := inject_Z b).
  assert (Haq : 1 <= aq <= two64) by (unfold aq, two64; split; q2z).
  assert (Hbq : 1 <= bq <= two64) by (unfold bq, two64; split; q2z).
  set (q := aq / bq).
  assert (Hq : q * bq == aq) by (unfold q; field; lra).
  assert (Hq0 : 0 < q).
  { unfold q. apply Qlt_shift_div_l; lra. }
  assert (Hqb : q <= two64).
  { assert (H1 : 0 <= q * (bq - 1)) by (apply Qmult_le_0_compat; lra). lra. }
  assert (HB : two64 <= inject_Z (2 ^ 1000)).
  { apply Qle_bool_iff. vm_compute. reflexivity. }
  exists (fl_round q). split; [| split; [| split; assumption]].
  - unfold int_truediv.
    replace (b =? 0)%Z with false by (symmetry; apply Z.eqb_neq; lia).
    fold aq bq. fold q. rewrite fl_finite; [reflexivity |].
    rewrite Qabs_pos by lra. set (B := inject_Z (2 ^ 1000)) in *. lra.
  - pose proof (fl_round_err q) as He. now rewrite (Qabs_pos q) in He by lra.
Qed.

(** What the float test says about the floats it compares. *)
Lemma within_tolerance_inv r ratio :
  within_tolerance r ratio = true ->
  Qabs (fl_round (r - ratio)) < float_lit (2 # 100).
Proof.
  unfold within_tolerance, float_sub, fl.
  destruct (Qle_bool (Qabs (fl_round (r - ratio))) fl_max);
    unfold float_abs, float_lt; [| discriminate].
  intros H. apply negb_true_iff in H.
  apply Qnot_le_lt. intros Hle. apply Qle_bool_iff in Hle. congruence.
Qed.

Lemma within_tolerance_intro r ratio :
  Qabs (r - ratio) <= 1 ->
  Qabs (fl_round (r - ratio)) < float_lit (2 # 100) ->
  within_tolerance r ratio = true.
Proof.
  intros Hd H. unfold within_tolerance, float_sub.
  rewrite fl_finite.
  - unfold float_abs, float_lt. apply negb_true_iff.
    destruct (Qle_bool _ _) eqn:E; [| reflexivity].
    apply Qle_bool_iff in E. lra.
  - eapply Qle_trans; [exact Hd |]. apply Qle_bool_iff. vm_compute. reflexivity.
Qed.

(** The float test against the exact one: they agree except within
    [delta] of the boundary. *)
Lemma tolerance_exact r_e rho_e ratio rho :
  Qabs (r_e - rho_e) <= 1 # 4503599627370496 ->
  1 <= rho_e <= 2 ->
  0 < rho ->
  Qabs (ratio - rho) <= rho * eps + eta ->
  (Qabs (rho - rho_e) <= (2 # 100) - delta -> within_tolerance r_e ratio = true) /\
  (within_tolerance r_e ratio = true -> Qabs (rho - rho_e) < (2 # 100) + delta).
Proof.
  intros Hre Hrho_e Hrho Hratio.
  pose proof eps_val as Hv. pose proof eta_le as Ht. pose proof eta_pos as Ht0.
  assert (Ht' : (1 # 2 ^ 1000) <= 1 # 1000000000000000).
  { apply Qle_bool_iff. vm_compute. reflexivity. }
  assert (Hc1 : (2 # 100) <= float_lit (2 # 100)).
  { apply Qle_bool_iff. vm_compute. reflexivity. }
  assert (Hc2 : float_lit (2 # 100) <= (2 # 100) + (1 # 1000000000000000)).
  { apply Qle_bool_iff. vm_compute. reflexivity. }
  pose proof (fl_round_err (r_e - ratio)) as He.
  rewrite Hv in He, Hratio.
  apply Qabs_Qle_condition in Hre, Hratio.
  remember (float_lit (2 # 100)) as c eqn:Ec.
  set (C := 1 # 2 ^ 1000) in *. clearbody C.
  set (e := eta) in *. clearbody e.
  remember (fl_round (r_e - ratio)) as f eqn:Ef.
  unfold delta. split.
  - intros H. apply Qabs_Qle_condition in H.
    assert (Hd : Qabs (r_e - ratio) <= 21 # 1000).
    { apply Qabs_Qle_condition. split; lra. }
    apply within_tolerance_intro.
    + eapply Qle_trans; [exact Hd |]. discriminate.
    + rewrite <- Ec, <- Ef.
      assert (Hf : Qabs (f - (r_e - ratio)) <= (1 # 1000000000000000) * 2).
      { eapply Qle_trans; [exact He |].
        set (D := Qabs (r_e - ratio)) in *. clearbody D. lra. }
      apply Qabs_Qle_condition in Hf. apply Qabs_Qle_condition in Hd.
      apply Qabs_Qlt_condition. split; lra.
  - intros H. apply within_tolerance_inv in H. rewrite <- Ec, <- Ef in H.
    pose proof (Qabs_nonneg (r_e - ratio)) as Hn.
    assert (Hd : Qabs (r_e - ratio) < (2 # 100) + (1 # 100000000000000)).
    { pose proof (Qabs_triangle (r_e - ratio - f) f) as Htr.
      setoid_replace (r_e - ratio - f + f) with (r_e - ratio) in Htr by ring.
      rewrite (Qabs_Qminus (r_e - ratio) f) in Htr.
      set (D := Qabs (r_e - ratio)) in *. clearbody D.
      set (F := Qabs f) in *. clearbody F.
      set (G := Qabs (f - (r_e - ratio))) in *. clearbody G. lra. }
    apply Qabs_Qlt_condition in Hd.
    apply Qabs_Qlt_condition. split; lra.
Qed.

(** The entries' ratios as floats are within [2^-52] of the exact ones,
    which lie between 1 and 2. *)
Lemma r_XGA_close :
  Qabs (r_XGA - aspect 1024 768) <= 1 # 4503599627370496 /\
  1 <= aspect 1024 768 <= 2.
Proof. repeat split; apply Qle_bool_iff; vm_compute; reflexivity. Qed.

Lemma r_WXGA_close :
  Qabs (r_WXGA - aspect 1280 800) <= 1 # 4503599627370496 /\
  1 <= aspect 1280 800 <= 2.
Proof. repeat split; apply Qle_bool_iff; vm_compute; reflexivity. Qed.

Lemma r_FWXGA_close :
  Qabs (r_FWXGA - aspect 1366 768) <= 1 # 4503599627370496 /\
  1 <= aspect 1366 768 <= 2.
Proof. repeat split; apply Qle_bool_iff; vm_compute; reflexivity. Qed.

(** An entry that is exactly far from the native ratio, or not narrower
    than the display, is not selected. *)
Lemma select_target_fallback w h :
  (0 < w <= 2 ^ 64)%Z -> (0 < h <= 2 ^ 64)%Z ->
  (forall entry_name dimension,
      In (entry_name, dimension) MAX_SCALING_TARGETS ->
      (2 # 100) + delta
        <= Qabs (aspect w h - aspect (width dimension) (height dimension))
      \/ (w <= width dimension)%Z) ->
  select_target w h = Ok WXGA.
Proof.
  intros Hw Hh Hfar.
  destruct (int_truediv_close w h Hw Hh) as (ratio & Hr & Hclose & Hpos & _).
  rewrite (select_target_unrolled w h ratio Hr).
  destruct r_XGA_close as [Hx1 Hx2]. destruct r_FWXGA_close as [Hf1 Hf2].
  destruct (tolerance_exact _ _ ratio _ Hx1 Hx2 Hpos Hclose) as [_ Hxn].
  destruct (tolerance_exact _ _ ratio _ Hf1 Hf2 Hpos Hclose) as [_ Hfn].
  destruct (within_tolerance r_XGA ratio) eqn:E1.
  { destruct (Hfar "XGA"%string XGA (or_introl eq_refl)) as [Hq | Hz].
    - specialize (Hxn eq_refl). cbn [width height XGA] in Hq. lra.
    - cbn [width XGA] in Hz. apply Z.ltb_ge in Hz. now rewrite Hz. }
  destruct (within_tolerance r_WXGA ratio); [reflexivity |].
  destruct (within_tolerance r_FWXGA ratio) eqn:E3; [| reflexivity].
  destruct (Hfar "FWXGA"%string FWXGA (or_intror (or_intror (or_introl eq_refl))))
    as [Hq | Hz].
  - specialize (Hfn eq_refl). cbn [width height FWXGA] in Hq. lra.
  - cbn [width FWXGA] in Hz. apply Z.ltb_ge in Hz. now rewrite Hz.
Qed.

(** X7: the selection in exact terms.  On a display with sides between 1
    and [2^64], an entry whose exact aspect ratio is within [0.02 - delta]
    of the exact native ratio and which is narrower than the display is
    the one selected; when every entry is at least [0.02 + delta] away or
    not narrower, WXGA is. *)
Theorem select_target_by_exact_aspect w h :
  (0 < w <= 2 ^ 64)%Z -> (0 < h <= 2 ^ 64)%Z ->
  (forall entry_name dimension,
      In (entry_name, dimension) MAX_SCALING_TARGETS ->
      Qabs (aspect w h - aspect (width dimension) (height dimension))
        <= (2 # 100) - delta ->
      (width dimension < w)%Z ->
      select_target w h = Ok dimension) /\
  ((forall entry_name dimension,
       In (entry_name, dimension) MAX_SCALING_TARGETS ->
       (2 # 100) + delta
         <= Qabs (aspect w h - aspect (width dimension) (height dimension))
       \/ (w <= width dimension)%Z) ->
   select_target w h = Ok WXGA).
Proof.
  intros Hw Hh. split; [| now apply select_target_fallback].
  intros entry_name dimension Hin Hq Hlt.
  destruct (int_truediv_close w h Hw Hh) as (ratio & Hr & Hclose & Hpos & _).
  rewrite (select_target_unrolled w h ratio Hr).
  destruct r_XGA_close as [Hx1 Hx2]. destruct r_WXGA_close as [Hw1 Hw2].
  destruct r_FWXGA_close as [Hf1 Hf2].
  destruct Hin as [E | [E | [E | []]]]; injection E as _ <-;
    cbn [width height] in Hq, Hlt.
  - destruct (tolerance_exact _ _ ratio _ Hx1 Hx2 Hpos Hclose) as [Hs _].
    rewrite (Hs Hq). apply Z.ltb_lt in Hlt. now rewrite Hlt.
  - destruct (tolerance_exact _ _ ratio _ Hw1 Hw2 Hpos Hclose) as [Hs _].
    specialize (Hs Hq).
    rewrite (windows_disjoint _ _ _ (gap_sym _ _ gap_XGA_WXGA) Hs), Hs.
    reflexivity.
  - destruct (tolerance_exact _ _ ratio _ Hf1 Hf2 Hpos Hclose) as [Hs _].
    specialize (Hs Hq).
    rewrite (windows_disjoint _ _ _ (gap_sym _ _ gap_XGA_FWXGA) Hs).
    rewrite (windows_disjoint _ _ _ (gap_sym _ _ gap_WXGA_FWXGA) Hs), Hs.
    apply Z.ltb_lt in Hlt. now rewrite Hlt.
Qed.

Lemma select_target_by_exact_aspect_witness :
  select_target 2560 1440 = Ok FWXGA.
Proof.
  apply (proj1 (select_target_by_exact_aspect 2560 1440 ltac:(lia) ltac:(lia))
           "FWXGA"%string FWXGA).
  - right; right; left; reflexivity.
  - apply Qle_bool_iff. vm_compute. reflexivity.
  - cbn. lia.
Defined.

Lemma aspect_le w h (n d : Z) :
  (0 < h)%Z -> (0 < d)%Z -> (d * w <= n * h)%Z ->
  aspect w h <= inject_Z n / inject_Z d.
Proof.
  intros Hh Hd H. unfold aspect.
  assert (Hhq : 0 < inject_Z h) by q2z.
  assert (Hdq : 0 < inject_Z d) by q2z.
  apply Qle_shift_div_r; [exact Hhq |].
  setoid_replace (inject_Z n / inject_Z d * inject_Z h)
    with (inject_Z n * inject_Z h / inject_Z d) by (field; lra).
  apply Qle_shift_div_l; [exact Hdq |].
  rewrite <- !inject_Z_mult, <- Zle_Qle. lia.
Qed.

Lemma aspect_ge w h (n d : Z) :
  (0 < h)%Z -> (0 < d)%Z -> (n * h <= d * w)%Z ->
  inject_Z n / inject_Z d <= aspect w h.
Proof.
  intros Hh Hd H. unfold aspect.
  assert (Hhq : 0 < inject_Z h) by q2z.
  assert (Hdq : 0 < inject_Z d) by q2z.
  apply Qle_shift_div_l; [exact Hhq |].
  setoid_replace (inject_Z n / inject_Z d * inject_Z h)
    with (inject_Z n * inject_Z h / inject_Z d) by (field; lra).
  apply Qle_shift_div_r; [exact Hdq |].
  rewrite <- !inject_Z_mult, <- Zle_Qle. lia.
Qed.

(** X8: the fall-back by shape.  A display at most 1024 wide, one whose
    width is at most 1.31 times its height (every portrait display), and
    one at least 1.8 times as wide as high, get the WXGA target. *)
Theorem fallback_for_portrait_narrow_ultrawide w h :
  (0 < w <= 2 ^ 64)%Z -> (0 < h <= 2 ^ 64)%Z ->
  (w <= 1024 \/ 100 * w <= 131 * h \/ 180 * h <= 100 * w)%Z ->
  select_target w h = Ok WXGA.
Proof.
  intros Hw Hh Hcase. apply select_target_fallback; try assumption.
  intros entry_name dimension Hin.
  destruct Hcase as [Hn | [Hp | Hu]].
  - right. destruct Hin as [E | [E | [E | []]]]; injection E as _ <-; cbn; lia.
  - left. pose proof (aspect_le w h 131 100 ltac:(lia) ltac:(lia) Hp) as Ha.
    change (inject_Z 131 / inject_Z 100) with (131 # 100) in Ha.
    destruct Hin as [E | [E | [E | []]]]; injection E as _ <-;
      cbn [width height]; unfold delta.
    + assert (H0 : aspect 1024 768 == 4 # 3) by reflexivity.
      rewrite H0. apply Qabs_case; intros; lra.
    + assert (H0 : aspect 1280 800 == 8 # 5) by reflexivity.
      rewrite H0. apply Qabs_case; intros; lra.
    + assert (H0 : aspect 1366 768 == 683 # 384) by reflexivity.
      rewrite H0. apply Qabs_case; intros; lra.
  - left. pose proof (aspect_ge w h 180 100 ltac:(lia) ltac:(lia) Hu) as Ha.
    change (inject_Z 180 / inject_Z 100) with (180 # 100) in Ha.
    destruct Hin as [E | [E | [E | []]]]; injection E as _ <-;
      cbn [width height]; unfold delta.
    + assert (H0 : aspect 1024 768 == 4 # 3) by reflexivity.
      rewrite H0. apply Qabs_case; intros; lra.
    + assert (H0 : aspect 1280 800 == 8 # 5) by reflexivity.
      rewrite H0. apply Qabs_case; intros; lra.
    + assert (H0 : aspect 1366 768 == 683 # 384) by reflexivity.
      rewrite H0. apply Qabs_case; intros; lra.
Qed.

Lemma fallback_for_portrait_narrow_ultrawide_witness :
  select_target 1080 1920 = Ok WXGA.
Proof.
  apply (fallback_for_portrait_narrow_ultrawide 1080 1920); lia.
Defined.

(** The relative error of one rounding of a non-negative value. *)
Lemma fl_round_rel q :
  0 <= q ->
  exists c, 0 <= c <= 1 # 1267650600228229401496703205376 /\
    q - (q * (1 # 9007199254740992) + c) <= fl_round q
      <= q + (q * (1 # 9007199254740992) + c).
Proof.
  intros Hq. pose proof (fl_round_err q) as He. pose proof eps_val as Hv.
  pose proof eta_le as Ht. pose proof eta_pos as Hp. rewrite Hv in He.
  assert (Ht' : (1 # 2 ^ 1000) <= 1 # 1267650600228229401496703205376).
  { apply Qle_bool_iff. vm_compute. reflexivity. }
  rewrite (Qabs_pos q Hq) in He. apply Qabs_Qle_condition in He.
  exists eta. set (C := 1 # 2 ^ 1000) in *. clearbody C.
  generalize dependent eta. intros c; intros. split; [lra |]. split; lra.
Qed.

(** One axis, native to logical: target size [t], native size [n],
    native coordinate [x] on the display. *)
Ltac prod a b :=
  let H := fresh "Hprod" in
  assert (H : 0 <= a * b) by (apply Qmult_le_0_compat; lra).

Lemma axis_down (t n x : Z) :
  (0 < t <= 1366)%Z -> (0 < n <= 1048576)%Z -> (0 <= x <= n)%Z ->
  exists s p,
    int_truediv t n = Ok s /\
    int_mul_float x s = Ok (Fin p) /\
    (0 <= round_half_even p <= t)%Z /\
    (x = n -> round_half_even p = t).
Proof.
  intros Ht Hn Hx.
  set (T := inject_Z t). set (N := inject_Z n). set (X0 := inject_Z x).
  assert (HT : 1 <= T <= 1366) by (unfold T; split; q2z).
  assert (HN : 1 <= N <= 1048576) by (unfold N; split; q2z).
  assert (HX0 : 0 <= X0 <= N) by (unfold X0, N; split; q2z).
  set (s0 := T / N).
  assert (Hs0 : s0 * N == T) by (unfold s0; field; lra).
  assert (Hs0b : 0 < s0 <= 1366) by (split; nra).
  assert (Hs0l : 1 # 1048576 <= s0).
  { prod s0 (1048576 - N). lra. }
  destruct (fl_small s0) as [Es _]; [lra |].
  destruct (fl_round_rel s0) as (c & Hc & Hs); [lra |].
  set (s := fl_round s0) in *.
  assert (Etd : int_truediv t n = Ok s).
  { unfold int_truediv.
    replace (n =? 0)%Z with false by (symmetry; apply Z.eqb_neq; lia).
    fold T N. fold s0. rewrite Es. reflexivity. }
  destruct (fl_mid X0) as [Ex Hfx]; [lra |].
  set (fx := fl_round X0) in *.
  assert (Efx : float_of_int x = Ok fx).
  { unfold float_of_int. fold X0. rewrite Ex. reflexivity. }
  assert (Hexact : 0 <= X0 * s0 <= T) by (split; nra).
  assert (HP : - (1 # 100) <= fx * s - X0 * s0 <= 1 # 100).
  { unfold tau2 in *.
    assert (H1 : 0 <= s <= 1367) by (split; lra).
    prod (fx - X0 + (1 # 524288)) s. prod (X0 + (1 # 524288) - fx) s.
    prod X0 c. prod (1048576 - X0) c.
    prod X0 (s - (s0 - (s0 * (1 # 9007199254740992) + c))).
    prod X0 (s0 + (s0 * (1 # 9007199254740992) + c) - s).
    split; lra. }
  destruct (fl_small (fx * s)) as [Ep Hp]; [lra |].
  set (p := fl_round (fx * s)) in *.
  assert (Emul : int_mul_float x s = Ok (Fin p)).
  { unfold int_mul_float. rewrite Efx. cbn [bind]. rewrite Ep. reflexivity. }
  pose proof (round_half_even_err p) as HR. apply Qabs_Qle_condition in HR.
  exists s, p. repeat (split; [assumption |]). split.
  - set (r := round_half_even p) in *. split.
    + assert (H : inject_Z (-1) < inject_Z r).
      { change (inject_Z (-1)) with (-1). unfold tau in *. lra. }
      rewrite <- Zlt_Qlt in H. lia.
    + apply Q_of_Z_lt. fold T. unfold tau in *. lra.
  - intros ->. apply round_half_even_unique. fold T. fold N in HX0.
    assert (Hxn : X0 == N) by reflexivity.
    assert (He : X0 * s0 == T) by (rewrite Hxn; lra).
    apply Qabs_Qlt_condition. unfold tau in *. split; lra.
Qed.

(** One axis, logical to native and back: target size [t] no larger than
    the native size [n], logical coordinate [x] within the target.  The
    native coordinate is on the display and converts back to [x]: the
    rounding moves [x * n / t] by at most 1/2, which the factor
    [t / n < 1] turns into less than 1/2 (and [t = n] moves nothing). *)
Lemma axis_up_down (t n x : Z) :
  (0 < t <= 1366)%Z -> (t <= n <= 1048576)%Z -> (0 <= x <= t)%Z ->
  exists s q p,
    int_truediv t n = Ok s /\
    int_div_float x s = Ok (Fin q) /\
    (0 <= round_half_even q <= n)%Z /\
    int_mul_float (round_half_even q) s = Ok (Fin p) /\
    round_half_even p = x.
Proof.
  intros Ht Hn Hx.
  set (T := inject_Z t). set (N := inject_Z n). set (X0 := inject_Z x).
  assert (HT : 1 <= T <= 1366) by (unfold T; split; q2z).
  assert (HN : T <= N <= 1048576) by (unfold N, T; split; q2z).
  assert (HX0 : 0 <= X0 <= T) by (unfold X0, T; split; q2z).
  set (s0 := T / N).
  assert (Hs0 : s0 * N == T) by (unfold s0; field; lra).
  assert (Hs0l : 1 # 1048576 <= s0).
  { assert (0 < s0) by nra. prod s0 (1048576 - N). lra. }
  assert (Hs0u : s0 <= 1).
  { prod s0 (N - T). assert (0 <= (1 - s0) * T) by nra. nra. }
  destruct (fl_small s0) as [Es _]; [lra |].
  destruct (fl_round_rel s0) as (c & Hc & Hs); [lra |].
  set (s := fl_round s0) in *.
  assert (Hsb : 1 # 2097152 <= s <= 2) by (split; lra).
  assert (Etd : int_truediv t n = Ok s).
  { unfold int_truediv.
    replace (n =? 0)%Z with false by (symmetry; apply Z.eqb_neq; lia).
    fold T N. fold s0. rewrite Es. reflexivity. }
  assert (Hsnz : Qeq_bool s 0 = false).
  { destruct (Qeq_bool s 0) eqn:E; [| reflexivity].
    apply Qeq_bool_iff in E. lra. }
  (* the exact native coordinate *)
  set (R := X0 / s0).
  assert (HR : R * s0 == X0) by (unfold R; field; lra).
  assert (HRb : 0 <= R <= N).
  { split.
    - destruct (Qlt_le_dec R 0) as [Hlt |]; [| assumption]. exfalso.
      prod (- R) s0. prod (- R) (s0 - (1 # 1048576)). lra.
    - destruct (Qlt_le_dec N R) as [Hlt |]; [| assumption]. exfalso.
      prod (R - N) s0. prod (R - N) (s0 - (1 # 1048576)). lra. }
  (* up *)
  destruct (fl_small X0) as [Ex Hfx]; [lra |].
  set (fx := fl_round X0) in *.
  assert (Efx : float_of_int x = Ok fx).
  { unfold float_of_int. fold X0. rewrite Ex. reflexivity. }
  set (Q0 := fx / s).
  assert (HQ0 : Q0 * s == fx) by (unfold Q0; field; lra).
  set (k := 1 # 100000000000).
  assert (HDs : - k <= (Q0 - R) * s <= k).
  { unfold tau, k in *.
    prod R c. prod (1048576 - R) c.
    prod R (s - (s0 - (s0 * (1 # 9007199254740992) + c))).
    prod R (s0 + (s0 * (1 # 9007199254740992) + c) - s).
    split; lra. }
  assert (HD : - (1 # 40000) <= Q0 - R <= 1 # 40000).
  { unfold k in *. split.
    - destruct (Qlt_le_dec (Q0 - R) (- (1 # 40000))) as [Hlt |]; [| assumption].
      exfalso. prod (- (1 # 40000) - (Q0 - R)) (s - (1 # 2097152)). lra.
    - destruct (Qlt_le_dec (1 # 40000) (Q0 - R)) as [Hlt |]; [| assumption].
      exfalso. prod (Q0 - R - (1 # 40000)) (s - (1 # 2097152)). lra. }
  destruct (fl_mid Q0) as [Eq Hq]; [lra |].
  set (q := fl_round Q0) in *.
  assert (Ediv : int_div_float x s = Ok (Fin q)).
  { unfold int_div_float. rewrite Efx. cbn [bind]. rewrite Hsnz.
    change (fx / s) with Q0. rewrite Eq. reflexivity. }
  pose proof (round_half_even_err q) as HXe. apply Qabs_Qle_condition in HXe.
  set (X := round_half_even q) in *. set (Xq := inject_Z X) in *.
  assert (HXZ : (0 <= X <= n)%Z).
  { split.
    - assert (H : inject_Z (-1) < Xq).
      { change (inject_Z (-1)) with (-1). unfold tau2 in *. lra. }
      unfold Xq in H. rewrite <- Zlt_Qlt in H. lia.
    - apply Q_of_Z_lt. fold Xq N. unfold tau2 in *. lra. }
  assert (HXq : 0 <= Xq <= N) by (unfold Xq, N; split; q2z).
  (* down *)
  destruct (fl_mid Xq) as [EX HfX]; [lra |].
  set (fX := fl_round Xq) in *.
  assert (EfX : float_of_int X = Ok fX).
  { unfold float_of_int. fold Xq. rewrite EX. reflexivity. }
  assert (HXR : Z.lt t n -> - ((1 # 2) - (1 # 3500)) <= (Xq - R) * s0 <= (1 # 2) - (1 # 3500)).
  { intros Hlt. assert (HN1 : T + 1 <= N) by (unfold T, N; q2z).
    assert (Hs1 : 1367 * s0 <= 1366).
    { prod s0 (N - (T + 1)). prod (1366 - T) (1 - s0). lra. }
    unfold tau2 in *.
    prod (Xq - R + ((1 # 2) + (1 # 30000))) s0.
    prod (R + ((1 # 2) + (1 # 30000)) - Xq) s0.
    split; lra. }
  assert (HXE : t = n -> Xq == X0).
  { intros E. assert (HTN : T == N) by (unfold T, N; rewrite E; reflexivity).
    assert (Hs1 : s0 == 1) by (unfold s0; rewrite HTN; field; lra).
    assert (HRX : R == X0) by (rewrite <- HR, Hs1; ring).
    assert (HXx : X = x).
    { apply round_half_even_unique. fold X0. apply Qabs_Qlt_condition.
      unfold tau2 in *. split; lra. }
    unfold Xq, X0. rewrite HXx. reflexivity. }
  assert (HXR' : - ((1 # 2) - (1 # 3500)) <= (Xq - R) * s0 <= (1 # 2) - (1 # 3500)).
  { destruct (Z.eq_dec t n) as [E | NE].
    - specialize (HXE E).
      assert (HTN : T == N) by (unfold T, N; rewrite E; reflexivity).
      assert (Hs1 : s0 == 1) by (unfold s0; rewrite HTN; field; lra).
      assert (HRX : R == X0) by (rewrite <- HR, Hs1; ring).
      assert (Hz : (Xq - R) * s0 == 0) by (rewrite HXE, HRX; ring).
      rewrite Hz. split; lra.
    - apply HXR. lia. }
  assert (HP : - ((1 # 2) - (1 # 4000)) <= fX * s - X0 <= (1 # 2) - (1 # 4000)).
  { unfold tau2 in *.
    prod (fX - Xq + (1 # 524288)) s. prod (Xq + (1 # 524288) - fX) s.
    prod Xq c. prod (1048576 - Xq) c.
    prod Xq (s - (s0 - (s0 * (1 # 9007199254740992) + c))).
    prod Xq (s0 + (s0 * (1 # 9007199254740992) + c) - s).
    prod Xq s0. prod (N - Xq) s0.
    split; lra. }
  destruct (fl_small (fX * s)) as [Ep Hp]; [lra |].
  set (p := fl_round (fX * s)) in *.
  assert (Emul : int_mul_float X s = Ok (Fin p)).
  { unfold int_mul_float. rewrite EfX. cbn [bind]. rewrite Ep. reflexivity. }
  exists s, q, p. repeat (split; [assumption |]).
  apply round_half_even_unique. fold X0. apply Qabs_Qlt_condition.
  unfold tau in *. split; lra.
Qed.

Local Open Scope Z_scope.

(** X9: the size advertised to the model.  With scaling enabled, on a
    display with sides between 1 and [2^20], [options] reports exactly the
    width and the height of the selected target, and a monitor screenshot
    taken afterwards is saved at that size. *)
Theorem options_reports_target self :
  _scaling_enabled self = true ->
  0 < self_width self <= 1048576 ->
  0 < self_height self <= 1048576 ->
  exists target,
    select_target (self_width self) (self_height self) = Ok target /\
    fst (options self) = Ok (width target, height target) /\
    saved_size (snd (options self)) = target.
Proof.
  intros En Hw Hh.
  destruct (select_target_ok (self_width self) (self_height self))
    as (target & Ht & Htab); [lia | lia |].
  exists target. split; [exact Ht |].
  assert (Hdim : 0 < width target <= 1366 /\ 0 < height target <= 1366).
  { destruct Htab as [-> | [-> | ->]]; cbn; lia. }
  destruct Hdim as [Hdw Hdh].
  destruct (axis_down (width target) (self_width self) (self_width self))
    as (sx & px & Esx & Emx & _ & Hx); [lia | lia | lia |].
  destruct (axis_down (height target) (self_height self) (self_height self))
    as (sy & py & Esy & Emy & _ & Hy); [lia | lia | lia |].
  unfold options. rewrite (scale_coordinates_enabled self _ _ _ target En Ht).
  cbn [fst snd]. split; [| reflexivity].
  unfold scale_with. rewrite Esx, Esy. cbn [bind].
  rewrite Emx, Emy. cbn [bind py_round].
  rewrite (Hx eq_refl), (Hy eq_refl). reflexivity.
Qed.

Lemma options_reports_target_witness :
  exists target,
    select_target 1920 1080 = Ok target /\
    fst (options (native_tool 1920 1080)) = Ok (width target, height target) /\
    saved_size (snd (options (native_tool 1920 1080))) = target.
Proof.
  apply (options_reports_target (native_tool 1920 1080)).
  - reflexivity.
  - cbn [self_width native_tool]. lia.
  - cbn [self_height native_tool]. lia.
Defined.

(** X10: native to logical.  With scaling enabled, every coordinate on
    the display converts without error to a coordinate within the
    selected target, also when the target is larger than the display. *)
Theorem native_to_logical_within_target self x y :
  _scaling_enabled self = true ->
  0 < self_width self <= 1048576 ->
  0 < self_height self <= 1048576 ->
  0 <= x <= self_width self ->
  0 <= y <= self_height self ->
  exists target lx ly,
    scale_coordinates self COMPUTER x y
      = (Ok (lx, ly), set_target_dimension self target) /\
    In target (map snd MAX_SCALING_TARGETS) /\
    0 <= lx <= width target /\ 0 <= ly <= height target.
Proof.
  intros En Hw Hh Hx Hy.
  destruct (select_target_ok (self_width self) (self_height self))
    as (target & Ht & Htab); [lia | lia |].
  assert (Hdim : 0 < width target <= 1366 /\ 0 < height target <= 1366).
  { destruct Htab as [-> | [-> | ->]]; cbn; lia. }
  destruct Hdim as [Hdw Hdh].
  destruct (axis_down (width target) (self_width self) x)
    as (sx & px & Esx & Emx & Hlx & _); [lia | lia | lia |].
  destruct (axis_down (height target) (self_height self) y)
    as (sy & py & Esy & Emy & Hly & _); [lia | lia | lia |].
  exists target, (round_half_even px), (round_half_even py).
  split; [| split; [| split; assumption]].
  - rewrite (scale_coordinates_enabled self _ _ _ target En Ht).
    unfold scale_with. rewrite Esx, Esy. cbn [bind].
    rewrite Emx, Emy. reflexivity.
  - destruct Htab as [-> | [-> | ->]]; cbn; auto.
Qed.

Lemma native_to_logical_within_target_witness :
  exists target lx ly,
    scale_coordinates (native_tool 800 600) COMPUTER 799 599
      = (Ok (lx, ly), set_target_dimension (native_tool 800 600) target) /\
    In target (map snd MAX_SCALING_TARGETS) /\
    0 <= lx <= width target /\ 0 <= ly <= height target.
Proof.
  apply (native_to_logical_within_target (native_tool 800 600) 799 599).
  - reflexivity.
  - cbn [self_width native_tool]. lia.
  - cbn [self_height native_tool]. lia.
  - cbn [self_width native_tool]. lia.
  - cbn [self_height native_tool]. lia.
Defined.

(** X11: logical to native and back.  When the selected target is no
    larger than the display, every logical coordinate within the target
    converts to a native coordinate on the display, and that one converts
    back to exactly the logical coordinate. *)
Theorem logical_roundtrip_exact self lx ly target :
  select_target (self_width self) (self_height self) = Ok target ->
  width target <= self_width self <= 1048576 ->
  height target <= self_height self <= 1048576 ->
  0 <= lx <= width target ->
  0 <= ly <= height target ->
  exists x y self',
    scale_coordinates self API lx ly = (Ok (x, y), self') /\
    0 <= x <= self_width self /\ 0 <= y <= self_height self /\
    scale_coordinates self' COMPUTER x y = (Ok (lx, ly), self').
Proof.
  intros Ht Hw Hh Hx Hy.
  destruct (_scaling_enabled self) eqn:En.
  2:{ exists lx, ly, self.
      rewrite !scale_coordinates_disabled by assumption.
      repeat split; lia. }
  assert (Hdim : 0 < width target <= 1366 /\ 0 < height target <= 1366).
  { destruct (select_target_in_table _ _ _ Ht) as [-> | [-> | ->]]; cbn; lia. }
  destruct Hdim as [Hdw Hdh].
  destruct (axis_up_down (width target) (self_width self) lx)
    as (sx & qx & px & Esx & Edx & HX & Emx & Hrx); [lia | lia | lia |].
  destruct (axis_up_down (height target) (self_height self) ly)
    as (sy & qy & py & Esy & Edy & HY & Emy & Hry); [lia | lia | lia |].
  set (self' := set_target_dimension self target).
  exists (round_half_even qx), (round_half_even qy), self'.
  split; [| split; [assumption | split; [assumption |]]].
  - rewrite (scale_coordinates_enabled self _ _ _ target En Ht).
    unfold scale_with. rewrite Esx, Esy. cbn [bind].
    replace (lx >? self_width self) with false
      by (symmetry; rewrite Z.gtb_ltb; apply Z.ltb_ge; lia).
    replace (ly >? self_height self) with false
      by (symmetry; rewrite Z.gtb_ltb; apply Z.ltb_ge; lia).
    cbn [orb]. rewrite Edx, Edy. reflexivity.
  - rewrite (scale_coordinates_enabled self' _ _ _ target En Ht).
    cbn [self' set_target_dimension self_width self_height].
    unfold scale_with. rewrite Esx, Esy. cbn [bind].
    rewrite Emx, Emy. cbn [bind py_round]. rewrite Hrx, Hry. reflexivity.
Qed.

Lemma logical_roundtrip_exact_witness :
  exists x y self',
    scale_coordinates (native_tool 1920 1080) API 683 384 = (Ok (x, y), self') /\
    0 <= x <= self_width (native_tool 1920 1080) /\
    0 <= y <= self_height (native_tool 1920 1080) /\
    scale_coordinates self' COMPUTER x y = (Ok (683, 384), self').
Proof.
  assert (Ht : select_target (self_width (native_tool 1920 1080))
                 (self_height (native_tool 1920 1080)) = Ok FWXGA)
    by (vm_compute; reflexivity).
  apply (logical_roundtrip_exact (native_tool 1920 1080) 683 384 FWXGA Ht);
    cbn [self_width self_height native_tool width height FWXGA]; lia.
Defined.

End ScalerExact.


(** ** Invariants of the dispatcher *)

Module DispatcherInvariants.
Import ScalerFacts.
Local Open Scope string_scope.
Local Open Scope Z_scope.

Lemma same_binding_refl a : same_binding a a.
Proof. repeat split. Qed.

Lemma extends_refl st : extends st st.
Proof.
  split; [apply same_binding_refl |]. split; [left; reflexivity |].
  exists []. rewrite app_nil_r. split; [reflexivity | constructor].
Qed.

Lemma keeps_ret {A} st0 (a : A) : keeps st0 (ret a).
Proof. intros st H. exact H. Qed.

Lemma keeps_raise {A} st0 e : keeps st0 (@raise A e).
Proof. intros st H. exact H. Qed.

Lemma keeps_mbind {A B} st0 (m : M A) (k : A -> M B) :
  keeps st0 m -> (forall a, keeps st0 (k a)) -> keeps st0 (mbind m k).
Proof.
  intros Hm Hk st H. unfold mbind. specialize (Hm st H).
  destruct (m st) as [[a | e] st']; cbn [snd] in *.
  - apply Hk. exact Hm.
  - exact Hm.
Qed.

(** After [self <~ get_self] the continuation runs with an instance that
    has the binding of the start. *)
Lemma keeps_get_self {A} st0 (k : ComputerTool -> M A) :
  (forall self,
      same_binding (tool st0) self ->
      target_kept_or_entry (tool st0) self ->
      keeps st0 (k self)) ->
  keeps st0 (mbind get_self k).
Proof.
  intros Hk st H. unfold mbind, get_self.
  apply (Hk (tool st)); [apply H | apply H | exact H].
Qed.

(** Writing back a copy of such an instance. *)
Lemma keeps_put st0 self' :
  same_binding (tool st0) self' ->
  target_kept_or_entry (tool st0) self' ->
  keeps st0 (put_self self').
Proof.
  intros Hb Ht st (_ & _ & Hnew). unfold put_self. cbn [snd].
  split; [exact Hb |]. split; [exact Ht |]. exact Hnew.
Qed.

Lemma keeps_backend st0 env c :
  (backends_agree (tool st0) = true -> is_adb_call c = is_remote (tool st0)) ->
  keeps st0 (backend env c).
Proof.
  intros Hc st (Hb & Ht & new & Hn & Hr). unfold backend.
  destruct (call_fails env c); cbn [snd].
  - split; [exact Hb |]. split; [exact Ht |]. exists new. split; assumption.
  - split; [exact Hb |]. split; [exact Ht |]. exists (new ++ [c])%list.
    cbn [world perform trace]. rewrite Hn, app_assoc. split; [reflexivity |].
    intros Ha. apply Forall_app. split; [apply Hr, Ha |].
    constructor; [apply Hc, Ha | constructor].
Qed.

Lemma keeps_position_query st0 env :
  (backends_agree (tool st0) = true -> is_remote (tool st0) = false) ->
  keeps st0 (position_query env).
Proof.
  intros Hc st H. unfold position_query.
  pose proof (keeps_backend st0 env Position) as Hk.
  specialize (Hk (fun Ha => eq_sym (Hc Ha)) st H).
  destruct (backend env Position st) as [[u | e] st']; exact Hk.
Qed.

Lemma keeps_scale st0 source x y : keeps st0 (scale source x y).
Proof.
  intros st H. unfold scale, scale_coordinates.
  destruct (negb (_scaling_enabled (tool st))).
  { cbn [snd]. destruct st; exact H. }
  destruct (select_target (self_width (tool st)) (self_height (tool st)))
    as [target | e] eqn:E.
  - cbn [snd]. destruct H as (Hb & Ht & Hnew).
    split; [exact Hb |]. split; [| exact Hnew].
    right. exists target. split; [reflexivity |].
    destruct (select_target_in_table _ _ _ E) as [-> | [-> | ->]]; cbn; auto.
  - cbn [snd]. destruct st; exact H.
Qed.

Lemma keeps_for_each {A} st0 (l : list A) body :
  (forall a, keeps st0 (body a)) -> keeps st0 (for_each l body).
Proof.
  intros Hb. induction l as [| a l IH]; cbn [for_each].
  - apply keeps_ret.
  - apply keeps_mbind; [apply Hb | intros ?; exact IH].
Qed.

Lemma agree_adb self0 self :
  same_binding self0 self ->
  type_ (selected_screen self) = ADB ->
  backends_agree self0 = true -> is_remote self0 = true.
Proof.
  intros (_ & _ & E & _). rewrite E. unfold backends_agree. intros ->. auto.
Qed.

Lemma agree_monitor self0 self :
  same_binding self0 self ->
  type_ (selected_screen self) = MONITOR ->
  backends_agree self0 = true -> is_remote self0 = false.
Proof.
  intros (_ & _ & E & _). rewrite E. unfold backends_agree. intros ->.
  apply negb_true_iff.
Qed.

Lemma remote_some self0 self d :
  same_binding self0 self -> _adb_device self = Some d -> is_remote self0 = true.
Proof. intros (_ & _ & _ & E & _) H. unfold is_remote. now rewrite <- E, H. Qed.

Lemma remote_none self0 self :
  same_binding self0 self -> _adb_device self = None -> is_remote self0 = false.
Proof. intros (_ & _ & _ & E & _) H. unfold is_remote. now rewrite <- E, H. Qed.

Lemma keeps_screenshot_from_monitor st0 env :
  (backends_agree (tool st0) = true -> is_remote (tool st0) = false) ->
  keeps st0 (screenshot_from_monitor env).
Proof.
  intros Hn. unfold screenshot_from_monitor.
  apply keeps_get_self. intros self Hb Ht.
  destruct (capture_region _ _ _ self) as [bbox screen | e];
    [| apply keeps_raise].
  apply keeps_mbind.
  { apply keeps_backend. intros Ha. cbn. symmetry. exact (Hn Ha). }
  intros ?; cbv beta.
  destruct (capture_offsets screen) as [offsets | e]; [| apply keeps_raise].
  apply keeps_mbind.
  { apply keeps_put; [exact Hb | exact Ht]. }
  intros ?; cbv beta. apply keeps_get_self. intros self' Hb' Ht'.
  destruct (target_dimension self'); [apply keeps_ret |].
  cbn [targets_get MAX_SCALING_TARGETS String.eqb Ascii.eqb Bool.eqb].
  apply keeps_put; [exact Hb' |].
  right. eexists. split; [reflexivity |]. cbn. auto.
Qed.

Lemma keeps_screenshot st0 env : keeps st0 (screenshot env).
Proof.
  unfold screenshot. apply keeps_get_self. intros self Hb Ht.
  apply keeps_mbind.
  2:{ intros ?; cbv beta.
      destruct (path_exists env); [apply keeps_ret | apply keeps_raise]. }
  destruct (type_ (selected_screen self)) eqn:Et.
  - apply keeps_screenshot_from_monitor. exact (agree_monitor _ _ Hb Et).
  - apply keeps_backend. intros Ha. cbn. symmetry.
    exact (agree_adb _ _ Hb Et Ha).
Qed.

Lemma same_binding_adb_mouse self0 self p :
  same_binding self0 self -> same_binding self0 (set_adb_mouse self p).
Proof. intros H. exact H. Qed.

Lemma keeps_coordinate_branch st0 env action text coordinate :
  keeps st0 (coordinate_branch env action text coordinate).
Proof.
  unfold coordinate_branch.
  destruct coordinate as [c |]; [| apply keeps_raise].
  destruct text; [apply keeps_raise |].
  destruct c as [| c0 [| c1 [| c2 c]]]; try apply keeps_raise.
  destruct (negb _); [apply keeps_raise |].
  apply keeps_mbind; [apply keeps_scale |]. intros [x y].
  apply keeps_get_self. intros self Hb Ht. cbv zeta.
  destruct (String.eqb action "mouse_move").
  - apply keeps_mbind; [| intros ?; apply keeps_ret].
    destruct (_adb_device self) eqn:Ed.
    + apply keeps_put; [exact Hb | exact Ht].
    + apply keeps_backend. intros _. cbn. symmetry.
      exact (remote_none _ _ Hb Ed).
  - destruct (_adb_device self) eqn:Ed.
    + destruct (_adb_mouse self) as [start_x start_y].
      apply keeps_mbind.
      { apply keeps_backend. intros _. cbn. symmetry.
        exact (remote_some _ _ _ Hb Ed). }
      intros ?. apply keeps_mbind; [| intros ?; apply keeps_raise].
      apply keeps_put; [exact Hb | exact Ht].
    + apply keeps_mbind.
      { apply keeps_position_query. intros _. exact (remote_none _ _ Hb Ed). }
      intros [current_x current_y]. apply keeps_mbind; [| intros ?; apply keeps_ret].
      apply keeps_backend. intros _. cbn. symmetry.
      exact (remote_none _ _ Hb Ed).
Qed.

Lemma keeps_text_branch st0 env action text coordinate :
  keeps st0 (text_branch env action text coordinate).
Proof.
  unfold text_branch.
  destruct text as [text |]; [| apply keeps_raise].
  destruct coordinate; [apply keeps_raise |].
  apply keeps_get_self. intros self Hb Ht.
  destruct (String.eqb action "key").
  - apply keeps_mbind; [| intros ?; apply keeps_ret].
    destruct (_adb_device self) eqn:Ed.
    + apply keeps_for_each. intros _. apply keeps_backend. intros _.
      cbn. symmetry. exact (remote_some _ _ _ Hb Ed).
    + apply keeps_mbind; [| intros ?]; apply keeps_for_each; intros key;
        apply keeps_backend; intros _; cbn; symmetry;
        exact (remote_none _ _ Hb Ed).
  - apply keeps_mbind.
    { destruct (_adb_device self) eqn:Ed; apply keeps_backend; intros _;
        cbn; symmetry;
        [exact (remote_some _ _ _ Hb Ed) | exact (remote_none _ _ Hb Ed)]. }
    intros ?. apply keeps_mbind; [apply keeps_screenshot |].
    intros shot. apply keeps_ret.
Qed.

Lemma keeps_click_branch st0 env action text coordinate :
  keeps st0 (click_branch env action text coordinate).
Proof.
  unfold click_branch.
  destruct text; [apply keeps_raise |].
  destruct coordinate; [apply keeps_raise |].
  destruct (String.eqb action "screenshot"); [apply keeps_screenshot |].
  destruct (String.eqb action "cursor_position").
  - apply keeps_get_self. intros self Hb Ht.
    apply keeps_mbind.
    { destruct (_adb_device self) eqn:Ed; [apply keeps_ret |].
      apply keeps_position_query. intros _. exact (remote_none _ _ Hb Ed). }
    intros [x y]. apply keeps_mbind; [apply keeps_scale |].
    intros [x' y']. apply keeps_ret.
  - apply keeps_get_self. intros self Hb Ht.
    apply keeps_mbind; [| intros ?; apply keeps_ret].
    destruct (String.eqb action "left_click").
    { destruct (_adb_device self) eqn:Ed.
      - destruct (_adb_mouse self) as [x y]. apply keeps_backend. intros _.
        cbn. symmetry. exact (remote_some _ _ _ Hb Ed).
      - apply keeps_backend. intros _. cbn. symmetry.
        exact (remote_none _ _ Hb Ed). }
    destruct (String.eqb action "right_click"); [apply keeps_raise |].
    destruct (String.eqb action "middle_click"); [apply keeps_raise |].
    destruct (String.eqb action "double_click"); [apply keeps_raise |].
    apply keeps_ret.
Qed.

(** Every call of the tool, whatever its arguments and its outcome. *)
Lemma call_extends env action text coordinate st :
  extends st (snd (call env action text coordinate st)).
Proof.
  assert (H : keeps st (call env action text coordinate)).
  { unfold call.
    destruct (action_in action _); [apply keeps_coordinate_branch |].
    destruct (action_in action _); [apply keeps_text_branch |].
    destruct (action_in action _); [apply keeps_click_branch |].
    apply keeps_raise. }
  apply H, extends_refl.
Qed.

Lemma init_backends_agree screen devices self :
  init screen devices = Ok self ->
  backends_agree self = true /\
  selected_screen self = screen /\
  is_remote self
    = match type_ screen with ADB => true | MONITOR => false end.
Proof.
  unfold init. destruct (type_ screen) eqn:Et.
  - intros H. injection H as <-. unfold backends_agree. cbn. rewrite Et. auto.
  - destruct devices as [[| d l] | e]; cbn [bind]; try discriminate.
    destruct (name screen); [| discriminate].
    destruct (find _ _); [| discriminate].
    intros H. injection H as <-. unfold backends_agree. cbn. rewrite Et. auto.
Qed.

(** X12: what no call changes.  Whatever the action, the arguments, the
    environment and the outcome, the width, the height, the selected
    screen, the bound device and the scaling flag of the instance are
    after the call what they were before; the target is what it was or an
    entry of the table; and the calls made before remain, in order, at the
    head of the trace. *)
Theorem call_keeps_binding env action text coordinate st :
  let st' := snd (call env action text coordinate st) in
  self_width (tool st') = self_width (tool st) /\
  self_height (tool st') = self_height (tool st) /\
  selected_screen (tool st') = selected_screen (tool st) /\
  _adb_device (tool st') = _adb_device (tool st) /\
  _scaling_enabled (tool st') = _scaling_enabled (tool st) /\
  (target_dimension (tool st') = target_dimension (tool st) \/
   exists d, target_dimension (tool st') = Some d /\
             In d [XGA; WXGA; FWXGA]) /\
  exists new, trace (world st') = (trace (world st) ++ new)%list.
Proof.
  destruct (call_extends env action text coordinate st)
    as ((B1 & B2 & B3 & B4 & B5) & Ht & new & Hn & _).
  cbv zeta. do 5 (split; [assumption |]). split; [exact Ht |].
  exists new. exact Hn.
Qed.

(** X13: one backend per instance.  An instance built by the constructor
    for a remote screen calls the device only, and one built for a monitor
    calls it never, at any later point of its life, whatever the action
    and its outcome. *)
Theorem calls_go_to_the_bound_backend
    screen devices self env action text coordinate st :
  init screen devices = Ok self ->
  same_binding self (tool st) ->
  exists new,
    trace (world (snd (call env action text coordinate st)))
      = (trace (world st) ++ new)%list /\
    Forall (fun c =>
              is_adb_call c
              = match type_ screen with ADB => true | MONITOR => false end)
      new.
Proof.
  intros Hi Hb.
  destruct (init_backends_agree _ _ _ Hi) as (Ha & Hs & Hr).
  destruct (call_extends env action text coordinate st)
    as (_ & _ & new & Hn & Hf).
  exists new. split; [exact Hn |].
  destruct Hb as (_ & _ & E3 & E4 & _).
  assert (Hr' : is_remote (tool st) = is_remote self).
  { unfold is_remote. now rewrite E4. }
  assert (Ha' : backends_agree (tool st) = true).
  { unfold backends_agree. rewrite E3, Hr'. exact Ha. }
  rewrite <- Hr, <- Hr'. apply Hf, Ha'.
Qed.

Lemma calls_go_to_the_bound_backend_witness :
  exists new,
    trace (world (snd (call quiet_env "type" (Some "hello") None
                         (start (adb_tool 1080 1920 "emulator-5554")))))
      = ([] ++ new)%list /\
    Forall (fun c => is_adb_call c = true) new.
Proof.
  apply (calls_go_to_the_bound_backend
           (adb_screen 1080 1920 "emulator-5554")
           (Ok [mkAdbDevice "emulator-5554" (Ok (1080, 1920))])
           (adb_tool 1080 1920 "emulator-5554")
           quiet_env "type" (Some "hello") None
           (start (adb_tool 1080 1920 "emulator-5554"))).
  - reflexivity.
  - repeat split.
Defined.

End DispatcherInvariants.


(** ** The pointer on the two backends *)

Module Pointer.
Import Float FloatFacts ScalerFacts ScalerExact.
Local Open Scope string_scope.
Local Open Scope Z_scope.

(** Both directions on one display: a logical coordinate within the
    target goes to a native coordinate on the display, which goes back to
    it. *)
Lemma scale_with_roundtrip target w h lx ly :
  target = XGA \/ target = WXGA \/ target = FWXGA ->
  width target <= w <= 1048576 ->
  height target <= h <= 1048576 ->
  0 <= lx <= width target ->
  0 <= ly <= height target ->
  exists x y,
    scale_with target w h API lx ly = Ok (x, y) /\
    0 <= x <= w /\ 0 <= y <= h /\
    scale_with target w h COMPUTER x y = Ok (lx, ly).
Proof.
  intros Htab Hw Hh Hx Hy.
  assert (Hdim : 0 < width target <= 1366 /\ 0 < height target <= 1366).
  { destruct Htab as [-> | [-> | ->]]; cbn; lia. }
  destruct Hdim as [Hdw Hdh].
  destruct (axis_up_down (width target) w lx)
    as (sx & qx & px & Esx & Edx & HX & Emx & Hrx); [lia | lia | lia |].
  destruct (axis_up_down (height target) h ly)
    as (sy & qy & py & Esy & Edy & HY & Emy & Hry); [lia | lia | lia |].
  exists (round_half_even qx), (round_half_even qy).
  split; [| split; [assumption | split; [assumption |]]].
  - unfold scale_with. rewrite Esx, Esy. cbn [bind].
    replace (lx >? w) with false
      by (symmetry; rewrite Z.gtb_ltb; apply Z.ltb_ge; lia).
    replace (ly >? h) with false
      by (symmetry; rewrite Z.gtb_ltb; apply Z.ltb_ge; lia).
    cbn [orb]. rewrite Edx, Edy. reflexivity.
  - unfold scale_with. rewrite Esx, Esy. cbn [bind].
    rewrite Emx, Emy. cbn [bind py_round]. rewrite Hrx, Hry. reflexivity.
Qed.

Lemma mbind_ok {A B} (m : M A) (k : A -> M B) st a st' :
  m st = (Ok a, st') -> mbind m k st = k a st'.
Proof. intros H. unfold mbind. now rewrite H. Qed.

Lemma backend_ok env c st :
  call_fails env c = false ->
  backend env c st = (Ok tt, mkSt (tool st) (perform c (world st))).
Proof. intros H. unfold backend. now rewrite H. Qed.

(** X14: the pointer of a remote instance is kept by the tool.  With no
    offsets and a target no larger than the display, [mouse_move] to a
    logical coordinate within the target calls nothing on the device and
    records the scaled coordinate, which is on the display;
    [cursor_position] then reports exactly the logical coordinate that was
    given, and [left_click] taps at the recorded coordinate. *)
Theorem remote_pointer_is_virtual env st serial target c0 c1 :
  _adb_device (tool st) = Some serial ->
  offset_x (tool st) = 0 -> offset_y (tool st) = 0 ->
  select_target (self_width (tool st)) (self_height (tool st)) = Ok target ->
  width target <= self_width (tool st) <= 1048576 ->
  height target <= self_height (tool st) <= 1048576 ->
  0 <= c0 <= width target ->
  0 <= c1 <= height target ->
  exists x y st1,
    call env "mouse_move" None (Some [c0; c1]) st
      = (Ok (mkToolResult
               (Some ("Moved mouse to (" ++ str_int x ++ ", " ++ str_int y ++ ")"))
               None None), st1) /\
    world st1 = world st /\
    _adb_mouse (tool st1) = (x, y) /\
    0 <= x <= self_width (tool st) /\ 0 <= y <= self_height (tool st) /\
    call env "cursor_position" None None st1
      = (Ok (mkToolResult (Some ("X=" ++ str_int c0 ++ ",Y=" ++ str_int c1))
               None None), st1) /\
    (call_fails env (AdbShell ("input tap " ++ str_int x ++ " " ++ str_int y))
       = false ->
     call env "left_click" None None st1
       = (Ok (mkToolResult (Some "Performed left_click") None None),
          mkSt (tool st1)
            (mkWorld
               (trace (world st)
                  ++ [AdbShell ("input tap " ++ str_int x ++ " " ++ str_int y)])
               (cursor (world st))))).
Proof.
  intros Hd Hox Hoy Ht Hw Hh Hx Hy.
  destruct st as [self wd]. cbn [tool world] in *.
  assert (Hsc : exists x y self',
             scale_coordinates self API c0 c1 = (Ok (x, y), self') /\
             0 <= x <= self_width self /\ 0 <= y <= self_height self /\
             scale_coordinates (set_adb_mouse self' (x, y)) COMPUTER x y
               = (Ok (c0, c1), set_adb_mouse self' (x, y)) /\
             _adb_device self' = Some serial /\
             offset_x self' = 0 /\ offset_y self' = 0).
  { destruct (_scaling_enabled self) eqn:En.
    - destruct (scale_with_roundtrip target _ _ c0 c1
                  (select_target_in_table _ _ _ Ht) Hw Hh Hx Hy)
        as (x & y & Hup & Hbx & Hby & Hdown).
      exists x, y, (set_target_dimension self target).
      rewrite (scale_coordinates_enabled self _ _ _ target En Ht), Hup.
      split; [reflexivity |]. split; [exact Hbx |]. split; [exact Hby |].
      split; [| repeat split; assumption].
      rewrite (scale_coordinates_enabled
                 (set_adb_mouse (set_target_dimension self target) (x, y))
                 COMPUTER x y target En Ht).
      cbn [set_adb_mouse set_target_dimension self_width self_height].
      rewrite Hdown. reflexivity.
    - exists c0, c1, self.
      rewrite (scale_coordinates_disabled self API c0 c1 En).
      rewrite (scale_coordinates_disabled (set_adb_mouse self (c0, c1))
                 COMPUTER c0 c1 En).
      repeat split; try assumption; lia. }
  destruct Hsc as (x & y & self' & Hup & Hbx & Hby & Hdown & Hd' & Hox' & Hoy').
  exists x, y, (mkSt (set_adb_mouse self' (x, y)) wd).
  assert (H0 : (0 <=? c0) = true) by (apply Z.leb_le; lia).
  assert (H1 : (0 <=? c1) = true) by (apply Z.leb_le; lia).
  split; [| split; [reflexivity | split; [reflexivity |
            split; [exact Hbx | split; [exact Hby | split]]]]].
  - change (call env "mouse_move" None (Some [c0; c1]) (mkSt self wd))
      with (coordinate_branch env "mouse_move" None (Some [c0; c1]) (mkSt self wd)).
    unfold coordinate_branch. cbn [forallb]. rewrite H0, H1. cbn [andb negb].
    unfold mbind at 1. unfold scale at 1. cbn [tool world]. rewrite Hup.
    unfold mbind at 1. unfold get_self at 1. cbn [tool].
    rewrite Hox', Hoy', !Z.add_0_r. cbn [String.eqb Ascii.eqb Bool.eqb].
    rewrite Hd'. reflexivity.
  - change (call env "cursor_position" None None ?s)
      with (click_branch env "cursor_position" None None s).
    unfold click_branch. cbn [String.eqb Ascii.eqb Bool.eqb].
    unfold mbind at 1. unfold get_self at 1. cbn [tool].
    cbn [_adb_device set_adb_mouse _adb_mouse]. rewrite Hd'.
    unfold mbind at 1. unfold ret at 1.
    unfold mbind at 1. unfold scale at 1. cbn [tool world].
    rewrite Hdown. reflexivity.
  - intros Hf.
    change (call env "left_click" None None ?s)
      with (click_branch env "left_click" None None s).
    unfold click_branch. cbn [String.eqb Ascii.eqb Bool.eqb].
    unfold mbind at 1. unfold get_self at 1. cbn [tool].
    cbn [_adb_device set_adb_mouse _adb_mouse]. rewrite Hd'.
    unfold mbind at 1. rewrite (backend_ok _ _ _ Hf). reflexivity.
Qed.

Lemma remote_pointer_is_virtual_witness :
  exists x y st1,
    call quiet_env "mouse_move" None (Some [540; 400])
      (start (adb_tool 1440 2560 "emulator-5554"))
      = (Ok (mkToolResult
               (Some ("Moved mouse to (" ++ str_int x ++ ", " ++ str_int y ++ ")"))
               None None), st1) /\
    call quiet_env "cursor_position" None None st1
      = (Ok (mkToolResult (Some "X=540,Y=400") None None), st1).
Proof.
  assert (Ht : select_target 1440 2560 = Ok WXGA) by (vm_compute; reflexivity).
  destruct (remote_pointer_is_virtual quiet_env
              (start (adb_tool 1440 2560 "emulator-5554")) "emulator-5554"
              WXGA 540 400 eq_refl eq_refl eq_refl Ht)
    as (x & y & st1 & Hm & _ & _ & _ & _ & Hc & _);
    try (cbn [start tool adb_tool self_width self_height width height WXGA]; lia).
  exists x, y, st1. split; [exact Hm | exact Hc].
Defined.

(** The loop of the remote [key] branch when the command goes through. *)
Lemma for_each_command {A} env command (l : list A) st :
  call_fails env (AdbShell command) = false ->
  for_each l (fun _ => backend env (AdbShell command)) st
    = (Ok tt,
       mkSt (tool st)
         (mkWorld (trace (world st) ++ repeat (AdbShell command) (List.length l))
            (cursor (world st)))).
Proof.
  intros Hf. revert st. induction l as [| a l IH]; intros st.
  - cbn [for_each List.length repeat]. rewrite app_nil_r.
    destruct st as [t [tr cu]]. reflexivity.
  - cbn [for_each]. unfold mbind at 1. rewrite (backend_ok _ _ _ Hf), IH.
    cbn [tool world perform trace cursor List.length repeat].
    now rewrite <- app_assoc.
Qed.

(** X15: the remote [key] action sends, for each key of the combination,
    the one command [input keyevent] followed by all the keys as they were
    written, separated by spaces: as many identical commands as there are
    keys. *)
Theorem remote_key_repeats_whole_combination env st serial text :
  _adb_device (tool st) = Some serial ->
  let keys := split "+" text in
  let command := AdbShell ("input keyevent " ++ join " " keys) in
  call_fails env command = false ->
  call env "key" (Some text) None st
    = (Ok (mkToolResult (Some ("Pressed keys: " ++ text)) None None),
       mkSt (tool st)
         (mkWorld (trace (world st) ++ repeat command (List.length keys))
            (cursor (world st)))).
Proof.
  intros Hd keys command Hf.
  change (call env "key" (Some text) None st)
    with (text_branch env "key" (Some text) None st).
  unfold text_branch. unfold mbind at 1. unfold get_self at 1.
  cbn [String.eqb Ascii.eqb Bool.eqb]. rewrite Hd.
  unfold mbind at 1. fold keys.
  rewrite (for_each_command env _ keys st Hf). reflexivity.
Qed.

Lemma remote_key_repeats_whole_combination_witness :
  call quiet_env "key" (Some "ctrl+c") None (start (adb_tool 1080 1920 "emulator-5554"))
    = (Ok (mkToolResult (Some "Pressed keys: ctrl+c") None None),
       mkSt (adb_tool 1080 1920 "emulator-5554")
         (mkWorld [AdbShell "input keyevent ctrl c"; AdbShell "input keyevent ctrl c"]
            (0, 0))).
Proof.
  exact (remote_key_repeats_whole_combination quiet_env
           (start (adb_tool 1080 1920 "emulator-5554")) "emulator-5554" "ctrl+c"
           eq_refl eq_refl).
Defined.

(** X20: the pointer of a native instance.  With no offsets, a target no
    larger than the display and collaborators that do not fail,
    [mouse_move] to a logical coordinate within the target moves the
    cursor to the scaled coordinate, which is on the display, and
    [cursor_position] then reports exactly the logical coordinate that was
    given. *)
Theorem native_pointer_echo env st target c0 c1 :
  _adb_device (tool st) = None ->
  offset_x (tool st) = 0 -> offset_y (tool st) = 0 ->
  (forall c, call_fails env c = false) ->
  select_target (self_width (tool st)) (self_height (tool st)) = Ok target ->
  width target <= self_width (tool st) <= 1048576 ->
  height target <= self_height (tool st) <= 1048576 ->
  0 <= c0 <= width target ->
  0 <= c1 <= height target ->
  exists x y st1,
    call env "mouse_move" None (Some [c0; c1]) st
      = (Ok (mkToolResult
               (Some ("Moved mouse to (" ++ str_int x ++ ", " ++ str_int y ++ ")"))
               None None), st1) /\
    trace (world st1) = (trace (world st) ++ [MoveTo x y])%list /\
    cursor (world st1) = (x, y) /\
    0 <= x <= self_width (tool st) /\ 0 <= y <= self_height (tool st) /\
    call env "cursor_position" None None st1
      = (Ok (mkToolResult (Some ("X=" ++ str_int c0 ++ ",Y=" ++ str_int c1))
               None None),
         mkSt (tool st1) (mkWorld (trace (world st1) ++ [Position]) (x, y))).
Proof.
  intros Hd Hox Hoy Hq Ht Hw Hh Hx Hy.
  destruct st as [self wd]. cbn [tool world] in *.
  assert (Hsc : exists x y self',
             scale_coordinates self API c0 c1 = (Ok (x, y), self') /\
             0 <= x <= self_width self /\ 0 <= y <= self_height self /\
             scale_coordinates self' COMPUTER x y = (Ok (c0, c1), self') /\
             _adb_device self' = None /\
             offset_x self' = 0 /\ offset_y self' = 0).
  { destruct (_scaling_enabled self) eqn:En.
    - destruct (scale_with_roundtrip target _ _ c0 c1
                  (select_target_in_table _ _ _ Ht) Hw Hh Hx Hy)
        as (x & y & Hup & Hbx & Hby & Hdown).
      exists x, y, (set_target_dimension self target).
      rewrite (scale_coordinates_enabled self _ _ _ target En Ht), Hup.
      split; [reflexivity |]. split; [exact Hbx |]. split; [exact Hby |].
      split; [| repeat split; assumption].
      rewrite (scale_coordinates_enabled (set_target_dimension self target)
                 COMPUTER x y target En Ht).
      cbn [set_target_dimension self_width self_height].
      rewrite Hdown. reflexivity.
    - exists c0, c1, self.
      rewrite !(scale_coordinates_disabled self _ _ _ En).
      repeat split; try assumption; lia. }
  destruct Hsc as (x & y & self' & Hup & Hbx & Hby & Hdown & Hd' & Hox' & Hoy').
  exists x, y, (mkSt self' (perform (MoveTo x y) wd)).
  assert (H0 : (0 <=? c0) = true) by (apply Z.leb_le; lia).
  assert (H1 : (0 <=? c1) = true) by (apply Z.leb_le; lia).
  split; [| split; [reflexivity | split; [reflexivity |
            split; [exact Hbx | split; [exact Hby |]]]]].
  - change (call env "mouse_move" None (Some [c0; c1]) (mkSt self wd))
      with (coordinate_branch env "mouse_move" None (Some [c0; c1]) (mkSt self wd)).
    unfold coordinate_branch. cbn [forallb]. rewrite H0, H1. cbn [andb negb].
    unfold mbind at 1. unfold scale at 1. cbn [tool world]. rewrite Hup.
    unfold mbind at 1. unfold get_self at 1. cbn [tool].
    rewrite Hox', Hoy', !Z.add_0_r. cbn [String.eqb Ascii.eqb Bool.eqb].
    rewrite Hd'. unfold mbind at 1. rewrite (backend_ok _ _ _ (Hq _)).
    reflexivity.
  - change (call env "cursor_position" None None ?s)
      with (click_branch env "cursor_position" None None s).
    unfold click_branch. cbn [String.eqb Ascii.eqb Bool.eqb].
    unfold mbind at 1. unfold get_self at 1. cbn [tool].
    rewrite Hd'. unfold mbind at 1. unfold position_query.
    rewrite (backend_ok _ _ _ (Hq _)).
    cbn [tool world perform cursor trace].
    unfold mbind at 1. unfold scale at 1. cbn [tool world].
    rewrite Hdown. reflexivity.
Qed.

Lemma native_pointer_echo_witness :
  exists x y st1,
    call quiet_env "mouse_move" None (Some [683; 384])
      (start (native_tool 1920 1080))
      = (Ok (mkToolResult
               (Some ("Moved mouse to (" ++ str_int x ++ ", " ++ str_int y ++ ")"))
               None None), st1) /\
    fst (call quiet_env "cursor_position" None None st1)
      = Ok (mkToolResult (Some "X=683,Y=384") None None).
Proof.
  assert (Ht : select_target 1920 1080 = Ok FWXGA) by (vm_compute; reflexivity).
  destruct (native_pointer_echo quiet_env (start (native_tool 1920 1080))
              FWXGA 683 384 eq_refl eq_refl eq_refl (fun _ => eq_refl) Ht)
    as (x & y & st1 & Hm & _ & _ & _ & _ & Hc);
    try (cbn [start tool native_tool self_width self_height width height FWXGA];
         lia).
  exists x, y, st1. split; [exact Hm |]. rewrite Hc. reflexivity.
Defined.

(** The native screenshot when nothing fails and the platform branch has
    bound [screen]: the capture, then the offsets, then the target when
    none was set. *)
Lemma screenshot_native env st bbox m :
  type_ (selected_screen (tool st)) = MONITOR ->
  capture_region (platform_system env) (platform_monitors env)
    (xrandr_resolution env) (tool st) = Region bbox (Some m) ->
  call_fails env GrabScreen = false ->
  path_exists env = true ->
  exists self1,
    screenshot env st
      = (Ok (mkToolResult None None (Some (image_base64 env))),
         mkSt self1 (perform GrabScreen (world st))) /\
    same_binding (tool st) self1 /\
    offset_x self1 = m_x m /\
    offset_y self1 = m_y m.
Proof.
  intros Hm Hr Hg Hp. unfold screenshot.
  unfold mbind at 1. unfold get_self at 1. rewrite Hm. cbv iota.
  unfold screenshot_from_monitor.
  unfold mbind at 1. unfold mbind at 1. unfold get_self at 1.
  rewrite Hr. cbv iota.
  unfold mbind. rewrite (backend_ok _ _ _ Hg).
  unfold put_self, get_self.
  cbn [tool world target_dimension set_offset capture_offsets].
  destruct (target_dimension (tool st)) as [d |].
  - unfold ret at 1. rewrite Hp. unfold ret.
    eexists. split; [reflexivity |]. repeat split.
  - cbn [targets_get MAX_SCALING_TARGETS String.eqb Ascii.eqb Bool.eqb].
    cbn [world]. rewrite Hp. unfold ret.
    eexists. split; [reflexivity |]. repeat split.
Qed.

(** The native screenshot when the platform branch leaves [screen]
    unbound: the capture goes through and the assignment of the offsets
    raises. *)
Lemma screenshot_unbound env st bbox :
  type_ (selected_screen (tool st)) = MONITOR ->
  capture_region (platform_system env) (platform_monitors env)
    (xrandr_resolution env) (tool st) = Region bbox None ->
  call_fails env GrabScreen = false ->
  screenshot env st
    = (Raise (UnboundLocalError "screen"),
       mkSt (tool st) (perform GrabScreen (world st))).
Proof.
  intros Hm Hr Hg. unfold screenshot.
  unfold mbind at 1. unfold get_self at 1. rewrite Hm. cbv iota.
  unfold screenshot_from_monitor.
  unfold mbind at 1. unfold mbind at 1. unfold get_self at 1.
  rewrite Hr. cbv iota.
  unfold mbind. rewrite (backend_ok _ _ _ Hg). reflexivity.
Qed.

(** X21: the offsets.  On a native instance whose collaborators do not
    fail, once the platform branch of the capture has chosen a region:
    when it bound a monitor (Windows, macOS), the screenshot returns and
    a following [mouse_move] to a logical coordinate within the target (a
    target no larger than the display) moves the cursor by the scaled
    coordinate from the origin of that monitor, within the width and the
    height of the instance from it; when it bound none (any other system),
    the screenshot raises [UnboundLocalError] after the capture and leaves
    the instance as it was. *)
Theorem pointer_lands_on_captured_monitor env st target c0 c1 bbox screen :
  type_ (selected_screen (tool st)) = MONITOR ->
  _adb_device (tool st) = None ->
  (forall c, call_fails env c = false) ->
  path_exists env = true ->
  capture_region (platform_system env) (platform_monitors env)
    (xrandr_resolution env) (tool st) = Region bbox screen ->
  select_target (self_width (tool st)) (self_height (tool st)) = Ok target ->
  width target <= self_width (tool st) <= 1048576 ->
  height target <= self_height (tool st) <= 1048576 ->
  0 <= c0 <= width target ->
  0 <= c1 <= height target ->
  (forall m,
      screen = Some m ->
      exists shot st1 x y st2,
        call env "screenshot" None None st = (Ok shot, st1) /\
        call env "mouse_move" None (Some [c0; c1]) st1
          = (Ok (mkToolResult
                   (Some ("Moved mouse to (" ++ str_int x ++ ", " ++ str_int y
                            ++ ")"))
                   None None), st2) /\
        trace (world st2) = (trace (world st) ++ [GrabScreen; MoveTo x y])%list /\
        m_x m <= x <= m_x m + self_width (tool st) /\
        m_y m <= y <= m_y m + self_height (tool st)) /\
  (screen = None ->
   call env "screenshot" None None st
     = (Raise (UnboundLocalError "screen"),
        mkSt (tool st) (mkWorld (trace (world st) ++ [GrabScreen])
                          (cursor (world st))))).
Proof.
  intros Hm Hd Hq Hp Hr Ht Hw Hh Hx Hy. split.
  2:{ intros ->.
      change (call env "screenshot" None None st) with (screenshot env st).
      exact (screenshot_unbound env st bbox Hm Hr (Hq _)). }
  intros m ->.
  destruct (screenshot_native env st bbox m Hm Hr (Hq _) Hp)
    as (self1 & Hs & (B1 & B2 & B3 & B4 & B5) & Hox & Hoy).
  assert (Hsc : exists x y self2,
             scale_coordinates self1 API c0 c1 = (Ok (x, y), self2) /\
             0 <= x <= self_width (tool st) /\ 0 <= y <= self_height (tool st) /\
             _adb_device self2 = None /\
             offset_x self2 = m_x m /\ offset_y self2 = m_y m).
  { rewrite <- B1, <- B2 in *. destruct (_scaling_enabled self1) eqn:En.
    - destruct (scale_with_roundtrip target _ _ c0 c1
                  (select_target_in_table _ _ _ Ht) Hw Hh Hx Hy)
        as (x & y & Hup & Hbx & Hby & _).
      exists x, y, (set_target_dimension self1 target).
      rewrite (scale_coordinates_enabled self1 _ _ _ target En Ht), Hup.
      repeat split; try assumption; try lia. cbn. congruence.
    - exists c0, c1, self1.
      rewrite (scale_coordinates_disabled self1 _ _ _ En).
      repeat split; try assumption; try lia. congruence. }
  destruct Hsc as (x & y & self2 & Hup & Hbx & Hby & Hd2 & Hox2 & Hoy2).
  assert (H0 : (0 <=? c0) = true) by (apply Z.leb_le; lia).
  assert (H1 : (0 <=? c1) = true) by (apply Z.leb_le; lia).
  eexists. exists (mkSt self1 (perform GrabScreen (world st))).
  exists (x + m_x m), (y + m_y m).
  exists (mkSt self2 (perform (MoveTo (x + m_x m) (y + m_y m))
                        (perform GrabScreen (world st)))).
  split; [| split; [| split; [| split; lia]]].
  - change (call env "screenshot" None None st) with (screenshot env st).
    exact Hs.
  - change (call env "mouse_move" None (Some [c0; c1]) ?s)
      with (coordinate_branch env "mouse_move" None (Some [c0; c1]) s).
    unfold coordinate_branch. cbn [forallb]. rewrite H0, H1. cbn [andb negb].
    unfold mbind at 1. unfold scale at 1. cbn [tool world]. rewrite Hup.
    unfold mbind at 1. unfold get_self at 1. cbn [tool].
    rewrite Hox2, Hoy2. cbn [String.eqb Ascii.eqb Bool.eqb].
    rewrite Hd2. unfold mbind at 1. rewrite (backend_ok _ _ _ (Hq _)).
    reflexivity.
  - cbn [world perform trace]. now rewrite <- app_assoc.
Qed.

Lemma pointer_lands_on_captured_monitor_witness :
  let m0 := mkMonitor 0 0 1280 1024 true in
  let m1 := mkMonitor 1280 0 1920 1080 false in
  let env := mkEnv (fun _ => false) Windows (Ok [m0; m1]) (Ok (1280, 1024))
               "./tmp/outputs/screenshot.png" true "iVBORw0KGgo=" in
  let self := mkComputerTool 1920 1080 0 0 (monitor_screen 1 m1 "Right") true
                None (0, 0) None in
  exists shot st1 x y st2,
    call env "screenshot" None None (start self) = (Ok shot, st1) /\
    call env "mouse_move" None (Some [683; 384]) st1
      = (Ok (mkToolResult
               (Some ("Moved mouse to (" ++ str_int x ++ ", " ++ str_int y ++ ")"))
               None None), st2) /\
    trace (world st2) = ([] ++ [GrabScreen; MoveTo x y])%list /\
    1280 <= x <= 1280 + 1920 /\
    0 <= y <= 0 + 1080.
Proof.
  cbv zeta.
  assert (Ht : select_target 1920 1080 = Ok FWXGA) by (vm_compute; reflexivity).
  refine (proj1 (pointer_lands_on_captured_monitor
                   (mkEnv (fun _ => false) Windows
                      (Ok [mkMonitor 0 0 1280 1024 true;
                           mkMonitor 1280 0 1920 1080 false])
                      (Ok (1280, 1024))
                      "./tmp/outputs/screenshot.png" true "iVBORw0KGgo=")
                   (start (mkComputerTool 1920 1080 0 0
                             (monitor_screen 1 (mkMonitor 1280 0 1920 1080 false)
                                "Right")
                             true None (0, 0) None))
                   FWXGA 683 384 _ _
                   eq_refl eq_refl (fun _ => eq_refl) eq_refl eq_refl Ht
                   _ _ _ _)
            (mkMonitor 1280 0 1920 1080 false) eq_refl);
    cbn [start tool self_width self_height width height FWXGA]; lia.
Defined.

End Pointer.


(** ** The capture of a monitor *)

Module Capture.
Import RegistryOrder.
Local Open Scope string_scope.
Local Open Scope Z_scope.

(** X16: the region captured for an enumerated monitor.  For the
    instance bound to the [k]-th native display of an enumeration, on
    Windows and macOS, while the platform reports the same monitors the
    region is the rectangle of the [k]-th monitor from the left, of
    exactly the width and height of the instance, and the offsets are its
    origin; once [k] monitors or fewer are reported the capture raises
    the [IndexError]; on any other system no monitor is bound and the
    offsets cannot be assigned. *)
Theorem capture_region_of_enumerated_display
    ms device_list devices screens pi k s self system primary_resolution :
  get_screen_details (Ok ms) device_list = Ok (screens, pi) ->
  (k < List.length ms)%nat ->
  nth_error screens k = Some s ->
  init s devices = Ok self ->
  (system <> Linux ->
   exists m,
     nth_error (sorted_by_x ms) k = Some m /\
     capture_region system (Ok ms) primary_resolution self
       = Region (m_x m, m_y m, m_x m + self_width self, m_y m + self_height self)
           (Some m) /\
     capture_offsets (Some m) = Ok (m_x m, m_y m)) /\
  (forall fewer,
      system <> Linux -> (List.length fewer <= k)%nat ->
      capture_region system (Ok fewer) primary_resolution self
        = RegionRaise (IndexError "Invalid screen index.")) /\
  (forall bbox screen,
      capture_region Linux (Ok ms) primary_resolution self = Region bbox screen ->
      capture_offsets screen = Raise (UnboundLocalError "screen")).
Proof.
  intros H Hk Hs Hi.
  destruct (native_nth _ _ _ _ k H Hk) as (m & Hm & Hn).
  rewrite Hn in Hs. injection Hs as <-.
  unfold init in Hi. cbn [type_ monitor_screen] in Hi. injection Hi as <-.
  split; [| split].
  - intros Hsys. exists m. split; [exact Hm |]. split; [| reflexivity].
    assert (Hc : capture_region Windows (Ok ms) primary_resolution
                   (mkComputerTool (m_width m) (m_height m) 0 0
                      (monitor_screen (Z.of_nat k) m
                         (layout_at (Z.of_nat (List.length ms)) (Z.of_nat k)))
                      true None (0, 0) None)
                 = Region (m_x m, m_y m, m_x m + m_width m, m_y m + m_height m)
                     (Some m)).
    { unfold capture_region. cbn [selected_screen index monitor_screen].
      replace (Z.of_nat k <? 0) with false by (symmetry; apply Z.ltb_ge; lia).
      replace (Z.of_nat k >=? Z.of_nat (List.length ms)) with false
        by (symmetry; rewrite Z.geb_leb; apply Z.leb_gt; lia).
      cbn [orb]. rewrite Nat2Z.id, Hm. reflexivity. }
    destruct system; [exact Hc | exact Hc | contradiction].
  - intros fewer Hsys Hf.
    assert (Hc : capture_region Windows (Ok fewer) primary_resolution
                   (mkComputerTool (m_width m) (m_height m) 0 0
                      (monitor_screen (Z.of_nat k) m
                         (layout_at (Z.of_nat (List.length ms)) (Z.of_nat k)))
                      true None (0, 0) None)
                 = RegionRaise (IndexError "Invalid screen index.")).
    { unfold capture_region. cbn [selected_screen index monitor_screen].
      replace (Z.of_nat k >=? Z.of_nat (List.length fewer)) with true
        by (symmetry; rewrite Z.geb_leb; apply Z.leb_le; lia).
      rewrite orb_true_r. reflexivity. }
    destruct system; [exact Hc | exact Hc | contradiction].
  - intros bbox screen. unfold capture_region.
    destruct primary_resolution as [[w h] | e]; [| discriminate].
    intros Hr. injection Hr as _ <-. reflexivity.
Qed.

Lemma capture_region_of_enumerated_display_witness :
  let m0 := mkMonitor 0 0 1920 1080 true in
  let m1 := mkMonitor 1920 0 1280 1024 false in
  exists m,
    nth_error (sorted_by_x [m1; m0]) 1 = Some m /\
    capture_region Windows (Ok [m1; m0]) (Ok (0, 0))
      (mkComputerTool 1280 1024 0 0 (monitor_screen 1 m1 "Right") true None
         (0, 0) None)
      = Region (m_x m, m_y m, m_x m + 1280, m_y m + 1024) (Some m) /\
    capture_offsets (Some m) = Ok (m_x m, m_y m).
Proof.
  cbv zeta.
  apply (proj1 (capture_region_of_enumerated_display
                  [mkMonitor 1920 0 1280 1024 false; mkMonitor 0 0 1920 1080 true]
                  (Ok []) (Ok []) _ _ 1%nat _ _ Windows (Ok (0, 0))
                  eq_refl ltac:(cbn; lia) eq_refl eq_refl)).
  discriminate.
Defined.

(** X17: padding to 16:10.  The padded image has the height of the
    screenshot and the width [floor (16 height / 10)]; each of its pixels
    is the pixel of the screenshot at that position, or white to the right
    of the screenshot; and the screenshot is kept whole exactly when it is
    no wider than 16:10: a wider one loses its right-hand columns. *)
Theorem padding_image_pads_or_crops screenshot :
  0 <= im_height screenshot ->
  let padded := padding_image screenshot in
  im_height padded = im_height screenshot /\
  10 * im_width padded <= 16 * im_height screenshot < 10 * im_width padded + 10 /\
  (forall x y,
      0 <= x < im_width padded -> 0 <= y < im_height padded ->
      im_pixel padded x y
        = if x <? im_width screenshot then im_pixel screenshot x y
          else (255, 255, 255)) /\
  (im_width screenshot <= im_width padded
   <-> 10 * im_width screenshot <= 16 * im_height screenshot).
Proof.
  intros Hh. cbv zeta. unfold padding_image, paste, Image_new.
  cbn [im_width im_height im_pixel].
  pose proof (Z.div_mod (im_height screenshot * 16) 10 ltac:(lia)) as Hd.
  pose proof (Z.mod_pos_bound (im_height screenshot * 16) 10 ltac:(lia)) as Hm.
  split; [reflexivity |]. split; [lia |]. split; [| lia].
  intros x y Hx Hy. rewrite !Z.add_0_l, !Z.sub_0_r.
  replace (0 <=? x) with true by (symmetry; apply Z.leb_le; lia).
  replace (0 <=? y) with true by (symmetry; apply Z.leb_le; lia).
  replace (y <? im_height screenshot) with true by (symmetry; apply Z.ltb_lt; lia).
  cbn [andb]. rewrite !andb_true_r. reflexivity.
Qed.

Lemma padding_image_pads_or_crops_witness :
  let screenshot := mkImage 1920 1080 (fun _ _ => (0, 0, 0)) in
  im_width (padding_image screenshot) = 1728 /\
  ~ im_width screenshot <= im_width (padding_image screenshot).
Proof.
  cbv zeta.
  destruct (padding_image_pads_or_crops (mkImage 1920 1080 (fun _ _ => (0, 0, 0))))
    as (_ & _ & _ & Hiff); [cbn; lia |].
  split; [reflexivity |]. intros H. apply Hiff in H. cbn in H. lia.
Defined.

End Capture.


(** ** [chunks] *)

Module ChunksFacts.
Local Open Scope string_scope.
Local Open Scope Z_scope.

Lemma substring_list i m s :
  list_ascii_of_string (substring i m s)
    = firstn m (skipn i (list_ascii_of_string s)).
Proof.
  revert i m. induction s as [| c s IH]; intros i m.
  - destruct i, m; reflexivity.
  - destruct i as [| i].
    + destruct m as [| m]; [reflexivity |].
      cbn [substring list_ascii_of_string skipn firstn]. f_equal.
      exact (IH 0%nat m).
    + cbn [substring list_ascii_of_string skipn]. apply IH.
Qed.

Lemma length_list s : List.length (list_ascii_of_string s) = String.length s.
Proof. induction s as [| c s IH]; cbn; [reflexivity | now rewrite IH]. Qed.

Lemma list_inj s t :
  list_ascii_of_string s = list_ascii_of_string t -> s = t.
Proof.
  intros H. rewrite <- (string_of_list_ascii_of_string s), H.
  apply string_of_list_ascii_of_string.
Qed.

Lemma list_app s t :
  list_ascii_of_string (s ++ t)
    = (list_ascii_of_string s ++ list_ascii_of_string t)%list.
Proof. induction s as [| c s IH]; cbn; [reflexivity | now rewrite IH]. Qed.

Lemma list_concat l :
  list_ascii_of_string (String.concat EmptyString l)
    = List.concat (map list_ascii_of_string l).
Proof.
  induction l as [| s l IH]; [reflexivity |].
  destruct l as [| t l].
  - cbn. now rewrite app_nil_r.
  - change (String.concat EmptyString (s :: t :: l))
      with (s ++ EmptyString ++ String.concat EmptyString (t :: l)).
    rewrite list_app. cbn [append]. rewrite IH. reflexivity.
Qed.

Lemma firstn_add {A} a b (l : list A) :
  firstn (a + b) l = (firstn a l ++ firstn b (skipn a l))%list.
Proof.
  revert l. induction a as [| a IH]; intros l; [reflexivity |].
  destruct l as [| x l]; cbn [Nat.add firstn skipn app].
  - now rewrite firstn_nil.
  - now rewrite IH.
Qed.

(** A slice that starts within the string. *)
Lemma slice_list s (i : nat) (n : Z) :
  0 < n -> (i <= String.length s)%nat ->
  list_ascii_of_string (slice s (Z.of_nat i) (Z.of_nat i + n))
    = firstn (Z.to_nat n) (skipn i (list_ascii_of_string s)).
Proof.
  intros Hn Hi. unfold slice, slice_index. rewrite substring_list.
  replace (Z.of_nat i <? 0) with false by (symmetry; apply Z.ltb_ge; lia).
  replace (Z.of_nat i + n <? 0) with false by (symmetry; apply Z.ltb_ge; lia).
  rewrite (Z.min_l (Z.of_nat i)) by lia. rewrite Nat2Z.id.
  set (L := list_ascii_of_string s).
  assert (HL : List.length (skipn i L) = (String.length s - i)%nat).
  { unfold L. now rewrite length_skipn, length_list. }
  destruct (Z.le_ge_cases (Z.of_nat i + n) (Z.of_nat (String.length s))) as [Hle | Hge].
  - rewrite Z.min_l by lia. f_equal. lia.
  - rewrite Z.min_r by lia.
    rewrite (firstn_all2 (n := Z.to_nat n)) by lia.
    apply firstn_all2. lia.
Qed.

(** The chunks from an offset on. *)
Lemma chunks_from s (n : Z) count : forall i : nat,
  0 < n ->
  (i + (count - 1) * Z.to_nat n < String.length s \/ count = 0)%nat ->
  List.concat
    (map list_ascii_of_string
       (map (fun j => slice s j (j + n)) (range_up count (Z.of_nat i) n)))
    = firstn (count * Z.to_nat n) (skipn i (list_ascii_of_string s)).
Proof.
  induction count as [| count IH]; intros i Hn Hc; [reflexivity |].
  cbn [range_up map List.concat].
  rewrite slice_list by (try assumption; lia).
  replace (Z.of_nat i + n) with (Z.of_nat (i + Z.to_nat n)) by lia.
  rewrite IH; [| assumption | destruct count; [right; reflexivity | left; lia]].
  replace (S count * Z.to_nat n)%nat with (Z.to_nat n + count * Z.to_nat n)%nat by lia.
  rewrite firstn_add, skipn_skipn. f_equal. f_equal. f_equal. lia.
Qed.

Lemma range_up_length count start step :
  List.length (range_up count start step) = count.
Proof.
  revert start. induction count as [| count IH]; intros start;
    cbn; [reflexivity | now rewrite IH].
Qed.

Lemma range_up_nth count start step k :
  (k < count)%nat ->
  nth_error (range_up count start step) k = Some (start + Z.of_nat k * step).
Proof.
  revert start k. induction count as [| count IH]; intros start k Hk; [lia |].
  destruct k as [| k]; cbn [range_up nth_error].
  - f_equal. lia.
  - rewrite IH by lia. f_equal. lia.
Qed.

(** X18: [chunks] with a positive size cuts the string into consecutive
    pieces: their concatenation is the string, there are
    [ceil (len / chunk_size)] of them, none is empty, and each has
    [chunk_size] characters except the last, which has what is left; with
    a negative size the result is empty, and with size 0 the call raises. *)
Theorem chunks_partition s chunk_size :
  let len := Z.of_nat (String.length s) in
  (0 < chunk_size ->
   exists l,
     chunks s chunk_size = Some l /\
     String.concat EmptyString l = s /\
     Z.of_nat (List.length l) = (len + chunk_size - 1) / chunk_size /\
     forall k c,
       nth_error l k = Some c ->
       1 <= Z.of_nat (String.length c) /\
       Z.of_nat (String.length c)
         = Z.min chunk_size (len - Z.of_nat k * chunk_size)) /\
  (chunk_size < 0 -> chunks s chunk_size = Some []) /\
  (chunk_size = 0 -> chunks s chunk_size = None).
Proof.
  cbv zeta. set (len := Z.of_nat (String.length s)).
  split; [| split].
  - intros Hn.
    set (count := Z.to_nat ((len + chunk_size - 1) / chunk_size)).
    assert (Hq : 0 <= (len + chunk_size - 1) / chunk_size).
    { apply Z.div_pos; lia. }
    pose proof (Z.div_mod (len + chunk_size - 1) chunk_size ltac:(lia)) as Hd.
    pose proof (Z.mod_pos_bound (len + chunk_size - 1) chunk_size Hn) as Hm.
    assert (Hlo : (Z.of_nat count - 1) * chunk_size < len \/ count = 0%nat).
    { destruct count eqn:E; [right; reflexivity | left]. rewrite <- E. nia. }
    assert (Hlo' : (0 + (count - 1) * Z.to_nat chunk_size < String.length s
                    \/ count = 0)%nat).
    { destruct count as [| c']; [right; reflexivity | left].
      destruct Hlo as [Hlo | Hlo]; [| discriminate].
      rewrite Nat.sub_succ, Nat.sub_0_r, Nat.add_0_l.
      apply Nat2Z.inj_lt. rewrite Nat2Z.inj_mul, Z2Nat.id by lia.
      fold len. lia. }
    assert (Hhi : len <= Z.of_nat count * chunk_size) by nia.
    assert (Hch : chunks s chunk_size
                  = Some (map (fun i => slice s i (i + chunk_size))
                            (range_up count 0 chunk_size))).
    { unfold chunks, range0. fold len.
      replace (chunk_size =? 0) with false by (symmetry; apply Z.eqb_neq; lia).
      replace (chunk_size <? 0) with false by (symmetry; apply Z.ltb_ge; lia).
      reflexivity. }
    eexists. split; [exact Hch |]. split; [| split].
    + apply list_inj. rewrite list_concat.
      pose proof (chunks_from s chunk_size count 0 Hn) as Hfrom.
      change (Z.of_nat 0) with 0 in Hfrom. rewrite Hfrom.
      * cbn [skipn]. apply firstn_all2. rewrite length_list.
        apply Nat2Z.inj_le. rewrite Nat2Z.inj_mul, Z2Nat.id by lia.
        fold len. lia.
      * exact Hlo'.
    + rewrite length_map, range_up_length. unfold count. lia.
    + intros k c Hk.
      assert (Hkc : (k < count)%nat).
      { rewrite <- (range_up_length count 0 chunk_size), <- (length_map
          (fun i => slice s i (i + chunk_size))).
        apply nth_error_Some. congruence. }
      rewrite nth_error_map, (range_up_nth count 0 chunk_size k Hkc) in Hk.
      cbn [option_map] in Hk. injection Hk as <-.
      assert (Hklen : Z.of_nat k * chunk_size < len) by nia.
      assert (Hk' : Z.of_nat k * chunk_size
                    = Z.of_nat (k * Z.to_nat chunk_size)).
      { rewrite Nat2Z.inj_mul, Z2Nat.id by lia. lia. }
      rewrite Hk'.
      assert (Hin : (k * Z.to_nat chunk_size <= String.length s)%nat).
      { apply Nat2Z.inj_le. rewrite <- Hk'. fold len. lia. }
      rewrite <- (length_list (slice _ _ _)).
      rewrite (slice_list s _ chunk_size Hn Hin).
      rewrite length_firstn, length_skipn, length_list.
      rewrite Nat2Z.inj_min, Nat2Z.inj_sub by exact Hin.
      rewrite <- Hk', Z2Nat.id by lia. fold len. split; lia.
  - intros Hn. unfold chunks, range0. fold len.
    replace (chunk_size =? 0) with false by (symmetry; apply Z.eqb_neq; lia).
    replace (chunk_size <? 0) with true by (symmetry; apply Z.ltb_lt; lia).
    assert (Hz : (- len - chunk_size - 1) / (- chunk_size) <= 0).
    { destruct (Z.eq_dec len 0) as [E | E].
      - rewrite E. rewrite Z.div_small by lia. lia.
      - assert ((- len - chunk_size - 1) / - chunk_size < 1); [| lia].
        apply Z.div_lt_upper_bound; lia. }
    replace (Z.to_nat _) with 0%nat by lia. reflexivity.
  - intros ->. reflexivity.
Qed.

Lemma chunks_partition_witness :
  exists l,
    chunks "screenshot" 4 = Some l /\
    String.concat EmptyString l = "screenshot" /\
    Z.of_nat (List.length l) = (10 + 4 - 1) / 4.
Proof.
  destruct (proj1 (chunks_partition "screenshot" 4) ltac:(lia))
    as (l & Hc & Hj & Hl & _).
  exists l. repeat split; assumption.
Defined.

End ChunksFacts.


(** ** Key names *)

Module KeyNames.
Local Open Scope string_scope.
Local Open Scope Z_scope.

(** The two character maps above the ASCII range: the no-break space
    U+00A0 and the next-line control U+0085 are white space, U+00C9 is
    lowered to U+00E9, and the sign U+00D7 is left as it is. *)
Example strip_and_lower_above_ascii :
  convert_key (String (ascii_of_N 160) "Ctrl") = "ctrl" /\
  convert_key (String (ascii_of_N 133) "Ctrl") = "ctrl" /\
  lower (String (ascii_of_N 201) EmptyString) = String (ascii_of_N 233) EmptyString /\
  lower (String (ascii_of_N 215) EmptyString) = String (ascii_of_N 215) EmptyString.
Proof. repeat split. Qed.

Lemma lower_char_idem a : lower_char (lower_char a) = lower_char a.
Proof.
  destruct a as [b0 b1 b2 b3 b4 b5 b6 b7].
  destruct b0, b1, b2, b3, b4, b5, b6, b7; reflexivity.
Qed.

Lemma lower_idem s : lower (lower s) = lower s.
Proof.
  induction s as [| a s IH]; [reflexivity |].
  cbn [lower]. now rewrite lower_char_idem, IH.
Qed.

Lemma rstrip_space_end s a :
  is_space a = true -> rstrip (s ++ String a EmptyString) = rstrip s.
Proof.
  intros Ha. induction s as [| c s IH].
  - cbn [append rstrip]. now rewrite Ha.
  - cbn [append rstrip]. now rewrite IH.
Qed.

Lemma strip_space_end s a :
  is_space a = true -> strip (s ++ String a EmptyString) = strip s.
Proof.
  intros Ha. unfold strip. induction s as [| c s IH].
  - cbn [append lstrip]. now rewrite Ha.
  - cbn [append lstrip]. destruct (is_space c); [exact IH |].
    exact (rstrip_space_end (String c s) a Ha).
Qed.

Lemma strip_space_start s a :
  is_space a = true -> strip (String a s) = strip s.
Proof. intros Ha. unfold strip. cbn [lstrip]. now rewrite Ha. Qed.

(** X19: for a key name written with code points below 256, the name as
    it is passed to [keyDown] and [keyUp] is in lower case ([str.lower]
    changes nothing more); a white-space character of [str.isspace]
    (U+0009 to U+000D, U+001C to U+0020, U+0085, U+00A0) before or after
    the name as it was written makes no difference; and the three names of
    the conversion table go to their [pyautogui] names. *)
Theorem convert_key_normalises key :
  lower (convert_key key) = convert_key key /\
  (forall a,
      is_space a = true ->
      convert_key (String a key) = convert_key key /\
      convert_key (key ++ String a EmptyString) = convert_key key) /\
  (forall k v, In (k, v) key_conversion -> convert_key k = v).
Proof.
  split; [| split].
  - unfold convert_key. apply lower_idem.
  - intros a Ha. unfold convert_key.
    now rewrite strip_space_start, strip_space_end.
  - intros k v [E | [E | [E | []]]]; injection E as <- <-; reflexivity.
Qed.

Lemma convert_key_normalises_witness :
  convert_key (String (ascii_of_N 160) "Ctrl") = convert_key "Ctrl" /\
  convert_key ("Ctrl" ++ String (ascii_of_N 160) EmptyString) = convert_key "Ctrl".
Proof.
  exact (proj1 (proj2 (convert_key_normalises "Ctrl")) (ascii_of_N 160) eq_refl).
Defined.

End KeyNames.
